(** * ExcelLikeWikiConverter: cell codec, column headers, wiki rendering,
      spreadsheet loading and the asset store.

    A shallow embedding of [utils.py], [wiki_exporter.py] and the
    whole-document operations of [file_handler.py], with the properties of
    the design document stated and settled against it.

    Python [str] values are sequences of Unicode code points; they are
    modelled as [list N].  A cell value is [None] or a [str]. *)

From Stdlib Require Import NArith ZArith List String Ascii Lia Bool.
From stdpp Require Import gmap list sorting.

#[local] Open Scope N_scope.

(** ** Strings as code-point sequences *)

Abbreviation char := N (only parsing).
Abbreviation str := (list N) (only parsing).

Module Text.

(** Source literals are written as UTF-8 and decoded to code points. *)
Definition bytes_of (s : string) : list N :=
  List.map N_of_ascii (list_ascii_of_string s).

Definition cont (b : N) : N := N.land b 63.

Fixpoint utf8_decode (bs : list N) : str :=
  match bs with
  | [] => []
  | b0 :: r0 =>
    if b0 <? 128 then b0 :: utf8_decode r0
    else match r0 with
      | [] => [b0]
      | b1 :: r1 =>
        if b0 <? 224 then
          (N.shiftl (N.land b0 31) 6 + cont b1) :: utf8_decode r1
        else match r1 with
          | [] => [b0; b1]
          | b2 :: r2 =>
            if b0 <? 240 then
              (N.shiftl (N.land b0 15) 12 + N.shiftl (cont b1) 6 + cont b2)
                :: utf8_decode r2
            else match r2 with
              | [] => [b0; b1; b2]
              | b3 :: r3 =>
                (N.shiftl (N.land b0 7) 18 + N.shiftl (cont b1) 12
                 + N.shiftl (cont b2) 6 + cont b3) :: utf8_decode r3
              end
          end
      end
  end.

Definition lit (s : string) : str := utf8_decode (bytes_of s).

(** Named characters. *)
Definition LF : char := 10.
Definition SP : char := 32.
Definition SEMI : char := 59.
Definition LBRACK : char := 91.
Definition RBRACK : char := 93.
Definition BACKSLASH : char := 92.
Definition SLASH : char := 47.
Definition DOT : char := 46.

(** [str.isspace] for one character, which is also what [\s] matches in a
    [str] pattern: the Unicode whitespace code points. *)
Definition is_space (c : char) : bool :=
  ((9 <=? c) && (c <=? 13)) || ((28 <=? c) && (c <=? 32))
  || (c =? 133) || (c =? 160) || (c =? 5760)
  || ((8192 <=? c) && (c <=? 8202))
  || (c =? 8232) || (c =? 8233) || (c =? 8239) || (c =? 8287) || (c =? 12288).

Fixpoint drop_while (p : char -> bool) (s : str) : str :=
  match s with
  | [] => []
  | c :: r => if p c then drop_while p r else s
  end.

Fixpoint take_while (p : char -> bool) (s : str) : str :=
  match s with
  | [] => []
  | c :: r => if p c then c :: take_while p r else []
  end.

(** [s.lstrip()], [s.rstrip()], [s.strip()] *)
Definition lstrip (s : str) : str := drop_while is_space s.
Definition rstrip (s : str) : str := rev (drop_while is_space (rev s)).
Definition strip (s : str) : str := rstrip (lstrip s).

(** [s.split(sep)] for a one-character separator: always at least one
    piece, empty pieces kept. *)
Fixpoint split (sep : char) (s : str) : list str :=
  match s with
  | [] => [[]]
  | c :: r =>
    if c =? sep then [] :: split sep r
    else match split sep r with
      | [] => [[c]]
      | p :: ps => (c :: p) :: ps
      end
  end.

(** [sep.join(pieces)] *)
Fixpoint join (sep : str) (pieces : list str) : str :=
  match pieces with
  | [] => []
  | [p] => p
  | p :: ps => p ++ sep ++ join sep ps
  end.

(** [s.replace(old, new)] for a one-character [old]. *)
Fixpoint replace (old : char) (new : str) (s : str) : str :=
  match s with
  | [] => []
  | c :: r => if c =? old then new ++ replace old new r else c :: replace old new r
  end.

(** [s.startswith(p)], returning what follows the prefix. *)
Fixpoint strip_prefix (p s : str) : option str :=
  match p, s with
  | [], _ => Some s
  | _ :: _, [] => None
  | a :: p', c :: s' => if a =? c then strip_prefix p' s' else None
  end.

(** [s.startswith(p)] and [p in s]. *)
Definition starts_with (p s : str) : bool :=
  match strip_prefix p s with Some _ => true | None => false end.

Fixpoint contains (p s : str) : bool :=
  starts_with p s ||
  match s with
  | [] => false
  | _ :: r => contains p r
  end.

(** Truthiness of a [str]. *)
Definition nonempty (s : str) : bool :=
  match s with [] => false | _ :: _ => true end.

(** Lexicographic order on code points, the order of [str.__lt__]. *)
Fixpoint ltb (a b : str) : bool :=
  match a, b with
  | _, [] => false
  | [], _ :: _ => true
  | x :: a', y :: b' => (x <? y) || ((x =? y) && ltb a' b')
  end.

End Text.

Import Text.

(** ** The scanning loop of [re.findall] and [re.sub]

    A pattern is given by its matcher at one position: the captured group
    (for [findall]) and the text after the match.  The loop tries every
    position from left to right and resumes after each match, so matches
    never overlap.  Both patterns used by the program consume at least one
    character, so the number of positions bounds the number of steps. *)

Module Re.

Definition matcher := str -> option (str * str).

Fixpoint findall_loop (m : matcher) (steps : nat) (s : str) : list str :=
  match steps with
  | O => []
  | S k =>
    match m s with
    | Some (g, rest) => g :: findall_loop m k rest
    | None => match s with
              | [] => []
              | _ :: s' => findall_loop m k s'
              end
    end
  end.

Definition findall (m : matcher) (s : str) : list str :=
  findall_loop m (S (length s)) s.

Fixpoint sub_loop (m : matcher) (repl : str) (steps : nat) (s : str) : str :=
  match steps with
  | O => s
  | S k =>
    match m s with
    | Some (_, rest) => repl ++ sub_loop m repl k rest
    | None => match s with
              | [] => []
              | c :: s' => c :: sub_loop m repl k s'
              end
    end
  end.

Definition sub (m : matcher) (repl : str) (s : str) : str :=
  sub_loop m repl (S (length s)) s.

(** [\[IMGS?\]] at the start of [s]. *)
Definition tag_head (s : str) : option str :=
  match strip_prefix (lit "[IMG") s with
  | None => None
  | Some r =>
    match r with
    | c :: r' =>
      if c =? RBRACK then Some r'
      else if c =? 83 (* S *) then
        match r' with
        | d :: r'' => if d =? RBRACK then Some r'' else None
        | [] => None
        end
      else None
    | [] => None
    end
  end.

Definition not_bracket (c : char) : bool :=
  negb ((c =? LBRACK) || (c =? RBRACK)).

(** [\[IMGS?\]\s*([^\[\]]+)]: after the head, [\s*] takes the longest run
    of whitespace and the group the longest run of non-bracket characters
    after it.  When nothing is left for the group, [\s*] gives back its
    last character; with no whitespace either, there is no match. *)
Definition tag_with_paths : matcher := fun s =>
  match tag_head s with
  | None => None
  | Some r =>
    let ws := take_while is_space r in
    let r1 := drop_while is_space r in
    match take_while not_bracket r1 with
    | (_ :: _) as g => Some (g, drop_while not_bracket r1)
    | [] =>
      match rev ws with
      | w :: _ => Some ([w], r1)
      | [] => None
      end
    end
  end.

(** [\[IMGS?\][^\[\]]*]: the head and the longest, possibly empty, run of
    non-bracket characters. *)
Definition tag_any : matcher := fun s =>
  match tag_head s with
  | None => None
  | Some r => Some (take_while not_bracket r, drop_while not_bracket r)
  end.

(** [\n+] *)
Definition newlines : matcher := fun s =>
  match s with
  | c :: r => if c =? LF then Some (c :: take_while (N.eqb LF) r, drop_while (N.eqb LF) r)
              else None
  | [] => None
  end.

End Re.

(** ** Paths: [os.path] on POSIX *)

Module Posix.

Definition not_sep (c : char) : bool := negb (c =? SLASH).
Definition is_sep (c : char) : bool := c =? SLASH.
Definition not_dot (c : char) : bool := negb (c =? DOT).

Definition ends_with (suffix s : str) : bool := starts_with (rev suffix) (rev s).

(** [os.path.isabs(p)] *)
Definition isabs (p : str) : bool := starts_with [SLASH] p.

(** [os.path.basename(p)] *)
Definition basename (p : str) : str := rev (take_while not_sep (rev p)).

(** [os.path.join(a, b)] *)
Definition join (a b : str) : str :=
  if starts_with [SLASH] b then b
  else if negb (nonempty a) || ends_with [SLASH] a then a ++ b
  else a ++ [SLASH] ++ b.

(** [os.path.dirname(p)] *)
Definition dirname (p : str) : str :=
  let head := drop_while not_sep (rev p) in
  if forallb is_sep head then rev head
  else rev (drop_while is_sep head).

(** [os.path.splitext(p)] *)
Definition splitext (p : str) : str * str :=
  let r := rev p in
  let ext := take_while not_dot r in
  match drop_while not_dot r with
  | [] => (p, [])
  | _ :: stem =>
    if forallb not_sep ext && existsb not_dot (take_while not_sep stem)
    then (rev stem, DOT :: rev ext)
    else (p, [])
  end.

End Posix.

(** ** utils.py *)

(** A cell value: [None] or a string. *)
Abbreviation cell := (option (list N)) (only parsing).

(** [not cell_value] is false exactly for a non-empty string. *)
Definition truthy (v : cell) : bool :=
  match v with
  | Some s => nonempty s
  | None => false
  end.

(** [str(cell_value)] of a truthy value. *)
Definition str_of (v : cell) : str :=
  match v with
  | Some s => s
  | None => lit "None"
  end.

Definition extract_image_paths (cell_value : cell) : list str :=
  if negb (truthy cell_value) then []
  else
    let matches := Re.findall Re.tag_with_paths (str_of cell_value) in
    List.fold_left
      (fun image_paths m =>
         image_paths ++
         List.map strip (List.filter (fun path => nonempty (strip path)) (split SEMI m)))
      matches [].

Definition clean_text_content (cell_value : cell) : str :=
  if negb (truthy cell_value) then []
  else
    let clean_text := Re.sub Re.tag_any [] (str_of cell_value) in
    strip (Re.sub Re.newlines [LF] clean_text).

(** [os.path.isabs] and [os.path.relpath(., start=os.getcwd())] belong to
    the platform; the codec is stated over any choice of them. *)
Section Codec.

Variable isabs : str -> bool.
Variable relpath : str -> str.

Definition format_cell_with_images (text_content : str) (image_paths : list str) : str :=
  match image_paths with
  | [] => text_content
  | _ :: _ =>
    let relative_paths :=
      List.fold_left
        (fun relative_paths path =>
           let relative_path := if isabs path then relpath path else path in
           relative_paths ++ [relative_path])
        image_paths [] in
    let image_tag :=
      if Nat.eqb (length relative_paths) 1
      then lit "[IMG] " ++ nth 0 relative_paths []
      else lit "[IMGS] " ++ join (lit "; ") relative_paths in
    if nonempty text_content && nonempty (strip text_content)
    then strip text_content ++ [LF] ++ image_tag
    else image_tag
  end.

(** The de-duplication loop: [if img not in unique_images: append]. *)
Definition unique_append (unique_images : list str) (img : str) : list str :=
  if bool_decide (img ∈ unique_images) then unique_images
  else unique_images ++ [img].

(** The value [add_images_to_cell_incremental] leaves in the cell whose
    value was [existing]. *)
Definition merged_cell (existing : cell) (new_image_paths : list str) : cell :=
  match new_image_paths with
  | [] => existing
  | _ :: _ =>
    let current_value : cell := if truthy existing then existing else Some [] in
    let text_content := clean_text_content current_value in
    let existing_images := extract_image_paths current_value in
    let all_images := existing_images ++ new_image_paths in
    let unique_images := List.fold_left unique_append all_images [] in
    Some (format_cell_with_images text_content unique_images)
  end.

(** The sheet as the grid widget holds it: rows of cells and a header row.
    [get_cell_data] and [set_cell_data] address an existing cell; outside
    the grid the widget's behaviour is not part of this program and the
    model gives no result. *)
Record Sheet := {
  sheet_data : list (list cell);
  sheet_headers : list str
}.

Definition get_cell_data (sh : Sheet) (row col : nat) : option cell :=
  r ← sheet_data sh !! row; r !! col.

Definition set_cell_data (sh : Sheet) (row col : nat) (v : cell) : Sheet :=
  {| sheet_data := alter (fun r => <[col := v]> r) row (sheet_data sh);
     sheet_headers := sheet_headers sh |}.

Definition add_images_to_cell_incremental
    (sh : Sheet) (row col : nat) (new_image_paths : list str) : option Sheet :=
  match new_image_paths with
  | [] => Some sh
  | _ :: _ =>
    v ← get_cell_data sh row col;
    Some (set_cell_data sh row col (merged_cell v new_image_paths))
  end.

End Codec.

(** [generate_column_headers]: the inner [while True] loop runs on [num]
    with the header built so far; each round divides [num] by 26, so
    [steps] rounds are enough once [steps] exceeds [num]. *)
Fixpoint header_loop (steps : nat) (num : N) (header : str) : str :=
  match steps with
  | O => header
  | S k =>
    let header := (65 + num mod 26) :: header in
    let num := num / 26 in
    if num =? 0 then header
    else header_loop k (num - 1) header
  end.

Definition column_header (i : N) : str :=
  header_loop (S (N.to_nat i)) i [].

Definition generate_column_headers (count : Z) : list str :=
  List.fold_left
    (fun headers i => headers ++ [column_header (N.of_nat i)])
    (seq 0 (Z.to_nat count)) [].

(** ** Notions used in the statements about the codec, the merge and
       the column names *)

Definition starts_with_space (s : str) : bool :=
  match s with
  | c :: _ => is_space c
  | [] => false
  end.

Definition ends_with_space (s : str) : bool := starts_with_space (rev s).

(** The paths kept from one matched group. *)
Definition paths_of_group (g : str) : list str :=
  List.map strip (List.filter (fun path => nonempty (strip path)) (split SEMI g)).

(** What every extracted path looks like. *)
Definition clean_path (p : str) : Prop :=
  nonempty p = true /\ starts_with_space p = false /\ ends_with_space p = false
  /\ Forall (fun c => c <> LBRACK /\ c <> RBRACK /\ c <> SEMI) p.

(** The codec of the design document. *)
Definition decode (value : cell) : str * list str :=
  (clean_text_content value, extract_image_paths value).

(** Image-tag syntax: an occurrence of [[IMG]] or [[IMGS]]. *)
Definition has_tag_syntax (s : str) : bool :=
  contains (lit "[IMG]") s || contains (lit "[IMGS]") s.

(** Two newlines in a row. *)
Definition has_blank_line (s : str) : bool := contains [LF; LF] s.

(** The text after the tag marker: no bracket, and a first character that
    is not whitespace. *)
Definition tag_body (b : str) : Prop :=
  nonempty b = true /\ starts_with_space b = false
  /\ Forall (fun c => Re.not_bracket c = true) b.

(** The marker written in front of the paths, given the paths after the
    first one. *)
Definition marker (ps : list str) : str :=
  match ps with
  | [] => lit "[IMG] "
  | _ :: _ => lit "[IMGS] "
  end.

(** De-duplication by equality that keeps the first occurrence: an element
    is kept unless it was seen before. *)
Fixpoint keep_first (seen : list str) (l : list str) : list str :=
  match l with
  | [] => []
  | x :: r =>
    if bool_decide (x ∈ seen) then keep_first seen r
    else x :: keep_first (seen ++ [x]) r
  end.

(** The number a spreadsheet column name stands for: letters are the digits
    1 to 26 of a base-26 numeral without zero ("A" is 1, "Z" is 26, "AA" is
    27). *)
Definition col_number (name : str) : N :=
  List.fold_left (fun acc c => acc * 26 + (c - 64)) name 0.

Definition is_upper (c : char) : Prop := 65 <= c <= 90.

(** ** wiki_exporter.py *)

(** [a <= b] in the order [sorted] uses on strings. *)
Definition str_le (a b : str) : Prop := ltb b a = false.

#[global] Instance str_le_dec a b : Decision (str_le a b).
Proof. unfold str_le. apply _. Defined.

(** The renderer asks the file system whether an image exists
    ([os.path.exists]) and takes the last component of a path
    ([os.path.basename]). *)
Section Wiki.

Variable file_exists : str -> bool.
Variable basename : str -> str.

(** The text of one cell in [_export_wiki_sync]. *)
Definition cell_text (cell_value : cell) : str :=
  let cell_content := [] in
  if truthy cell_value then
    let clean_text := clean_text_content cell_value in
    if nonempty clean_text then replace LF [BACKSLASH; BACKSLASH] clean_text
    else cell_content
  else cell_content.

(** The text of one cell in [get_wiki_content]. *)
Definition cell_markup (cell_value : cell) : str :=
  let cell_content := [] in
  if truthy cell_value then
    let clean_text := clean_text_content cell_value in
    let cell_content :=
      if nonempty clean_text then replace LF [BACKSLASH; BACKSLASH] clean_text
      else cell_content in
    let image_paths := extract_image_paths cell_value in
    match image_paths with
    | [] => cell_content
    | _ :: _ =>
      let image_refs :=
        List.fold_left
          (fun image_refs image_path =>
             if file_exists image_path
             then image_refs ++ [lit "!" ++ basename image_path ++ lit "!"]
             else image_refs)
          image_paths [] in
      match image_refs with
      | [] => cell_content
      | _ :: _ =>
        if nonempty cell_content
        then cell_content ++ lit "|" ++ join (lit "|") image_refs
        else join (lit "|") image_refs
      end
    end
  else cell_content.

Definition table_row (render : cell -> str) (row_data : list cell) : str :=
  let row_cells := List.fold_left (fun row_cells v => row_cells ++ [render v]) row_data [] in
  lit "|" ++ join (lit "|") row_cells ++ lit "|" ++ [LF].

(** The part both renderers start with: title, header row, and one row
    for each grid row with a truthy cell. *)
Definition table_lines (render : cell -> str) (sh : Sheet) : list str :=
  let wiki_content := [lit "h2. 表格数据" ++ [LF; LF]] in
  let headers := sheet_headers sh in
  let header_row := lit "||" ++ join (lit "||") headers ++ lit "||" ++ [LF] in
  let wiki_content := wiki_content ++ [header_row] in
  let data := sheet_data sh in
  List.fold_left
    (fun wiki_content row_data =>
       if existsb truthy row_data
       then wiki_content ++ [table_row render row_data]
       else wiki_content)
    data wiki_content.

(** The set of base names of the images that exist. *)
Definition collect_image_files (data : list (list cell)) : gset (list N) :=
  List.fold_left
    (fun image_files row_data =>
       List.fold_left
         (fun image_files cell_value =>
            if truthy cell_value then
              List.fold_left
                (fun image_files image_path =>
                   if file_exists image_path
                   then image_files ∪ {[ basename image_path ]}
                   else image_files)
                (extract_image_paths cell_value) image_files
            else image_files)
         row_data image_files)
    data ∅.

(** [sorted(image_files)] *)
Definition sorted (s : gset (list N)) : list str := merge_sort str_le (elements s).

Definition get_wiki_content (sh : Sheet) : str :=
  let wiki_content := table_lines cell_markup sh in
  let wiki_content := wiki_content ++ [[LF] ++ lit "h3. 图片文件" ++ [LF]] in
  let wiki_content :=
    wiki_content ++ [lit "请将以下图片文件上传到Confluence页面的附件中：" ++ [LF; LF]] in
  let image_files := collect_image_files (sheet_data sh) in
  let wiki_content :=
    List.fold_left
      (fun wiki_content image_file => wiki_content ++ [lit "* " ++ image_file ++ [LF]])
      (sorted image_files) wiki_content in
  List.concat wiki_content.

(** The text [_export_wiki_sync] writes to its file. *)
Definition _export_wiki_sync (sh : Sheet) : str :=
  List.concat (table_lines cell_text sh).

(** [f] is the base name of an existing image that some cell refers to. *)
Definition referenced (data : list (list cell)) (f : str) : Prop :=
  exists row_data cell_value image_path,
    row_data ∈ data /\ cell_value ∈ row_data
    /\ image_path ∈ extract_image_paths cell_value
    /\ file_exists image_path = true /\ basename image_path = f.

End Wiki.

(** Strictly ascending. *)
Definition str_lt (a b : str) : Prop := ltb a b = true.

(** ** file_handler.py: the grid built by [_load_from_excel_file] *)

(** [while len(row) < min_cols: row.append("")] *)
Fixpoint pad_row (steps : nat) (min_cols : nat) (row : list str) : list str :=
  match steps with
  | O => row
  | S k =>
    if (length row <? min_cols)%nat then pad_row k min_cols (row ++ [[]])
    else row
  end.

(** [while len(data) < min_rows: data.append([""] * min_cols)] *)
Fixpoint pad_rows (steps : nat) (min_rows min_cols : nat) (data : list (list str))
  : list (list str) :=
  match steps with
  | O => data
  | S k =>
    if (length data <? min_rows)%nat
    then pad_rows k min_rows min_cols (data ++ [replicate min_cols []])
    else data
  end.

(** From the parsed table ([headers], [data], every value already a
    string) to what is put on the sheet: the padded rows and the new
    column headers.  Each loop appends one item per round until the length
    reaches its bound, so that bound is enough rounds. *)
Definition load_grid (headers : list str) (data : list (list str))
  : list str * list (list str) :=
  let min_rows := Nat.max 100 (length data) in
  let min_cols := Nat.max 20 (length headers) in
  let data := List.map (pad_row min_cols min_cols) data in
  let data := pad_rows min_rows min_rows min_cols data in
  let column_headers := generate_column_headers (Z.of_nat min_cols) in
  (column_headers, data).

(** ** The asset store and the whole-document operations

    The state these operations work on: the live asset store (file name to
    bytes, the files of [self.assets_dir]), the sheet, the bound file path
    and, in order, what was shown to the user.  Everything outside the
    store is read only and given by an environment: what is at a path,
    the names in a directory, what [pd.read_excel] makes of a file.  The
    store directory itself is there from start-up on (it is created when
    missing), and the row heights of the widget are left out. *)

Inductive Entry :=
  | File (content : option (list N))   (* [None]: a file that cannot be read *)
  | Dir.

Inductive Exn :=
  | FileNotFound (p : list N)
  | PermissionDenied (p : list N)
  | IsADirectory (p : list N)
  | BadSpreadsheet (p : list N)
  | BadArchive (p : list N).

Record Table := { tbl_headers : list str; tbl_rows : list (list str) }.

Record Env := {
  stat : list N -> option Entry;
  listdir : list N -> list (list N);
  read_excel : list N -> option Table;   (* [None]: the parser raises *)
  write_error : list N -> option Exn;    (* writing this path raises *)
  pandas_available : bool;
  openpyxl_available : bool;
  xlsxwriter_available : bool
}.

(** An unpacked archive: the temporary tree and [os.walk] over it. *)
Record Extracted := {
  x_tree : Env;
  x_walk : list (list N * list (list N) * list (list N))
}.

(** Message boxes and status-bar updates. *)
Inductive Report :=
  | ErrMissingLibraries
  | ErrOpenFailed (e : Exn)
  | ErrNoExcelInArchive
  | ErrImportFailed (e : Exn)
  | ErrSaveFailed (e : Exn)
  | ErrExportFailed (e : Exn)
  | InfoOpened (rows cols : nat)
  | InfoImported
  | InfoSaved (dir : list N)
  | InfoExported
  | StatusAssetsImported (dir : list N)
  | StatusOpened (filename : list N)
  | StatusImported
  | StatusSaved (filename : list N)
  | StatusExported.

Definition is_error (r : Report) : bool :=
  match r with
  | ErrMissingLibraries | ErrOpenFailed _ | ErrNoExcelInArchive | ErrImportFailed _
  | ErrSaveFailed _ | ErrExportFailed _ => true
  | _ => false
  end.

Record World := {
  store : gmap (list N) (list N);
  outside : gmap (list N) (list N);   (* files written outside the store *)
  sheet : Sheet;
  current_file : option (list N);
  reports : list Report;
  ticks : nat     (* how often the clock was read *)
}.

(** Computations that read and change the world and may raise. *)
Definition Run (A : Type) : Type := World -> (Exn + A) * World.

#[global] Instance run_ret : MRet Run := fun A a w => (inr a, w).
#[global] Instance run_bind : MBind Run := fun A B f m w =>
  match m w with
  | (inl e, w') => (inl e, w')
  | (inr a, w') => f a w'
  end.

Definition raise {A} (e : Exn) : Run A := fun w => (inl e, w).

(** [try: body except Exception as e: handler(e)] *)
Definition try_except (body : Run unit) (handler : Exn -> Run unit) : Run unit := fun w =>
  match body w with
  | (inl e, w') => handler e w'
  | (inr a, w') => (inr a, w')
  end.

Fixpoint for_each {A} (body : A -> Run unit) (l : list A) : Run unit :=
  match l with
  | [] => mret tt
  | x :: r => body x ≫= fun _ => for_each body r
  end.

Definition report (r : Report) : Run unit := fun w =>
  (inr tt, {| store := store w; outside := outside w; sheet := sheet w; current_file := current_file w;
              reports := reports w ++ [r]; ticks := ticks w |}).

Definition set_sheet (data : list (list cell)) (headers : list str) : Run unit := fun w =>
  (inr tt, {| store := store w; outside := outside w;
              sheet := {| sheet_data := data; sheet_headers := headers |};
              current_file := current_file w; reports := reports w; ticks := ticks w |}).

Definition set_current_file (filename : str) : Run unit := fun w =>
  (inr tt, {| store := store w; outside := outside w; sheet := sheet w; current_file := Some filename;
              reports := reports w; ticks := ticks w |}).

(** [os.path.exists(os.path.join(assets_dir, name))] *)
Definition store_exists (name : str) : Run bool := fun w =>
  (inr (bool_decide (is_Some (store w !! name))), w).

Definition path_exists (env : Env) (p : str) : bool :=
  match stat env p with Some _ => true | None => false end.

Definition isfile (env : Env) (p : str) : bool :=
  match stat env p with Some (File _) => true | _ => false end.

(** [shutil.copy(src, os.path.join(assets_dir, dst_name))], and [copy2]:
    the file [dst_name] of the store is created or replaced. *)
Definition copy_to_store (env : Env) (src dst_name : str) : Run unit := fun w =>
  match stat env src with
  | Some (File (Some bytes)) =>
    (inr tt, {| store := <[dst_name := bytes]> (store w); outside := outside w; sheet := sheet w;
                current_file := current_file w; reports := reports w; ticks := ticks w |})
  | Some (File None) => (inl (PermissionDenied src), w)
  | Some Dir => (inl (IsADirectory src), w)
  | None => (inl (FileNotFound src), w)
  end.

Section Operations.

(** [datetime.now().strftime("%Y%m%d_%H%M%S")] at the n-th reading. *)
Variable clock : nat -> str.
Variable relpath : str -> str.

Definition timestamp_now : Run str := fun w =>
  (inr (clock (ticks w)),
   {| store := store w; outside := outside w; sheet := sheet w; current_file := current_file w;
      reports := reports w; ticks := S (ticks w) |}).

Fixpoint copy_images_loop (env : Env) (assets_dir : str) (image_paths : list str)
    (relative_paths : list str) : Run (list str) :=
  match image_paths with
  | [] => mret relative_paths
  | image_path :: rest =>
    if path_exists env image_path then
      let base_name := Posix.basename image_path in
      let '(name, ext) := Posix.splitext base_name in
      timestamp ← timestamp_now;
      let dest_name := name ++ lit "_" ++ timestamp ++ ext in
      let dest_path := Posix.join assets_dir dest_name in
      copy_to_store env image_path dest_name ≫= fun _ =>
      copy_images_loop env assets_dir rest (relative_paths ++ [relpath dest_path])
    else copy_images_loop env assets_dir rest relative_paths
  end.

Definition copy_images_to_assets (env : Env) (image_paths : list str) (assets_dir : str)
  : Run (list str) :=
  copy_images_loop env assets_dir image_paths [].

(** The body of the loop that copies a directory into the store; it is
    written out twice in the source, in [_load_from_excel_file] and in
    [import_package]. *)
Definition sync_file (env : Env) (src_dir : str) (file : str) : Run unit :=
  let src_path := Posix.join src_dir file in
  if isfile env src_path then
    taken ← store_exists file;
    dst_name ←
      (if taken : bool then
         let '(name, ext) := Posix.splitext file in
         timestamp ← timestamp_now;
         mret (name ++ lit "_" ++ timestamp ++ ext)
       else mret file);
    copy_to_store env src_path dst_name
  else mret tt.

Definition sync_from (env : Env) (src_dir : str) : Run unit :=
  for_each (sync_file env src_dir) (listdir env src_dir).

Definition _load_from_excel_file (env : Env) (filename : str) : Run unit :=
  if negb (pandas_available env) || negb (openpyxl_available env) then
    report ErrMissingLibraries
  else
    try_except
      (df ← (match read_excel env filename with
             | Some t => mret t
             | None => raise (match stat env filename with
                              | None => FileNotFound filename
                              | Some _ => BadSpreadsheet filename
                              end)
             end);
       let '(column_headers, data) := load_grid (tbl_headers df) (tbl_rows df) in
       let file_dir := Posix.dirname filename in
       let file_base := fst (Posix.splitext (Posix.basename filename)) in
       let excel_assets_dir := Posix.join file_dir (file_base ++ lit "_assets") in
       (if path_exists env excel_assets_dir then
          sync_from env excel_assets_dir ≫= fun _ =>
          report (StatusAssetsImported excel_assets_dir)
        else mret tt) ≫= fun _ =>
       set_sheet (List.map (List.map Some) data) column_headers ≫= fun _ =>
       set_current_file filename ≫= fun _ =>
       report (StatusOpened filename) ≫= fun _ =>
       report (InfoOpened (length data) (length column_headers)))
      (fun e => report (ErrOpenFailed e)).

Definition is_excel_name (file : str) : bool :=
  Posix.ends_with (lit ".xlsx") file || Posix.ends_with (lit ".xls") file.

(** [import_package] once the dialog has returned [filename]; [archive]
    is what unpacking it gives ([None]: it cannot be unpacked). *)
Definition import_package (filename : str) (archive : option Extracted) : Run unit :=
  try_except
    (match archive with
     | None => raise (BadArchive filename)
     | Some x =>
       let excel_files :=
         List.concat (List.map (fun '(root, dirs, files) =>
           List.map (Posix.join root) (List.filter is_excel_name files)) (x_walk x)) in
       match excel_files with
       | [] => report ErrNoExcelInArchive
       | excel_file :: _ =>
         let assets_dirs :=
           List.concat (List.map (fun '(root, dirs, files) =>
             if bool_decide (lit "assets" ∈ dirs)
             then [Posix.join root (lit "assets")] else []) (x_walk x)) in
         (match assets_dirs with
          | assets_src_dir :: _ => sync_from (x_tree x) assets_src_dir
          | [] => mret tt
          end) ≫= fun _ =>
         _load_from_excel_file (x_tree x) excel_file ≫= fun _ =>
         report InfoImported ≫= fun _ =>
         report StatusImported
       end
     end)
    (fun e => report (ErrImportFailed e)).

End Operations.

(** ** Sample worlds *)

Definition empty_world : World :=
  {| store := ∅; outside := ∅; sheet := {| sheet_data := []; sheet_headers := [] |};
     current_file := None; reports := []; ticks := 0 |}.

(** Two pictures with the same base name in different folders. *)
Definition two_pictures : Env :=
  {| stat := fun p =>
       if bool_decide (p = lit "/a/pic.png") then Some (File (Some (lit "first")))
       else if bool_decide (p = lit "/b/pic.png") then Some (File (Some (lit "second")))
       else None;
     listdir := fun _ => [];
     read_excel := fun _ => None;
     write_error := fun _ => None;
     pandas_available := true;
     openpyxl_available := true;
     xlsxwriter_available := true |}.

(** ** Outcomes of load and import *)

(** Sheet and bound path are the same in both worlds. *)
Definition same_document (w w' : World) : Prop :=
  sheet w' = sheet w /\ current_file w' = current_file w.

(** A computation that leaves the document alone and reports nothing. *)
Definition quiet {A} (m : Run A) : Prop :=
  forall w, same_document w (snd (m w)) /\ reports (snd (m w)) = reports w.

(** The world after a successful load of [filename]: the sheet holds the
    padded table with the generated headers and the path is bound. *)
Definition loaded (env : Env) (filename : str) (w' : World) : Prop :=
  exists df,
    read_excel env filename = Some df
    /\ sheet w' = {| sheet_data := List.map (List.map Some) (snd (load_grid (tbl_headers df) (tbl_rows df)));
                     sheet_headers := fst (load_grid (tbl_headers df) (tbl_rows df)) |}
    /\ current_file w' = Some filename.

(** What a load did, read off the reports it added: it failed with one
    error report and the document as before, or it reported no error and
    the document is the loaded one. *)
Definition load_outcome (env : Env) (filename : str) (w w' : World) : Prop :=
  exists added, reports w' = reports w ++ added /\
    ((exists err, added = [err] /\ is_error err = true /\ same_document w w')
     \/ (existsb is_error added = false /\ loaded env filename w')).

(** The same for a package import, which may add more than one report. *)
Definition import_outcome (archive : option Extracted) (w w' : World) : Prop :=
  exists added, reports w' = reports w ++ added /\
    ((existsb is_error added = true /\ same_document w w')
     \/ (existsb is_error added = false
         /\ exists x excel_file, archive = Some x /\ loaded (x_tree x) excel_file w')).

(** ** Saving and exporting

    Both write outside the store only.  The bytes of a workbook and of an
    archive are those the libraries produce from what the program hands
    them: header row, rows and thumbnails for a workbook, named entries for
    an archive. *)

Section Saving.

Variable relpath : str -> str.
Variable xlsx_of : list str -> list (list cell) -> list (nat * nat * list N * nat) -> list N.
Variable zip_of : list (list N * list N) -> list N.
(** [worksheet.insert_image] accepts the file; otherwise the failure is
    printed and the image left out. *)
Variable image_ok : list N -> bool.

Definition write_outside (env : Env) (path : str) (bytes : list N) : Run unit := fun w =>
  match write_error env path with
  | Some e => (inl e, w)
  | None =>
    (inr tt, {| store := store w; outside := <[path := bytes]> (outside w); sheet := sheet w;
                current_file := current_file w; reports := reports w; ticks := ticks w |})
  end.

Definition remove_outside (path : str) : Run unit := fun w =>
  (inr tt, {| store := store w; outside := delete path (outside w); sheet := sheet w;
              current_file := current_file w; reports := reports w; ticks := ticks w |}).

(** [os.makedirs(d)] when [d] does not exist. *)
Definition makedirs (env : Env) (d : str) : Run unit :=
  if path_exists env d then mret tt
  else match write_error env d with
       | Some e => raise e
       | None => mret tt
       end.

Definition get_world : Run World := fun w => (inr w, w).

(** The thumbnails put into the workbook: for the [i]-th image of the cell
    at [row], [col], when its copy in the sibling directory exists. *)
Definition thumbnails (present : str -> bool) (excel_assets_dir : str)
    (data : list (list cell)) : list (nat * nat * list N * nat) :=
  List.concat (imap (fun row row_data =>
    List.concat (imap (fun col cell_value =>
      if truthy cell_value then
        List.concat (imap (fun i image_path =>
          let excel_image_path :=
            Posix.join excel_assets_dir (Posix.basename image_path) in
          if present excel_image_path && image_ok excel_image_path
          then [(S row, col, excel_image_path, 5 + i * 50)%nat]
          else []) (extract_image_paths cell_value))
      else []) row_data)) data).

Definition _save_to_excel_file (env : Env) (assets_dir filename : str) : Run unit :=
  if negb (xlsxwriter_available env) then report ErrMissingLibraries
  else
    try_except
      (let file_dir := Posix.dirname filename in
       let file_base := fst (Posix.splitext (Posix.basename filename)) in
       let excel_assets_dir := Posix.join file_dir (file_base ++ lit "_assets") in
       makedirs env excel_assets_dir ≫= fun _ =>
       w ← get_world;
       for_each (fun '(file, bytes) =>
                   write_outside env (Posix.join excel_assets_dir file) bytes)
                (map_to_list (store w)) ≫= fun _ =>
       w ← get_world;
       let present := fun p =>
         bool_decide (is_Some (outside w !! p)) || path_exists env p in
       write_outside env filename
         (xlsx_of (sheet_headers (sheet w)) (sheet_data (sheet w))
            (thumbnails present excel_assets_dir (sheet_data (sheet w)))) ≫= fun _ =>
       report (StatusSaved filename) ≫= fun _ =>
       report (InfoSaved excel_assets_dir))
      (fun e => report (ErrSaveFailed e)).

(** [save_as_excel_file] once the dialog has returned [filename]. *)
Definition save_as_excel_file (env : Env) (assets_dir filename : str) : Run unit :=
  _save_to_excel_file env assets_dir filename ≫= fun _ =>
  set_current_file filename.

Definition _save_excel_sync (env : Env) (filename : str) : Run unit :=
  w ← get_world;
  write_outside env filename
    (xlsx_of (sheet_headers (sheet w)) (sheet_data (sheet w)) []).

(** [zipf.write(path, arcname)] for a file written before: the archive at
    [filename] now holds one more entry. *)
Definition zip_add (env : Env) (filename : str) (entries : list (list N * list N))
    (arcname : str) (bytes : list N) : Run (list (list N * list N)) :=
  let entries := entries ++ [(arcname, bytes)] in
  write_outside env filename (zip_of entries) ≫= fun _ => mret entries.

Fixpoint zip_add_all (env : Env) (filename assets_dir : str)
    (files : list (list N * list N)) (entries : list (list N * list N))
  : Run (list (list N * list N)) :=
  match files with
  | [] => mret entries
  | (file, bytes) :: rest =>
    entries ← zip_add env filename entries (relpath (Posix.join assets_dir file)) bytes;
    zip_add_all env filename assets_dir rest entries
  end.

(** [export_package] once the dialog has returned [filename]. *)
Definition export_package (env : Env) (assets_dir filename : str) : Run unit :=
  try_except
    (write_outside env filename (zip_of []) ≫= fun _ =>
     w ← get_world;
     entries ← zip_add_all env filename assets_dir (map_to_list (store w)) [];
     let temp_excel := lit "temp_export.xlsx" in
     _save_excel_sync env temp_excel ≫= fun _ =>
     entries ← zip_add env filename entries (lit "表格数据.xlsx")
                 (xlsx_of (sheet_headers (sheet w)) (sheet_data (sheet w)) []);
     remove_outside temp_excel ≫= fun _ =>
     let temp_wiki := lit "temp_export.txt" in
     write_outside env temp_wiki (_export_wiki_sync (sheet w)) ≫= fun _ =>
     entries ← zip_add env filename entries (lit "表格数据_wiki.txt")
                 (_export_wiki_sync (sheet w));
     remove_outside temp_wiki ≫= fun _ =>
     report InfoExported ≫= fun _ =>
     report StatusExported)
    (fun e => report (ErrExportFailed e)).

End Saving.

(** ** Outcomes of save and export *)

(** Document, reports and store are the same in both worlds. *)
Definition same_world (w w' : World) : Prop :=
  sheet w' = sheet w /\ current_file w' = current_file w
  /\ reports w' = reports w /\ store w' = store w.

(** A computation that may only write outside the store. *)
Definition readonly {A} (m : Run A) : Prop := forall w, same_world w (snd (m w)).

(** A computation that changes nothing but the outside files and, unless
    it raises, ends by making the reports [rs]. *)
Definition ends_with_reports {A} (rs : list Report) (m : Run A) : Prop :=
  forall w,
    same_document w (snd (m w)) /\ store (snd (m w)) = store w
    /\ reports (snd (m w)) = reports w ++ (match fst (m w) with inl _ => [] | inr _ => rs end).

(** What the caller sees of such a computation under [try ... except]:
    document and store as before, and either one error report or the
    reports of the successful run. *)
Definition write_outcome (rs : list Report) (w w' : World) : Prop :=
  same_document w w' /\ store w' = store w
  /\ exists added, reports w' = reports w ++ added
     /\ ((exists err, added = [err] /\ is_error err = true) \/ added = rs).

(** An archive with one picture under [assets/] and a workbook that the
    parser rejects. *)
Definition broken_package : Extracted :=
  {| x_tree :=
       {| stat := fun p =>
            if bool_decide (p = lit "/tmp/x/assets") then Some Dir
            else if bool_decide (p = lit "/tmp/x/assets/pic.png") then Some (File (Some (lit "bytes")))
            else if bool_decide (p = lit "/tmp/x/book.xlsx") then Some (File (Some (lit "junk")))
            else None;
          listdir := fun d =>
            if bool_decide (d = lit "/tmp/x/assets") then [lit "pic.png"] else [];
          read_excel := fun _ => None;
          write_error := fun _ => None;
          pandas_available := true;
          openpyxl_available := true;
          xlsxwriter_available := true |};
     x_walk := [ (lit "/tmp/x", [lit "assets"], [lit "book.xlsx"]);
                 (lit "/tmp/x/assets", [], [lit "pic.png"]) ] |}.

(** ** More of utils.py and its callers *)

(** [str(cell_value).count('\n')] *)
Definition count_newlines (s : str) : nat :=
  length (List.filter (N.eqb LF) s).

(** The lines a truthy cell value takes. *)
Definition cell_lines (cell_value : cell) : nat :=
  count_newlines (str_of cell_value) + 1.

(** One round of the outer loop of [auto_adjust_row_heights]: the height
    handed to [sheet.row_height] for a row. *)
Definition adjusted_row_height (row_data : list cell) : nat :=
  let max_lines :=
    List.fold_left
      (fun max_lines cell_value =>
         if truthy cell_value then Nat.max max_lines (cell_lines cell_value)
         else max_lines)
      row_data 1%nat in
  Nat.max 25 (max_lines * 20).

(** [auto_adjust_row_heights]: the heights it sets, row by row. *)
Definition auto_adjust_row_heights (sh : Sheet) : list nat :=
  List.fold_left (fun heights row_data => heights ++ [adjusted_row_height row_data])
    (sheet_data sh) [].

(** ** The save command *)

Section SaveCommand.

Variable xlsx_of : list str -> list (list cell) -> list (nat * nat * list N * nat) -> list N.
Variable image_ok : list N -> bool.

(** [save_excel_file]: [asked] is what the file dialog returns when it is
    shown, the empty string when it is cancelled. *)
Definition save_excel_file (env : Env) (assets_dir asked : str) : Run unit := fun w =>
  if truthy (current_file w) then
    _save_to_excel_file xlsx_of image_ok env assets_dir (str_of (current_file w)) w
  else if nonempty asked then save_as_excel_file xlsx_of image_ok env assets_dir asked w
  else (inr tt, w).

End SaveCommand.

(** The workbooks of an unpacked archive and its folders named [assets],
    in the order of the walk. *)
Definition excel_files (x : Extracted) : list str :=
  List.concat (List.map (fun '(root, dirs, files) =>
    List.map (Posix.join root) (List.filter is_excel_name files)) (x_walk x)).

Definition assets_dirs (x : Extracted) : list str :=
  List.concat (List.map (fun '(root, dirs, files) =>
    if bool_decide (lit "assets" ∈ dirs)
    then [Posix.join root (lit "assets")] else []) (x_walk x)).

(** ** The fields of a rendered cell *)

(** What a cell contributes to its row of the rendered table: its text,
    when there is one, and one field for each image whose file exists; a
    cell with neither contributes one empty field. *)
Definition cell_fields (file_exists : str -> bool) (basename : str -> str)
    (cell_value : cell) : list str :=
  match
    (if nonempty (cell_text cell_value) then [cell_text cell_value] else [])
    ++ List.map (fun image_path => lit "!" ++ basename image_path ++ lit "!")
         (List.filter file_exists (extract_image_paths cell_value))
  with
  | [] => [[]]
  | fields => fields
  end.

(** ** dependencies.py *)

(** The names listed in the message of [check_dependencies]; the flag of
    the grid widget is not one of those the file operations look at. *)
Definition missing_deps (tksheet_available : bool) (env : Env) : list str :=
  let missing_deps := [] in
  let missing_deps :=
    if negb tksheet_available then missing_deps ++ [lit "tksheet"] else missing_deps in
  let missing_deps :=
    if negb (pandas_available env) then missing_deps ++ [lit "pandas"] else missing_deps in
  let missing_deps :=
    if negb (xlsxwriter_available env) then missing_deps ++ [lit "xlsxwriter"]
    else missing_deps in
  let missing_deps :=
    if negb (openpyxl_available env) then missing_deps ++ [lit "openpyxl"] else missing_deps in
  missing_deps.

Definition check_dependencies (tksheet_available : bool) (env : Env) : bool :=
  match missing_deps tksheet_available env with
  | _ :: _ => false
  | [] => true
  end.

(** A computation that never reports a missing library. *)
Definition never_refused {A} (m : Run A) : Prop :=
  forall w, ErrMissingLibraries ∉ reports w -> ErrMissingLibraries ∉ reports (snd (m w)).

(** ** What opening and importing leave in place *)

(** No name of the store has gone, nothing was written outside the store
    and the clock has not run backwards. *)
Definition keeps_names (w w' : World) : Prop :=
  (forall name, is_Some (store w !! name) -> is_Some (store w' !! name))
  /\ outside w' = outside w
  /\ (ticks w <= ticks w')%nat.

Definition only_adds {A} (m : Run A) : Prop := forall w, keeps_names w (snd (m w)).

(** * Properties *)

(** ** Sample runs *)

Example ex_extract_two :
  extract_image_paths (Some (lit "hello
[IMGS] a/b.png;  c.png ; ;[IMG]x")) = [lit "a/b.png"; lit "c.png"; lit "x"].
Proof. vm_compute. reflexivity. Qed.

Example ex_headers_3 : generate_column_headers 3 = [lit "A"; lit "B"; lit "C"].
Proof. reflexivity. Qed.

Example ex_header_701_702 :
  column_header 701 = lit "ZZ" /\ column_header 702 = lit "AAA".
Proof. vm_compute. split; reflexivity. Qed.

(** ** The scanning loops do not depend on the step bound *)

Section ReLoop.

Variable m : Re.matcher.
Hypothesis m_consumes : forall s g rest, m s = Some (g, rest) -> (length rest < length s)%nat.

Lemma findall_loop_steps k1 : forall k2 s,
  (length s < k1)%nat -> (length s < k2)%nat ->
  Re.findall_loop m k1 s = Re.findall_loop m k2 s.
Proof using m_consumes.
  induction k1 as [|k1 IH]; intros k2 s H1 H2; [lia|].
  destruct k2 as [|k2]; [lia|]. simpl.
  destruct (m s) as [[g rest]|] eqn:E.
  - apply m_consumes in E. f_equal. apply IH; lia.
  - destruct s as [|c s']; [reflexivity|]. simpl in *. apply IH; lia.
Qed.

Lemma findall_unfold s :
  Re.findall m s =
  match m s with
  | Some (g, rest) => g :: Re.findall m rest
  | None => match s with [] => [] | _ :: s' => Re.findall m s' end
  end.
Proof using m_consumes.
  unfold Re.findall at 1. simpl.
  destruct (m s) as [[g rest]|] eqn:E.
  - apply m_consumes in E. f_equal. apply findall_loop_steps; lia.
  - destruct s as [|c s']; [reflexivity|]. apply findall_loop_steps; simpl; lia.
Qed.

Lemma sub_loop_steps repl k1 : forall k2 s,
  (length s < k1)%nat -> (length s < k2)%nat ->
  Re.sub_loop m repl k1 s = Re.sub_loop m repl k2 s.
Proof using m_consumes.
  induction k1 as [|k1 IH]; intros k2 s H1 H2; [lia|].
  destruct k2 as [|k2]; [lia|]. simpl.
  destruct (m s) as [[g rest]|] eqn:E.
  - apply m_consumes in E. f_equal. apply IH; lia.
  - destruct s as [|c s']; [reflexivity|]. simpl in *. f_equal. apply IH; lia.
Qed.

Lemma sub_unfold repl s :
  Re.sub m repl s =
  match m s with
  | Some (_, rest) => repl ++ Re.sub m repl rest
  | None => match s with [] => [] | c :: s' => c :: Re.sub m repl s' end
  end.
Proof using m_consumes.
  unfold Re.sub at 1. simpl.
  destruct (m s) as [[g rest]|] eqn:E.
  - apply m_consumes in E. f_equal. apply sub_loop_steps; lia.
  - destruct s as [|c s']; reflexivity.
Qed.

End ReLoop.

Lemma drop_while_length p s : (length (drop_while p s) <= length s)%nat.
Proof. induction s as [|c r IH]; simpl; [lia|]. destruct (p c); simpl; lia. Qed.

Lemma take_drop_while p s : take_while p s ++ drop_while p s = s.
Proof. induction s as [|c r IH]; simpl; [reflexivity|]. destruct (p c); simpl; congruence. Qed.

Lemma take_while_all p s : Forall (fun c => p c = true) (take_while p s).
Proof.
  induction s as [|c r IH]; simpl; [constructor|].
  destruct (p c) eqn:E; constructor; assumption.
Qed.

Lemma take_while_id p s : Forall (fun c => p c = true) s -> take_while p s = s.
Proof. induction 1 as [|c r Hc _ IH]; simpl; [reflexivity|]. rewrite Hc, IH. reflexivity. Qed.

Lemma drop_while_nil p s : Forall (fun c => p c = true) s -> drop_while p s = [].
Proof. induction 1 as [|c r Hc _ IH]; simpl; [reflexivity|]. rewrite Hc. exact IH. Qed.

Lemma drop_while_head p c r : p c = false -> drop_while p (c :: r) = c :: r.
Proof. intros H. simpl. rewrite H. reflexivity. Qed.

Lemma strip_prefix_length p : forall s r,
  strip_prefix p s = Some r -> (length s = length p + length r)%nat.
Proof.
  induction p as [|a p IH]; intros s r H; simpl in *.
  - injection H as <-. reflexivity.
  - destruct s as [|c s']; [discriminate|].
    destruct (a =? c); [|discriminate]. apply IH in H. simpl. lia.
Qed.

Lemma tag_head_length s r : Re.tag_head s = Some r -> (length r + 5 <= length s)%nat.
Proof.
  unfold Re.tag_head. destruct (strip_prefix (lit "[IMG") s) as [r0|] eqn:E; [|discriminate].
  apply strip_prefix_length in E. change (length (lit "[IMG")) with 4%nat in E.
  destruct r0 as [|c r']; [discriminate|].
  destruct (c =? RBRACK).
  - intros [= <-]. simpl in E. lia.
  - destruct (c =? 83); [|discriminate].
    destruct r' as [|d r'']; [discriminate|].
    destruct (d =? RBRACK); [|discriminate]. intros [= <-]. simpl in E. lia.
Qed.

Lemma tag_with_paths_consumes s g rest :
  Re.tag_with_paths s = Some (g, rest) -> (length rest < length s)%nat.
Proof.
  unfold Re.tag_with_paths. destruct (Re.tag_head s) as [r|] eqn:E; [|discriminate].
  apply tag_head_length in E.
  pose proof (drop_while_length is_space r) as H1.
  pose proof (drop_while_length Re.not_bracket (drop_while is_space r)) as H2.
  destruct (take_while Re.not_bracket (drop_while is_space r)).
  - destruct (rev (take_while is_space r)); [discriminate|]. intros [= _ <-]. lia.
  - intros [= _ <-]. lia.
Qed.

Lemma tag_any_consumes s g rest :
  Re.tag_any s = Some (g, rest) -> (length rest < length s)%nat.
Proof.
  unfold Re.tag_any. destruct (Re.tag_head s) as [r|] eqn:E; [|discriminate].
  apply tag_head_length in E. pose proof (drop_while_length Re.not_bracket r).
  intros [= _ <-]. lia.
Qed.

Lemma newlines_consumes s g rest :
  Re.newlines s = Some (g, rest) -> (length rest < length s)%nat.
Proof.
  destruct s as [|c r]; simpl; [discriminate|].
  destruct (c =? LF); [|discriminate].
  pose proof (drop_while_length (N.eqb LF) r). intros [= _ <-]. simpl. lia.
Qed.

Lemma findall_paths_unfold s :
  Re.findall Re.tag_with_paths s =
  match Re.tag_with_paths s with
  | Some (g, rest) => g :: Re.findall Re.tag_with_paths rest
  | None => match s with [] => [] | _ :: s' => Re.findall Re.tag_with_paths s' end
  end.
Proof. apply findall_unfold, tag_with_paths_consumes. Qed.

Lemma sub_tags_unfold repl s :
  Re.sub Re.tag_any repl s =
  match Re.tag_any s with
  | Some (_, rest) => repl ++ Re.sub Re.tag_any repl rest
  | None => match s with [] => [] | c :: s' => c :: Re.sub Re.tag_any repl s' end
  end.
Proof. apply sub_unfold, tag_any_consumes. Qed.

Lemma sub_newlines_unfold repl s :
  Re.sub Re.newlines repl s =
  match Re.newlines s with
  | Some (_, rest) => repl ++ Re.sub Re.newlines repl rest
  | None => match s with [] => [] | c :: s' => c :: Re.sub Re.newlines repl s' end
  end.
Proof. apply sub_unfold, newlines_consumes. Qed.

(** ** Trimming and splitting *)

Lemma drop_while_start p s :
  match drop_while p s with c :: _ => p c = false | [] => True end.
Proof.
  induction s as [|c r IH]; simpl; [exact I|].
  destruct (p c) eqn:E; [exact IH | exact E].
Qed.

Lemma lstrip_start s : starts_with_space (lstrip s) = false.
Proof.
  unfold lstrip, starts_with_space.
  pose proof (drop_while_start is_space s) as H.
  destruct (drop_while is_space s); [reflexivity | exact H].
Qed.

Lemma rstrip_end s : ends_with_space (rstrip s) = false.
Proof. unfold ends_with_space, rstrip. rewrite rev_involutive. apply lstrip_start. Qed.

Lemma rstrip_split s : s = rstrip s ++ rev (take_while is_space (rev s)).
Proof.
  unfold rstrip. rewrite <- rev_app_distr, take_drop_while, rev_involutive. reflexivity.
Qed.

Lemma rstrip_start s : starts_with_space s = false -> starts_with_space (rstrip s) = false.
Proof.
  intros H. rewrite (rstrip_split s) in H.
  destruct (rstrip s); [reflexivity | exact H].
Qed.

Lemma strip_start s : starts_with_space (strip s) = false.
Proof. apply rstrip_start, lstrip_start. Qed.

Lemma strip_end s : ends_with_space (strip s) = false.
Proof. apply rstrip_end. Qed.

Lemma drop_while_Forall (P : N -> Prop) p s : Forall P s -> Forall P (drop_while p s).
Proof.
  induction 1 as [|c r Hc Hr IH]; simpl; [constructor|].
  destruct (p c); [exact IH | constructor; assumption].
Qed.

Lemma Forall_rev' (P : N -> Prop) s : Forall P s -> Forall P (rev s).
Proof. rewrite !List.Forall_forall. intros H x Hx. apply H, in_rev, Hx. Qed.

Lemma strip_Forall (P : N -> Prop) s : Forall P s -> Forall P (strip s).
Proof.
  intros H. unfold strip, rstrip, lstrip.
  apply Forall_rev', drop_while_Forall, Forall_rev', drop_while_Forall, H.
Qed.

Lemma lstrip_id s : starts_with_space s = false -> lstrip s = s.
Proof. destruct s as [|c r]; [reflexivity|]. unfold lstrip. simpl. intros ->. reflexivity. Qed.

Lemma rstrip_id s : ends_with_space s = false -> rstrip s = s.
Proof.
  unfold ends_with_space, rstrip. intros H.
  fold (lstrip (rev s)). rewrite (lstrip_id _ H). apply rev_involutive.
Qed.

Lemma strip_id s :
  starts_with_space s = false -> ends_with_space s = false -> strip s = s.
Proof. intros H1 H2. unfold strip. rewrite (lstrip_id _ H1). apply rstrip_id, H2. Qed.

Lemma strip_idem s : strip (strip s) = strip s.
Proof. apply strip_id; [apply strip_start | apply strip_end]. Qed.

Lemma split_pieces (P : N -> Prop) sep s :
  Forall P s -> Forall (Forall (fun c => P c /\ c <> sep)) (split sep s).
Proof.
  induction 1 as [|c r Hc Hr IH]; simpl; [repeat constructor|].
  destruct (N.eqb_spec c sep) as [->|Hne].
  - constructor; [constructor | exact IH].
  - destruct (split sep r) as [|p ps]; [repeat constructor; assumption|].
    inversion IH; subst. constructor; [constructor; [split|]; assumption | assumption].
Qed.

Lemma fold_left_extend {A B} (f : A -> list B) (l : list A) (acc : list B) :
  List.fold_left (fun acc x => acc ++ f x) l acc = acc ++ List.concat (List.map f l).
Proof.
  revert acc. induction l as [|x l IH]; intros acc; simpl.
  - rewrite app_nil_r. reflexivity.
  - rewrite IH, app_assoc. reflexivity.
Qed.

Lemma findall_loop_Forall (m : Re.matcher) (P : str -> Prop) :
  (forall s g rest, m s = Some (g, rest) -> P g) ->
  forall k s, Forall P (Re.findall_loop m k s).
Proof.
  intros Hm. induction k as [|k IH]; intros s; simpl; [constructor|].
  destruct (m s) as [[g rest]|] eqn:E.
  - constructor; [eapply Hm, E | apply IH].
  - destruct s; [constructor | apply IH].
Qed.

Lemma space_not_bracket c : is_space c = true -> Re.not_bracket c = true.
Proof.
  unfold Re.not_bracket. intros H.
  destruct (N.eqb_spec c LBRACK) as [->|_]; [discriminate H|].
  destruct (N.eqb_spec c RBRACK) as [->|_]; [discriminate H|]. reflexivity.
Qed.

Lemma tag_with_paths_group s g rest :
  Re.tag_with_paths s = Some (g, rest) -> Forall (fun c => Re.not_bracket c = true) g.
Proof.
  unfold Re.tag_with_paths. destruct (Re.tag_head s) as [r|]; [|discriminate].
  pose proof (take_while_all Re.not_bracket (drop_while is_space r)) as Hg.
  destruct (take_while Re.not_bracket (drop_while is_space r)) as [|c g'].
  - pose proof (take_while_all is_space r) as Hw. apply Forall_rev' in Hw.
    destruct (rev (take_while is_space r)) as [|w ws]; [discriminate|].
    intros [= <- _]. inversion Hw; subst. repeat constructor. apply space_not_bracket. assumption.
  - intros [= <- _]. exact Hg.
Qed.

Lemma extract_image_paths_eq s :
  nonempty s = true ->
  extract_image_paths (Some s) =
  List.concat (List.map paths_of_group (Re.findall Re.tag_with_paths s)).
Proof.
  intros H. unfold extract_image_paths. simpl. rewrite H. simpl.
  apply (fold_left_extend paths_of_group).
Qed.

Lemma paths_of_group_clean g :
  Forall (fun c => Re.not_bracket c = true) g -> Forall clean_path (paths_of_group g).
Proof.
  intros Hg. unfold paths_of_group.
  apply (split_pieces _ SEMI) in Hg.
  induction Hg as [|p ps Hp _ IH]; simpl; [constructor|].
  destruct (nonempty (strip p)) eqn:E; [|exact IH].
  simpl. constructor; [|exact IH].
  split; [exact E|]. split; [apply strip_start|]. split; [apply strip_end|].
  apply strip_Forall. eapply List.Forall_impl; [|exact Hp].
  intros c [Hb Hs]. unfold Re.not_bracket in Hb.
  apply negb_true_iff, orb_false_iff in Hb. destruct Hb as [H1 H2].
  apply N.eqb_neq in H1, H2. auto.
Qed.

(** C10: [extract_image_paths] is total; every path it returns is
    non-empty, has no whitespace at either end and contains none of
    '[', ']' and ';'.  For the falsy values [None] and the empty string it
    returns the empty list and [clean_text_content] the empty string. *)
Theorem extract_image_paths_clean (cell_value : cell) :
  Forall clean_path (extract_image_paths cell_value)
  /\ extract_image_paths None = [] /\ clean_text_content None = []
  /\ extract_image_paths (Some []) = [] /\ clean_text_content (Some []) = [].
Proof.
  split; [|repeat split; reflexivity].
  destruct cell_value as [s|]; [|constructor].
  destruct (nonempty s) eqn:E.
  - rewrite (extract_image_paths_eq _ E).
    apply Forall_concat, Forall_map.
    apply findall_loop_Forall. intros s0 g rest H.
    eapply paths_of_group_clean, tag_with_paths_group, H.
  - destruct s; [constructor | discriminate].
Qed.

(** ** Text without image tags *)

Lemma tag_head_starts s :
  Re.tag_head s = None <->
  starts_with (lit "[IMG]") s = false /\ starts_with (lit "[IMGS]") s = false.
Proof.
  unfold Re.tag_head, starts_with.
  change (lit "[IMG") with [91; 73; 77; 71].
  change (lit "[IMG]") with [91; 73; 77; 71; 93].
  change (lit "[IMGS]") with [91; 73; 77; 71; 83; 93].
  change RBRACK with 93.
  destruct s as [|c0 [|c1 [|c2 [|c3 [|c4 [|c5 r]]]]]]; cbn [strip_prefix];
    repeat match goal with
    | |- context [N.eqb ?a ?b] =>
        destruct (N.eqb_spec a b); try subst; cbn [strip_prefix]; try congruence
    end; try (split; [auto | congruence]); try (split; [congruence | intros [? ?]; congruence]).
Qed.

Lemma has_tag_syntax_cons c s :
  has_tag_syntax (c :: s) = false -> Re.tag_head (c :: s) = None /\ has_tag_syntax s = false.
Proof.
  unfold has_tag_syntax. intros H. apply orb_false_iff in H. destruct H as [H1 H2].
  simpl in H1, H2. apply orb_false_iff in H1, H2. destruct H1 as [H1 H1'], H2 as [H2 H2'].
  split; [apply tag_head_starts; auto | rewrite H1', H2'; reflexivity].
Qed.

Lemma findall_untagged s :
  has_tag_syntax s = false -> Re.findall Re.tag_with_paths s = [].
Proof.
  induction s as [|c s IH]; intros H; [reflexivity|].
  apply has_tag_syntax_cons in H. destruct H as [H1 H2].
  rewrite findall_paths_unfold. unfold Re.tag_with_paths. rewrite H1. apply IH, H2.
Qed.

Lemma sub_untagged s :
  has_tag_syntax s = false -> Re.sub Re.tag_any [] s = s.
Proof.
  induction s as [|c s IH]; intros H; [reflexivity|].
  apply has_tag_syntax_cons in H. destruct H as [H1 H2].
  rewrite sub_tags_unfold. unfold Re.tag_any. rewrite H1. f_equal. apply IH, H2.
Qed.

Lemma sub_newlines_id s :
  has_blank_line s = false -> Re.sub Re.newlines [LF] s = s.
Proof.
  induction s as [|c s IH]; intros H; [reflexivity|].
  unfold has_blank_line in H. simpl in H. apply orb_false_iff in H. destruct H as [H1 H2].
  rewrite sub_newlines_unfold. unfold Re.newlines.
  destruct (N.eqb_spec c LF) as [->|Hc].
  - assert (Hd : drop_while (N.eqb LF) s = s).
    { destruct s as [|d s]; [reflexivity|].
      unfold starts_with in H1. cbn [strip_prefix] in H1. rewrite N.eqb_refl in H1.
      cbn [drop_while]. destruct (LF =? d); [discriminate H1 | reflexivity]. }
    rewrite Hd. cbn [app]. f_equal. apply IH, H2.
  - f_equal. apply IH, H2.
Qed.




(** ** Decoding an encoded cell *)

Lemma tag_head_text_sep u v :
  Re.tag_head u = None -> Re.tag_head (u ++ LF :: v) = None.
Proof.
  unfold Re.tag_head.
  change (lit "[IMG") with [91; 73; 77; 71]. change RBRACK with 93. change LF with 10.
  destruct u as [|c0 [|c1 [|c2 [|c3 [|c4 [|c5 r]]]]]]; cbn [strip_prefix app];
    repeat match goal with
    | |- context [N.eqb ?a ?b] =>
        destruct (N.eqb_spec a b); try subst; cbn [strip_prefix app]; try congruence
    end.
Qed.

Lemma findall_after_text u v :
  has_tag_syntax u = false ->
  Re.findall Re.tag_with_paths (u ++ LF :: v) = Re.findall Re.tag_with_paths v.
Proof.
  induction u as [|c u IH]; intros H.
  - rewrite findall_paths_unfold. reflexivity.
  - apply has_tag_syntax_cons in H. destruct H as [H1 H2].
    rewrite findall_paths_unfold. unfold Re.tag_with_paths.
    rewrite (tag_head_text_sep (c :: u) v H1). apply IH, H2.
Qed.

Lemma sub_after_text u v :
  has_tag_syntax u = false ->
  Re.sub Re.tag_any [] (u ++ LF :: v) = u ++ LF :: Re.sub Re.tag_any [] v.
Proof.
  induction u as [|c u IH]; intros H.
  - rewrite sub_tags_unfold. reflexivity.
  - apply has_tag_syntax_cons in H. destruct H as [H1 H2].
    rewrite sub_tags_unfold. unfold Re.tag_any.
    rewrite (tag_head_text_sep (c :: u) v H1). cbn [app]. f_equal. apply IH, H2.
Qed.

Lemma tag_with_paths_body r b :
  tag_body b -> Re.tag_head r = Some (SP :: b) ->
  Re.tag_with_paths r = Some (b, []).
Proof.
  intros (Hn & Hs & Hb) Hr. unfold Re.tag_with_paths. rewrite Hr.
  cbn [take_while drop_while]. change (is_space SP) with true. cbv iota.
  destruct b as [|c b]; [discriminate Hn|]. simpl in Hs.
  cbn [drop_while]. rewrite Hs.
  rewrite (take_while_id _ _ Hb), (drop_while_nil _ _ Hb). reflexivity.
Qed.

Lemma tag_any_body r b :
  tag_body b -> Re.tag_head r = Some (SP :: b) ->
  Re.tag_any r = Some (SP :: b, []).
Proof.
  intros (Hn & Hs & Hb) Hr. unfold Re.tag_any. rewrite Hr.
  assert (H : Forall (fun c => Re.not_bracket c = true) (SP :: b)) by (constructor; [reflexivity | exact Hb]).
  rewrite (take_while_id _ _ H), (drop_while_nil _ _ H). reflexivity.
Qed.

Lemma split_no_sep sep p :
  Forall (fun c => c <> sep) p -> split sep p = [p].
Proof.
  induction 1 as [|c p Hc _ IH]; [reflexivity|]. cbn [split].
  destruct (N.eqb_spec c sep); [contradiction|]. rewrite IH. reflexivity.
Qed.

Lemma split_piece sep p rest :
  Forall (fun c => c <> sep) p -> split sep (p ++ sep :: rest) = p :: split sep rest.
Proof.
  induction 1 as [|c p Hc _ IH]; cbn [split app].
  - rewrite N.eqb_refl. reflexivity.
  - destruct (N.eqb_spec c sep); [contradiction|]. rewrite IH. reflexivity.
Qed.

Lemma split_join ps : forall p,
  Forall (Forall (fun c => c <> SEMI)) (p :: ps) ->
  split SEMI (join (lit "; ") (p :: ps)) = p :: List.map (cons SP) ps.
Proof.
  induction ps as [|q ps IH]; intros p H; inversion H as [|? ? Hp Hps]; subst.
  - apply split_no_sep, Hp.
  - change (join (lit "; ") (p :: q :: ps)) with (p ++ SEMI :: SP :: join (lit "; ") (q :: ps)).
    rewrite (split_piece _ _ _ Hp). f_equal.
    change (split SEMI (SP :: join (lit "; ") (q :: ps)))
      with (match split SEMI (join (lit "; ") (q :: ps)) with
            | [] => [[SP]] | a :: l => (SP :: a) :: l end).
    rewrite (IH q Hps). reflexivity.
Qed.

Lemma clean_path_no_semi p : clean_path p -> Forall (fun c => c <> SEMI) p.
Proof. intros (_ & _ & _ & H). eapply List.Forall_impl; [|exact H]. intros c H0. apply H0. Qed.

Lemma clean_path_no_bracket p : clean_path p -> Forall (fun c => Re.not_bracket c = true) p.
Proof.
  intros (_ & _ & _ & H). eapply List.Forall_impl; [|exact H].
  intros c (H1 & H2 & _). unfold Re.not_bracket.
  apply N.eqb_neq in H1, H2. rewrite H1, H2. reflexivity.
Qed.

Lemma clean_path_strip p : clean_path p -> strip p = p.
Proof. intros (_ & H1 & H2 & _). apply strip_id; assumption. Qed.

Lemma clean_path_strip_sp p : clean_path p -> strip (SP :: p) = p.
Proof. intros H. rewrite <- (clean_path_strip p H) at 2. reflexivity. Qed.

Lemma paths_of_group_join p ps :
  Forall clean_path (p :: ps) ->
  paths_of_group (join (lit "; ") (p :: ps)) = p :: ps.
Proof.
  intros H. unfold paths_of_group. rewrite split_join.
  2:{ eapply List.Forall_impl; [|exact H]. apply clean_path_no_semi. }
  inversion H as [|? ? Hp Hps]; subst. cbn [List.filter List.map].
  rewrite (clean_path_strip p Hp). destruct Hp as (Hn & _). rewrite Hn. cbn [List.map].
  rewrite (clean_path_strip p). 2:{ inversion H; assumption. }
  f_equal. clear H Hn. induction Hps as [|q qs Hq _ IH]; [reflexivity|].
  cbn [List.filter List.map]. rewrite (clean_path_strip_sp q Hq).
  destruct Hq as (Hn & Hq'). rewrite Hn. cbn [List.map].
  rewrite (clean_path_strip_sp q); [|split; assumption]. f_equal. exact IH.
Qed.

Lemma join_not_bracket ps : forall p,
  Forall clean_path (p :: ps) ->
  Forall (fun c => Re.not_bracket c = true) (join (lit "; ") (p :: ps)).
Proof.
  induction ps as [|q ps IH]; intros p H; inversion H as [|? ? Hp Hps]; subst.
  - apply clean_path_no_bracket, Hp.
  - change (join (lit "; ") (p :: q :: ps)) with (p ++ SEMI :: SP :: join (lit "; ") (q :: ps)).
    apply Forall_app. split; [apply clean_path_no_bracket, Hp|].
    constructor; [reflexivity|]. constructor; [reflexivity|]. apply IH, Hps.
Qed.

Lemma join_tag_body p ps :
  Forall clean_path (p :: ps) -> tag_body (join (lit "; ") (p :: ps)).
Proof.
  intros H. pose proof (join_not_bracket ps p H) as Hb.
  inversion H as [|? ? (Hn & Hs & _) _]; subst.
  destruct p as [|c p]; [discriminate Hn|].
  split; [|split; [|exact Hb]]; destruct ps; assumption.
Qed.

Lemma relative_paths_id (isabs : str -> bool) (relpath : str -> str) I : forall acc,
  Forall (fun p => isabs p = false) I ->
  List.fold_left
    (fun relative_paths path =>
       relative_paths ++ [if isabs path then relpath path else path]) I acc
  = acc ++ I.
Proof.
  induction I as [|p I IH]; intros acc H; cbn [List.fold_left].
  - rewrite app_nil_r. reflexivity.
  - inversion H as [|? ? Hp HI]; subst. rewrite Hp, (IH _ HI), <- app_assoc. reflexivity.
Qed.

Lemma format_cell_relative isabs relpath T p ps :
  Forall (fun p => isabs p = false) (p :: ps) ->
  format_cell_with_images isabs relpath T (p :: ps) =
  let image_tag := marker ps ++ join (lit "; ") (p :: ps) in
  if nonempty (strip T) then strip T ++ LF :: image_tag else image_tag.
Proof.
  intros H. unfold format_cell_with_images.
  rewrite (relative_paths_id isabs relpath (p :: ps) [] H). cbn [app].
  assert (E : nonempty T && nonempty (strip T) = nonempty (strip T)).
  { destruct T; [reflexivity|]. reflexivity. }
  rewrite E. destruct ps as [|q ps]; reflexivity.
Qed.

Lemma marker_head ps b : Re.tag_head (marker ps ++ b) = Some (SP :: b).
Proof. destruct ps; reflexivity. Qed.

Lemma findall_tag ps b :
  tag_body b -> Re.findall Re.tag_with_paths (marker ps ++ b) = [b].
Proof.
  intros H. rewrite findall_paths_unfold.
  rewrite (tag_with_paths_body _ b H (marker_head ps b)). reflexivity.
Qed.

Lemma sub_tag ps b :
  tag_body b -> Re.sub Re.tag_any [] (marker ps ++ b) = [].
Proof.
  intros H. rewrite sub_tags_unfold.
  rewrite (tag_any_body _ b H (marker_head ps b)). reflexivity.
Qed.

Lemma ends_with_space_cons c d u :
  ends_with_space (c :: d :: u) = ends_with_space (d :: u).
Proof.
  unfold ends_with_space. cbn [rev].
  destruct (rev u ++ [d]) eqn:E; [|reflexivity].
  apply app_eq_nil in E. destruct E as [_ E]. discriminate E.
Qed.

Lemma blank_line_after_text u :
  has_blank_line u = false -> ends_with_space u = false ->
  has_blank_line (u ++ [LF]) = false.
Proof.
  unfold has_blank_line. induction u as [|c u IH]; intros H1 H2; [reflexivity|].
  cbn [contains app] in *. apply orb_false_iff in H1. destruct H1 as [H1 H1'].
  destruct u as [|d u].
  - unfold ends_with_space in H2. simpl in H2. unfold starts_with. cbn [app strip_prefix].
    destruct (N.eqb_spec LF c) as [<-|_]; [discriminate H2 | reflexivity].
  - rewrite ends_with_space_cons in H2. rewrite (IH H1' H2), orb_false_r.
    unfold starts_with in *. cbn [app strip_prefix] in *.
    destruct (LF =? c); [|reflexivity]. destruct (LF =? d); [discriminate H1 | reflexivity].
Qed.

Lemma strip_after_text u :
  nonempty u = true -> starts_with_space u = false -> ends_with_space u = false ->
  strip (u ++ [LF]) = u.
Proof.
  intros Hn H1 H2. unfold strip. rewrite lstrip_id.
  - unfold rstrip. rewrite rev_app_distr. cbn [rev app drop_while].
    change (is_space LF) with true. cbv iota. apply (rstrip_id u H2).
  - destruct u; [discriminate Hn | exact H1].
Qed.

(** C1 as written fails: a blank line inside the text is collapsed by the
    decoder, so the trimmed text does not come back. *)
Lemma decode_encode_blank_line :
  let T := lit "a" ++ [LF; LF] ++ lit "b" in
  let I := [lit "p"] in
  I <> [] /\ Forall (Forall (fun c => c <> SEMI)) I
  /\ decode (Some (format_cell_with_images Posix.isabs (fun p => p) T I)) <> (strip T, I).
Proof.
  split; [discriminate|]. split.
  - repeat constructor. discriminate.
  - vm_compute. discriminate.
Qed.

(** C1 (amended): for every text [T] whose trimmed form has no image-tag
    syntax and no two newlines in a row, and every non-empty list [I] of
    relative paths that are non-empty, carry no whitespace at either end
    and contain none of ';', '[' and ']', decoding the encoded cell gives
    back the trimmed text and the same list. *)
Theorem decode_encode isabs relpath (T : str) (I : list str) :
  I <> [] ->
  Forall clean_path I ->
  Forall (fun p => isabs p = false) I ->
  has_tag_syntax (strip T) = false ->
  has_blank_line (strip T) = false ->
  decode (Some (format_cell_with_images isabs relpath T I)) = (strip T, I).
Proof.
  intros Hne Hclean Hrel Htag Hblank.
  destruct I as [|p ps]; [contradiction|]. clear Hne.
  rewrite (format_cell_relative isabs relpath T p ps Hrel). cbv zeta.
  pose proof (join_tag_body p ps Hclean) as Hbody.
  pose proof (paths_of_group_join p ps Hclean) as Hpaths.
  set (b := join (lit "; ") (p :: ps)) in *.
  unfold decode. destruct (nonempty (strip T)) eqn:Hn.
  - assert (Hv : nonempty (strip T ++ LF :: marker ps ++ b) = true).
    { destruct (strip T); [discriminate Hn | reflexivity]. }
    rewrite (extract_image_paths_eq _ Hv).
    rewrite (findall_after_text _ _ Htag), (findall_tag ps b Hbody).
    cbn [List.map List.concat]. rewrite app_nil_r, Hpaths. f_equal.
    unfold clean_text_content. cbn [truthy str_of]. rewrite Hv. cbn [negb].
    rewrite (sub_after_text _ _ Htag), (sub_tag ps b Hbody).
    rewrite sub_newlines_id.
    + apply strip_after_text; [exact Hn | apply strip_start | apply strip_end].
    + apply blank_line_after_text; [exact Hblank | apply strip_end].
  - assert (Hv : nonempty (marker ps ++ b) = true) by (destruct ps; reflexivity).
    rewrite (extract_image_paths_eq _ Hv), (findall_tag ps b Hbody).
    cbn [List.map List.concat]. rewrite app_nil_r, Hpaths.
    unfold clean_text_content. cbn [truthy str_of]. rewrite Hv. cbn [negb].
    rewrite (sub_tag ps b Hbody). destruct (strip T); [reflexivity | discriminate Hn].
Qed.

Lemma decode_encode_witness :
  decode (Some (format_cell_with_images Posix.isabs (fun p => p) (lit "  hi there ")
                  [lit "assets/a b.png"; lit "c.png"]))
  = (lit "hi there", [lit "assets/a b.png"; lit "c.png"]).
Proof.
  apply (decode_encode Posix.isabs (fun p => p) (lit "  hi there ")
           [lit "assets/a b.png"; lit "c.png"]).
  - discriminate.
  - repeat first [ split | constructor | discriminate | reflexivity ].
  - repeat constructor.
  - reflexivity.
  - reflexivity.
Defined.

(** Each side condition of [decode_encode] is needed: a path with a blank in
    front, an empty path, a path with a bracket, an absolute path, and a
    text that itself holds a tag. *)
Example decode_encode_side_conditions :
  let encode := format_cell_with_images Posix.isabs (fun _ => lit "rel") in
  snd (decode (Some (encode (lit "t") [lit " p"]))) = [lit "p"]
  /\ snd (decode (Some (encode (lit "t") [lit "p"; []]))) = [lit "p"]
  /\ snd (decode (Some (encode (lit "t") [lit "a[1].png"]))) = [lit "a"]
  /\ snd (decode (Some (encode (lit "t") [lit "/abs/p.png"]))) = [lit "rel"]
  /\ decode (Some (encode (lit "see [IMG] old.png") [lit "p"])) = (lit "see", [lit "old.png"; lit "p"]).
Proof. vm_compute. repeat split; reflexivity. Qed.

(** ** Incremental merge *)

Lemma unique_loop_keep_first l : forall acc,
  List.fold_left unique_append l acc = acc ++ keep_first acc l.
Proof.
  induction l as [|x l IH]; intros acc; cbn [List.fold_left keep_first].
  - rewrite app_nil_r. reflexivity.
  - rewrite IH. unfold unique_append. destruct (bool_decide (x ∈ acc)); [reflexivity|].
    rewrite <- app_assoc. reflexivity.
Qed.

Lemma keep_first_elems l : forall seen x,
  x ∈ keep_first seen l <-> x ∈ l /\ x ∉ seen.
Proof.
  induction l as [|y l IH]; intros seen x; cbn [keep_first].
  - rewrite elem_of_nil. tauto.
  - destruct (bool_decide_reflect (y ∈ seen)) as [Hy|Hy].
    + rewrite IH, elem_of_cons. split; [tauto|]. intros [[->|H] Hs]; [contradiction | tauto].
    + rewrite !elem_of_cons, IH, elem_of_app, list_elem_of_singleton.
      destruct (decide (x = y)) as [->|Hxy]; tauto.
Qed.

Lemma keep_first_NoDup l : forall seen, NoDup (keep_first seen l).
Proof.
  induction l as [|y l IH]; intros seen; cbn [keep_first]; [constructor|].
  destruct (bool_decide (y ∈ seen)); [apply IH|].
  constructor; [|apply IH]. rewrite keep_first_elems, elem_of_app, list_elem_of_singleton. tauto.
Qed.

Lemma keep_first_sublist l : forall seen, keep_first seen l `sublist_of` l.
Proof.
  induction l as [|y l IH]; intros seen; cbn [keep_first]; [constructor|].
  destruct (bool_decide (y ∈ seen)); [apply sublist_cons, IH | apply sublist_skip, IH].
Qed.

Lemma decode_falsy (V : cell) :
  truthy V = false -> decode V = decode (Some []).
Proof. destruct V as [[|c s]|]; [reflexivity | discriminate | reflexivity]. Qed.

(** On the sheet: with no new image the sheet is returned as it is; with
    some, the addressed cell receives the merged value. *)
Lemma add_images_to_cell_incremental_cell isabs relpath sh row col (V : cell) N :
  add_images_to_cell_incremental isabs relpath sh row col [] = Some sh
  /\ (get_cell_data sh row col = Some V ->
      exists sh',
        add_images_to_cell_incremental isabs relpath sh row col N = Some sh'
        /\ get_cell_data sh' row col = Some (merged_cell isabs relpath V N)).
Proof.
  split; [reflexivity|]. intros H.
  destruct N as [|n N'].
  - exists sh. split; [reflexivity | exact H].
  - unfold add_images_to_cell_incremental. rewrite H. cbn [mbind option_bind].
    eexists. split; [reflexivity|].
    unfold get_cell_data, set_cell_data in *. cbn [sheet_data].
    destruct (sheet_data sh !! row) as [r|] eqn:Er; [|discriminate H].
    cbn [mbind option_bind] in *.
    rewrite list_lookup_alter_eq, Er. cbn [fmap option_fmap option_map mbind option_bind].
    apply list_lookup_insert_eq. eapply lookup_lt_Some, H.
Qed.

(** C2: merging no image leaves the sheet, and so the cell, as it is;
    merging a non-empty list [N] into a cell holding [V] writes
    [encode(text, D)] into it, where [(text, E)] is the decoding of [V] and
    [D] is [E ++ N] without repetitions, first occurrences kept in order.
    In particular
    [merge(encode("x", ["a","b"]), ["b","c"]) = encode("x", ["a","b","c"])]. *)
Theorem add_images_to_cell_incremental_spec isabs relpath sh row col
    (n : str) (N' : list str) :
  add_images_to_cell_incremental isabs relpath sh row col [] = Some sh
  /\ match get_cell_data sh row col with
     | Some V =>
       let D := keep_first [] (snd (decode V) ++ n :: N') in
       (exists sh',
          add_images_to_cell_incremental isabs relpath sh row col (n :: N') = Some sh'
          /\ get_cell_data sh' row col
             = Some (Some (format_cell_with_images isabs relpath (fst (decode V)) D)))
       /\ NoDup D
       /\ D `sublist_of` snd (decode V) ++ n :: N'
       /\ (forall x, x ∈ D <-> x ∈ snd (decode V) ++ n :: N')
     | None => add_images_to_cell_incremental isabs relpath sh row col (n :: N') = None
     end
  /\ merged_cell Posix.isabs relpath
       (Some (format_cell_with_images Posix.isabs relpath (lit "x") [lit "a"; lit "b"]))
       [lit "b"; lit "c"]
     = Some (format_cell_with_images Posix.isabs relpath (lit "x") [lit "a"; lit "b"; lit "c"]).
Proof.
  split; [reflexivity|]. split; [|vm_compute; reflexivity].
  destruct (get_cell_data sh row col) as [V|] eqn:E.
  - cbv zeta. split.
    + destruct (add_images_to_cell_incremental_cell isabs relpath sh row col V (n :: N'))
        as [_ H].
      destruct (H E) as (sh' & H1 & H2). exists sh'. split; [exact H1|].
      rewrite H2. f_equal. unfold merged_cell. rewrite unique_loop_keep_first. cbn [app].
      destruct (truthy V) eqn:Et; [reflexivity|].
      rewrite (decode_falsy V Et). reflexivity.
    + split; [apply keep_first_NoDup|]. split; [apply keep_first_sublist|].
      intros x. rewrite keep_first_elems, elem_of_nil. tauto.
  - unfold add_images_to_cell_incremental. rewrite E. reflexivity.
Qed.

(** ** Column headers *)

Lemma header_loop_acc steps : forall num header,
  header_loop steps num header = header_loop steps num [] ++ header.
Proof.
  induction steps as [|k IH]; intros num header; cbn [header_loop]; [reflexivity|].
  destruct (num / 26 =? 0); [reflexivity|].
  rewrite (IH _ [_]), (IH _ (_ :: header)), <- app_assoc. reflexivity.
Qed.

Lemma header_loop_steps k1 : forall k2 num,
  (N.to_nat num < k1)%nat -> (N.to_nat num < k2)%nat ->
  header_loop k1 num [] = header_loop k2 num [].
Proof.
  induction k1 as [|k1 IH]; intros k2 num H1 H2; [lia|].
  destruct k2 as [|k2]; [lia|]. cbn [header_loop].
  destruct (N.eqb_spec (num / 26) 0) as [E|E]; [reflexivity|].
  rewrite (header_loop_acc k1), (header_loop_acc k2). f_equal.
  assert (num / 26 <= num) by (apply N.Div0.div_le_upper_bound; lia).
  generalize dependent (num / 26). intros q Hq Hle. apply IH; lia.
Qed.

Lemma column_header_unfold i :
  column_header i =
  if i / 26 =? 0 then [65 + i mod 26]
  else column_header (i / 26 - 1) ++ [65 + i mod 26].
Proof.
  unfold column_header at 1. cbn [header_loop].
  destruct (N.eqb_spec (i / 26) 0) as [E|E]; [reflexivity|].
  rewrite header_loop_acc. f_equal.
  assert (i / 26 <= i) by (apply N.Div0.div_le_upper_bound; lia).
  generalize dependent (i / 26). intros q Hq Hle. apply header_loop_steps; lia.
Qed.

Lemma col_number_snoc s c : col_number (s ++ [c]) = col_number s * 26 + (c - 64).
Proof. unfold col_number. rewrite fold_left_app. reflexivity. Qed.

Lemma column_header_number i :
  col_number (column_header i) = i + 1 /\ Forall is_upper (column_header i).
Proof.
  induction i as [i IH] using (well_founded_induction N.lt_wf_0).
  rewrite column_header_unfold.
  pose proof (N.mod_lt i 26 ltac:(lia)) as Hm.
  pose proof (N.div_mod i 26 ltac:(lia)) as Hd.
  generalize dependent (i mod 26). generalize dependent (i / 26). intros q r Hr Hi.
  destruct (N.eqb_spec q 0) as [E|E].
  - split; [|repeat constructor; unfold is_upper; lia].
    unfold col_number. cbn [List.fold_left]. lia.
  - destruct (IH (q - 1)) as [IH1 IH2]; [lia|].
    split; [|apply Forall_app; split; [exact IH2 | repeat constructor; unfold is_upper; lia]].
    rewrite col_number_snoc, IH1. lia.
Qed.

Lemma generate_column_headers_map count :
  generate_column_headers count =
  List.map (fun i => column_header (N.of_nat i)) (seq 0 (Z.to_nat count)).
Proof.
  unfold generate_column_headers.
  rewrite (fold_left_extend (fun i => [column_header (N.of_nat i)])). cbn [app].
  induction (seq 0 (Z.to_nat count)) as [|i l IH]; cbn [List.map List.concat app]; congruence.
Qed.

(** C8: [generate_column_headers(n)] returns [n] names, the [i]-th being
    the name of column [i]; that name is made of capital letters and stands
    for the number [i + 1], so the list is the first [n] spreadsheet column
    names in order.  Indices 0 to 25 give the single letters "A" to "Z",
    index 26 gives "AA" and index 27 gives "AB". *)
Theorem generate_column_headers_spec (count : Z) :
  length (generate_column_headers count) = Z.to_nat count
  /\ (forall i, (i < Z.to_nat count)%nat ->
        nth i (generate_column_headers count) [] = column_header (N.of_nat i))
  /\ (forall i, col_number (column_header i) = i + 1 /\ Forall is_upper (column_header i))
  /\ (forall i, i < 26 -> column_header i = [65 + i])
  /\ column_header 0 = lit "A" /\ column_header 25 = lit "Z"
  /\ column_header 26 = lit "AA" /\ column_header 27 = lit "AB".
Proof.
  rewrite generate_column_headers_map.
  split; [rewrite length_map, length_seq; reflexivity|].
  split.
  { intros i Hi.
    rewrite (nth_indep _ [] (column_header (N.of_nat 0))) by (rewrite length_map, length_seq; exact Hi).
    rewrite (map_nth (fun i => column_header (N.of_nat i))), seq_nth by exact Hi. reflexivity. }
  split; [apply column_header_number|].
  split; [|repeat split; reflexivity].
  intros i Hi. rewrite column_header_unfold.
  rewrite (N.div_small i 26 Hi), (N.mod_small i 26 Hi). reflexivity.
Qed.

Lemma generate_column_headers_witness :
  nth 27 (generate_column_headers 28) [] = lit "AB" /\ column_header 3 = [68].
Proof.
  destruct (generate_column_headers_spec 28) as (_ & Hnth & _ & Hsingle & _ & _ & _ & HAB).
  split.
  - rewrite (Hnth 27%nat) by (vm_compute; lia). exact HAB.
  - apply (Hsingle 3). reflexivity.
Defined.

(** ** Wiki rendering *)

Example ex_lit_utf8 : lit "表A" = [34920; 65].
Proof. reflexivity. Qed.

Example ex_wiki_row :
  let sh := {| sheet_data := [[Some (lit "x" ++ [LF] ++ lit "[IMGS] assets/a.png; assets/b.png"); None];
                              [None; Some []]];
               sheet_headers := [lit "A"; lit "B"] |} in
  get_wiki_content (fun p => bool_decide (p = lit "assets/b.png")) Posix.basename sh
  = lit "h2. 表格数据" ++ [LF; LF] ++ lit "||A||B||" ++ [LF]
    ++ lit "|x|!b.png!||" ++ [LF]
    ++ [LF] ++ lit "h3. 图片文件" ++ [LF]
    ++ lit "请将以下图片文件上传到Confluence页面的附件中：" ++ [LF; LF]
    ++ lit "* b.png" ++ [LF].
Proof. vm_compute. reflexivity. Qed.

(** ** The order on strings *)

Lemma ltb_asym a : forall b, ltb a b = true -> ltb b a = false.
Proof.
  induction a as [|x a IH]; intros [|y b] H; try reflexivity; try discriminate H.
  cbn [ltb] in *.
  destruct (N.ltb_spec x y), (N.ltb_spec y x), (N.eqb_spec x y), (N.eqb_spec y x);
    cbn [orb andb] in *; try lia; try discriminate H. apply IH, H.
Qed.

Lemma ltb_antisym a : forall b, ltb a b = false -> ltb b a = false -> a = b.
Proof.
  induction a as [|x a IH]; intros [|y b] H1 H2; try reflexivity; try discriminate.
  cbn [ltb] in *.
  destruct (N.ltb_spec x y), (N.ltb_spec y x), (N.eqb_spec x y), (N.eqb_spec y x);
    cbn [orb andb] in *; try lia; try discriminate. subst. f_equal. apply IH; assumption.
Qed.

Lemma ltb_le_trans a : forall b c, ltb b a = false -> ltb c b = false -> ltb c a = false.
Proof.
  induction a as [|x a IH]; intros [|y b] [|z c] H1 H2; try reflexivity; try discriminate.
  cbn [ltb] in *.
  destruct (N.ltb_spec y x), (N.ltb_spec z y), (N.ltb_spec z x),
           (N.eqb_spec y x), (N.eqb_spec z y), (N.eqb_spec z x);
    cbn [orb andb] in *; try lia; try discriminate. eapply IH; eassumption.
Qed.

#[global] Instance str_le_total : Total str_le.
Proof.
  intros a b. unfold str_le. destruct (ltb b a) eqn:E; [right | left; reflexivity].
  apply ltb_asym, E.
Qed.

#[global] Instance str_le_trans : Transitive str_le.
Proof. intros a b c H1 H2. unfold str_le in *. eapply ltb_le_trans; eassumption. Qed.

Lemma str_le_neq_lt a b : str_le a b -> a <> b -> str_lt a b.
Proof.
  unfold str_le, str_lt. intros H Hne. destruct (ltb a b) eqn:E; [reflexivity|].
  exfalso. apply Hne, ltb_antisym; assumption.
Qed.

Lemma StronglySorted_strict (l : list str) :
  StronglySorted str_le l -> NoDup l -> StronglySorted str_lt l.
Proof.
  induction 1 as [|x l Hl IH Hx]; intros Hnd; [constructor|].
  apply NoDup_cons in Hnd. destruct Hnd as [Hx' Hnd].
  constructor; [apply IH, Hnd|].
  rewrite List.Forall_forall in *. intros y Hy. apply str_le_neq_lt; [apply Hx, Hy|].
  intros ->. apply Hx', list_elem_of_In, Hy.
Qed.

Lemma sorted_spec (s : gset (list N)) :
  StronglySorted str_lt (sorted s) /\ forall f, f ∈ sorted s <-> f ∈ s.
Proof.
  unfold sorted. split.
  - apply StronglySorted_strict; [apply StronglySorted_merge_sort; apply _|].
    rewrite merge_sort_Permutation. apply NoDup_elements.
  - intros f. rewrite merge_sort_Permutation. apply elem_of_elements.
Qed.

(** ** The shape of the rendered text *)

Lemma fold_left_select {A B} (keep : A -> bool) (f : A -> B) (l : list A) : forall acc,
  List.fold_left (fun acc x => if keep x then acc ++ [f x] else acc) l acc
  = acc ++ List.map f (List.filter keep l).
Proof.
  induction l as [|x l IH]; intros acc; cbn [List.fold_left List.filter].
  - rewrite app_nil_r. reflexivity.
  - rewrite IH. destruct (keep x); [|reflexivity].
    cbn [List.map]. rewrite <- app_assoc. reflexivity.
Qed.

Lemma fold_left_collect {A} (step : gset (list N) -> A -> gset (list N))
    (Q : A -> list N -> Prop) :
  (forall s a f, f ∈ step s a <-> f ∈ s \/ Q a f) ->
  forall l s f, f ∈ List.fold_left step l s <-> f ∈ s \/ exists a, a ∈ l /\ Q a f.
Proof.
  intros Hstep. induction l as [|a l IH]; intros s f; cbn [List.fold_left].
  - split; [tauto|]. intros [H|(a & Ha & _)]; [exact H|]. apply elem_of_nil in Ha. contradiction.
  - rewrite IH, Hstep. split.
    + intros [[H|H]|(b & Hb & HQ)]; [tauto | right; exists a | right; exists b];
        (split; [|assumption]); [left | right; assumption].
    + intros [H|(b & Hb & HQ)]; [tauto|].
      apply elem_of_cons in Hb. destruct Hb as [->|Hb]; [tauto|].
      right. exists b. tauto.
Qed.

Section WikiShape.

Variable file_exists : str -> bool.
Variable basename : str -> str.

Lemma table_row_cells render row_data :
  table_row render row_data =
  lit "|" ++ join (lit "|") (List.map render row_data) ++ lit "|" ++ [LF].
Proof.
  unfold table_row. rewrite (fold_left_extend (fun v => [render v])). cbn [app].
  do 3 f_equal. induction row_data as [|v l IH]; cbn [List.map List.concat app]; congruence.
Qed.

Lemma table_lines_rows render sh :
  table_lines render sh =
  [lit "h2. 表格数据" ++ [LF; LF];
   lit "||" ++ join (lit "||") (sheet_headers sh) ++ lit "||" ++ [LF]]
  ++ List.map (table_row render) (List.filter (existsb truthy) (sheet_data sh)).
Proof. unfold table_lines. apply fold_left_select. Qed.

Lemma collect_image_files_spec data f :
  f ∈ collect_image_files file_exists basename data <-> referenced file_exists basename data f.
Proof.
  unfold collect_image_files, referenced.
  rewrite (fold_left_collect _
    (fun row_data f => exists cell_value image_path,
       cell_value ∈ row_data /\ image_path ∈ extract_image_paths cell_value
       /\ file_exists image_path = true /\ basename image_path = f)).
  - rewrite elem_of_empty. split.
    + intros [[]|(r & Hr & v & p & H)]. exists r, v, p. tauto.
    + intros (r & v & p & Hr & H). right. exists r. split; [exact Hr|]. exists v, p. exact H.
  - intros s row_data g.
    rewrite (fold_left_collect _
      (fun cell_value f => exists image_path,
         image_path ∈ extract_image_paths cell_value
         /\ file_exists image_path = true /\ basename image_path = f)).
    + split.
      * intros [H|(v & Hv & p & H)]; [tauto|]. right. exists v, p. tauto.
      * intros [H|(v & p & Hv & H)]; [tauto|]. right. exists v. split; [exact Hv|]. exists p. exact H.
    + clear. intros s v g. destruct (truthy v) eqn:E.
      * rewrite (fold_left_collect _
          (fun image_path f => file_exists image_path = true /\ basename image_path = f)).
        { split.
          - intros [H|(p & Hp & H)]; [tauto|]. right. exists p. tauto.
          - intros [H|(p & Hp & H)]; [tauto|]. right. exists p. tauto. }
        clear. intros s p g. destruct (file_exists p).
        { rewrite elem_of_union, elem_of_singleton. split.
          - intros [H| ->]; [tauto|]. right. split; reflexivity.
          - intros [H|[_ <-]]; tauto. }
        split; [tauto|]. intros [H|[H _]]; [exact H | discriminate H].
      * split; [tauto|]. intros [H|(p & Hp & _)]; [exact H|].
        unfold extract_image_paths in Hp. rewrite E in Hp. apply elem_of_nil in Hp. contradiction.
Qed.

Lemma get_wiki_content_eq (sh : Sheet) :
  get_wiki_content file_exists basename sh =
    (lit "h2. 表格数据" ++ [LF; LF])
    ++ (lit "||" ++ join (lit "||") (sheet_headers sh) ++ lit "||" ++ [LF])
    ++ List.concat (List.map (table_row (cell_markup file_exists basename))
                      (List.filter (existsb truthy) (sheet_data sh)))
    ++ ([LF] ++ lit "h3. 图片文件" ++ [LF])
    ++ (lit "请将以下图片文件上传到Confluence页面的附件中：" ++ [LF; LF])
    ++ List.concat (List.map (fun f => lit "* " ++ f ++ [LF])
                      (sorted (collect_image_files file_exists basename (sheet_data sh)))).
Proof.
  unfold get_wiki_content.
  rewrite (fold_left_select (fun _ => true) (fun f => lit "* " ++ f ++ [LF])).
  rewrite table_lines_rows.
  assert (E : forall l : list str, List.filter (fun _ => true) l = l).
  { induction l as [|x l IH]; cbn [List.filter]; congruence. }
  rewrite E. rewrite !concat_app. cbn [List.concat].
  rewrite !app_nil_r, <- !app_assoc. reflexivity.
Qed.

Lemma export_wiki_sync_eq (sh : Sheet) :
  _export_wiki_sync sh =
    (lit "h2. 表格数据" ++ [LF; LF])
    ++ (lit "||" ++ join (lit "||") (sheet_headers sh) ++ lit "||" ++ [LF])
    ++ List.concat (List.map (table_row cell_text)
                      (List.filter (existsb truthy) (sheet_data sh))).
Proof.
  unfold _export_wiki_sync. rewrite table_lines_rows, concat_app. cbn [List.concat].
  rewrite !app_nil_r, <- !app_assoc. reflexivity.
Qed.


(** The packaged text is never longer, cell by cell and row by row, and
    lacks the closing section. *)
Lemma join_length_le sep (f g : cell -> str) (l : list cell) :
  (forall v, (length (f v) <= length (g v))%nat) ->
  (length (join sep (List.map f l)) <= length (join sep (List.map g l)))%nat.
Proof.
  intros H. induction l as [|v l IH]; [reflexivity|].
  destruct l as [|v' l]; [apply H|].
  change (length (f v ++ sep ++ join sep (List.map f (v' :: l)))
          <= length (g v ++ sep ++ join sep (List.map g (v' :: l))))%nat.
  rewrite !length_app. specialize (H v). lia.
Qed.

Lemma cell_text_length_le v :
  (length (cell_text v) <= length (cell_markup file_exists basename v))%nat.
Proof.
  unfold cell_text, cell_markup. destruct (truthy v); [|reflexivity].
  destruct (extract_image_paths v); [reflexivity|].
  destruct (List.fold_left _ _ _) as [|r rs]; [reflexivity|].
  destruct (nonempty (clean_text_content v)).
  - destruct (replace LF [BACKSLASH; BACKSLASH] (clean_text_content v)) as [|x c];
      cbn [nonempty].
    + cbn [length]. lia.
    + rewrite length_app. lia.
  - cbn [nonempty length]. lia.
Qed.

Lemma rows_length_le (rows : list (list cell)) :
  (length (List.concat (List.map (table_row cell_text) rows))
   <= length (List.concat (List.map (table_row (cell_markup file_exists basename)) rows)))%nat.
Proof.
  induction rows as [|row rows IH]; [reflexivity|].
  cbn [List.map List.concat]. rewrite !length_app, !table_row_cells, !length_app.
  pose proof (join_length_le (lit "|") cell_text (cell_markup file_exists basename) row
                cell_text_length_le).
  lia.
Qed.

Lemma export_wiki_sync_shorter (sh : Sheet) :
  (length (_export_wiki_sync sh) < length (get_wiki_content file_exists basename sh))%nat.
Proof.
  rewrite export_wiki_sync_eq, get_wiki_content_eq.
  pose proof (rows_length_le (List.filter (existsb truthy) (sheet_data sh))) as H.
  rewrite !length_app. cbn [length]. lia.
Qed.

End WikiShape.

(** C6: the packaged wiki file is not the rendered wiki markup.  For a
    one-cell document holding a text and an existing image,
    [_export_wiki_sync] writes the table only, without the image marker
    and without the attachment list that [get_wiki_content] produces; and
    for every document the two texts differ. *)
Theorem export_wiki_sync_misses_images :
  let sh := {| sheet_data := [[Some (lit "x" ++ [LF] ++ lit "[IMG] assets/pic.png")]];
               sheet_headers := [lit "A"] |} in
  let file_exists := fun _ : str => true in
  _export_wiki_sync sh
    = lit "h2. 表格数据" ++ [LF; LF] ++ lit "||A||" ++ [LF] ++ lit "|x|" ++ [LF]
  /\ get_wiki_content file_exists Posix.basename sh
    = lit "h2. 表格数据" ++ [LF; LF] ++ lit "||A||" ++ [LF] ++ lit "|x|!pic.png!|" ++ [LF]
      ++ [LF] ++ lit "h3. 图片文件" ++ [LF]
      ++ lit "请将以下图片文件上传到Confluence页面的附件中：" ++ [LF; LF]
      ++ lit "* pic.png" ++ [LF]
  /\ forall exists_ basename doc,
       _export_wiki_sync doc <> get_wiki_content exists_ basename doc.
Proof.
  cbv zeta. split; [vm_compute; reflexivity|]. split; [vm_compute; reflexivity|].
  intros exists_ basename doc H.
  pose proof (export_wiki_sync_shorter exists_ basename doc) as Hlt.
  rewrite H in Hlt. lia.
Qed.

(** ** The loaded grid *)

Lemma pad_row_eq steps min_cols row :
  (min_cols - length row <= steps)%nat ->
  pad_row steps min_cols row = row ++ replicate (min_cols - length row) [].
Proof.
  revert row. induction steps as [|k IH]; intros row H; cbn [pad_row].
  - replace (min_cols - length row)%nat with 0%nat by lia. rewrite app_nil_r. reflexivity.
  - destruct (Nat.ltb_spec (length row) min_cols) as [Hlt|Hge].
    + rewrite IH by (rewrite length_app; simpl; lia).
      rewrite length_app. cbn [length].
      replace (min_cols - length row)%nat with (S (min_cols - (length row + 1))) by lia.
      cbn [replicate]. rewrite <- app_assoc. reflexivity.
    + replace (min_cols - length row)%nat with 0%nat by lia. rewrite app_nil_r. reflexivity.
Qed.

Lemma pad_rows_eq steps min_rows min_cols data :
  (min_rows - length data <= steps)%nat ->
  pad_rows steps min_rows min_cols data =
  data ++ replicate (min_rows - length data) (replicate min_cols []).
Proof.
  revert data. induction steps as [|k IH]; intros data H; cbn [pad_rows].
  - replace (min_rows - length data)%nat with 0%nat by lia. rewrite app_nil_r. reflexivity.
  - destruct (Nat.ltb_spec (length data) min_rows) as [Hlt|Hge].
    + rewrite IH by (rewrite length_app; simpl; lia).
      rewrite length_app. cbn [length].
      replace (min_rows - length data)%nat with (S (min_rows - (length data + 1))) by lia.
      cbn [replicate]. rewrite <- app_assoc. reflexivity.
    + replace (min_rows - length data)%nat with 0%nat by lia. rewrite app_nil_r. reflexivity.
Qed.

Lemma load_grid_eq headers data :
  load_grid headers data =
  let min_rows := Nat.max 100 (length data) in
  let min_cols := Nat.max 20 (length headers) in
  (generate_column_headers (Z.of_nat min_cols),
   List.map (fun row => row ++ replicate (min_cols - length row) []) data
   ++ replicate (min_rows - length data) (replicate min_cols [])).
Proof.
  unfold load_grid. cbv zeta. f_equal.
  rewrite pad_rows_eq by (rewrite length_map; lia). rewrite length_map. f_equal.
  apply map_ext. intros row. apply pad_row_eq. lia.
Qed.



Example ex_paths :
  Posix.join (lit "assets") (lit "a.png") = lit "assets/a.png"
  /\ Posix.dirname (lit "/home/u/book.xlsx") = lit "/home/u"
  /\ Posix.basename (lit "/home/u/book.xlsx") = lit "book.xlsx"
  /\ Posix.splitext (lit "book.v2.xlsx") = (lit "book.v2", lit ".xlsx")
  /\ Posix.splitext (lit ".hidden") = (lit ".hidden", [])
  /\ Posix.splitext (lit "a.d/file") = (lit "a.d/file", []).
Proof. vm_compute. repeat split; reflexivity. Qed.

(** ** Copies into the store *)

(** C4: importing two distinct files that share a base name within one
    second of the clock, in one call or in two calls one after the other,
    stores both under the same name; the second copy replaces the first,
    the store holds one file, and the bytes of the first picture are not
    in the store. *)
Theorem copy_images_same_second_overwrites :
  let clock := fun _ : nat => lit "20250101_120000" in
  let copy := copy_images_to_assets clock (fun p => p) two_pictures in
  let one_call := copy [lit "/a/pic.png"; lit "/b/pic.png"] (lit "assets") in
  let two_calls :=
    copy [lit "/a/pic.png"] (lit "assets") ≫= fun first =>
    copy [lit "/b/pic.png"] (lit "assets") ≫= fun second => mret (first ++ second) in
  let stored := lit "assets/pic_20250101_120000.png" in
  fst (one_call empty_world) = inr [stored; stored]
  /\ fst (two_calls empty_world) = inr [stored; stored]
  /\ store (snd (two_calls empty_world)) = store (snd (one_call empty_world))
  /\ store (snd (one_call empty_world)) = {[ lit "pic_20250101_120000.png" := lit "second" ]}
  /\ size (store (snd (one_call empty_world))) = 1%nat
  /\ forall name, store (snd (one_call empty_world)) !! name <> Some (lit "first").
Proof.
  cbv zeta.
  assert (E : store (snd (copy_images_to_assets (fun _ : nat => lit "20250101_120000") (fun p => p)
                            two_pictures [lit "/a/pic.png"; lit "/b/pic.png"] (lit "assets")
                            empty_world))
              = {[ lit "pic_20250101_120000.png" := lit "second" ]}).
  { vm_compute. reflexivity. }
  split; [vm_compute; reflexivity|]. split; [vm_compute; reflexivity|].
  split; [vm_compute; reflexivity|]. split; [exact E|]. rewrite E. split.
  - apply map_size_singleton.
  - intros name H. apply lookup_singleton_Some in H. destruct H as [_ H]. discriminate H.
Qed.

(** The directory copy renames an incoming file whose name is taken, but
    does not look at the new name: a store file of that name is replaced. *)
Example sync_rename_target_replaced :
  let env := {| stat := fun p =>
                  if bool_decide (p = lit "book_assets/pic.png")
                  then Some (File (Some (lit "incoming"))) else None;
                listdir := fun _ => [lit "pic.png"];
                read_excel := fun _ => None; write_error := fun _ => None;
                pandas_available := true; openpyxl_available := true;
                xlsxwriter_available := true |} in
  let w := {| store := <[lit "pic.png" := lit "kept"]>
                       {[ lit "pic_20250101_120000.png" := lit "lost" ]};
              outside := ∅; sheet := sheet empty_world; current_file := None;
              reports := []; ticks := 0 |} in
  let w' := snd (sync_from (fun _ => lit "20250101_120000") env (lit "book_assets") w) in
  store w' !! lit "pic.png" = Some (lit "kept")
  /\ store w' !! lit "pic_20250101_120000.png" = Some (lit "incoming").
Proof. vm_compute. split; reflexivity. Qed.

(** ** Failures of load and import *)

Lemma quiet_ret {A} (a : A) : quiet (mret a).
Proof. intros w. repeat split. Qed.

Lemma quiet_bind {A B} (m : Run A) (f : A -> Run B) :
  quiet m -> (forall a, quiet (f a)) -> quiet (m ≫= f).
Proof.
  intros Hm Hf w. unfold mbind, run_bind. specialize (Hm w).
  destruct (m w) as [[e|a] w1]; cbn [snd] in *; [exact Hm|].
  specialize (Hf a w1). unfold same_document in *.
  destruct Hm as ((H1 & H2) & H3), Hf as ((H4 & H5) & H6).
  repeat split; congruence.
Qed.

Lemma quiet_copy_to_store env src dst_name : quiet (copy_to_store env src dst_name).
Proof.
  intros w. unfold copy_to_store.
  destruct (stat env src) as [[[bytes|]|]|]; repeat split.
Qed.

Lemma quiet_timestamp_now clock : quiet (timestamp_now clock).
Proof. intros w. repeat split. Qed.

Lemma quiet_store_exists name : quiet (store_exists name).
Proof. intros w. repeat split. Qed.

Lemma quiet_for_each {A} (body : A -> Run unit) l :
  (forall x, quiet (body x)) -> quiet (for_each body l).
Proof.
  intros Hb. induction l as [|x l IH]; cbn [for_each]; [apply quiet_ret|].
  apply quiet_bind; [apply Hb | intros _; exact IH].
Qed.

Lemma quiet_sync_from clock env src_dir : quiet (sync_from clock env src_dir).
Proof.
  apply quiet_for_each. intros file. unfold sync_file.
  destruct (isfile env (Posix.join src_dir file)); [|apply quiet_ret].
  apply quiet_bind; [apply quiet_store_exists|]. intros taken.
  apply quiet_bind; [|intros dst; apply quiet_copy_to_store].
  destruct taken; [|apply quiet_ret].
  destruct (Posix.splitext file) as [name ext].
  apply quiet_bind; [apply quiet_timestamp_now | intros ts; apply quiet_ret].
Qed.

Lemma load_from_excel_file_outcome clock env filename w :
  fst (_load_from_excel_file clock env filename w) = inr tt
  /\ load_outcome env filename w (snd (_load_from_excel_file clock env filename w)).
Proof.
  unfold _load_from_excel_file, load_outcome.
  destruct (negb (pandas_available env) || negb (openpyxl_available env)).
  { split; [reflexivity|]. exists [ErrMissingLibraries]. split; [reflexivity|].
    left. exists ErrMissingLibraries. repeat split. }
  unfold try_except, mbind, run_bind.
  destruct (read_excel env filename) as [df|] eqn:Er.
  2:{ split; [reflexivity|]. eexists [_]. split; [reflexivity|].
      left. eexists. repeat split. }
  cbn [mret run_ret].
  destruct (load_grid (tbl_headers df) (tbl_rows df)) as [column_headers data] eqn:Eg.
  assert (Hl : forall w',
    sheet w' = {| sheet_data := List.map (List.map Some) data; sheet_headers := column_headers |} ->
    current_file w' = Some filename -> loaded env filename w').
  { intros w' H1 H2. exists df. rewrite Eg. repeat split; assumption. }
  destruct (path_exists env _).
  - pose proof (quiet_sync_from clock env
      (Posix.join (Posix.dirname filename)
         (fst (Posix.splitext (Posix.basename filename)) ++ lit "_assets")) w) as Hq.
    destruct (sync_from clock env _ w) as [[e|[]] w1]; cbn [snd] in Hq;
      destruct Hq as ((Hs & Hc) & Hr).
    + split; [reflexivity|]. exists [ErrOpenFailed e]. cbn. rewrite Hr. split; [reflexivity|].
      left. eexists. repeat split; assumption.
    + split; [reflexivity|]. eexists [_; _; _]. cbn. rewrite Hr, <- !app_assoc.
      split; [reflexivity|]. right. split; [reflexivity|]. apply Hl; reflexivity.
  - split; [reflexivity|]. eexists [_; _]. cbn. rewrite <- !app_assoc.
    split; [reflexivity|]. right. split; [reflexivity|]. apply Hl; reflexivity.
Qed.

Lemma run_bind_eq {A B} (m : Run A) (f : A -> Run B) w :
  (m ≫= f) w =
  match m w with
  | (inl e, w') => (inl e, w')
  | (inr a, w') => f a w'
  end.
Proof. reflexivity. Qed.

Lemma import_package_outcome clock filename archive w :
  fst (import_package clock filename archive w) = inr tt
  /\ import_outcome archive w (snd (import_package clock filename archive w)).
Proof.
  unfold import_package, import_outcome, try_except.
  destruct archive as [x|].
  2:{ split; [reflexivity|]. eexists [_]. split; [reflexivity|]. left. repeat split. }
  destruct (List.concat (List.map _ (x_walk x))) as [|excel_file others].
  { split; [reflexivity|]. eexists [_]. split; [reflexivity|]. left. repeat split. }
  set (sync := match List.concat (List.map _ (x_walk x)) with
               | [] => mret tt | assets_src_dir :: _ => sync_from clock (x_tree x) assets_src_dir
               end).
  assert (Hq : quiet sync).
  { unfold sync. destruct (List.concat _); [apply quiet_ret | apply quiet_sync_from]. }
  rewrite (run_bind_eq sync).
  specialize (Hq w). destruct (sync w) as [[e|[]] w1]; cbn [snd] in Hq;
    destruct Hq as ((Hs & Hc) & Hr).
  { split; [reflexivity|]. exists [ErrImportFailed e]. cbn. rewrite Hr.
    split; [reflexivity|]. left. repeat split; assumption. }
  rewrite (run_bind_eq (_load_from_excel_file clock (x_tree x) excel_file)).
  destruct (load_from_excel_file_outcome clock (x_tree x) excel_file w1) as (Hok & added & Hadd & Hout).
  destruct (_load_from_excel_file clock (x_tree x) excel_file w1) as [[e|[]] w2];
    cbn [fst snd] in *; [discriminate Hok|].
  rewrite (run_bind_eq (report InfoImported)). unfold report.
  cbn [fst snd reports sheet current_file].
  split; [reflexivity|]. exists (added ++ [InfoImported; StatusImported]).
  unfold same_document, loaded. cbn [fst snd reports sheet current_file].
  rewrite Hadd, Hr, <- !app_assoc. split; [reflexivity|].
  rewrite existsb_app. cbn [existsb is_error orb]. rewrite orb_false_r.
  destruct Hout as [(err & -> & Herr & Hd1 & Hd2)|(Hno & Hl)].
  - left. cbn [existsb orb]. rewrite Herr. split; [reflexivity|]. split; congruence.
  - right. split; [exact Hno|]. exists x, excel_file. split; [reflexivity|]. exact Hl.
Qed.

(** ** Save and export leave document and store alone *)

Lemma readonly_ret {A} (a : A) : readonly (mret a).
Proof. intros w. repeat split. Qed.

Lemma readonly_bind {A B} (m : Run A) (f : A -> Run B) :
  readonly m -> (forall a, readonly (f a)) -> readonly (m ≫= f).
Proof.
  intros Hm Hf w. rewrite run_bind_eq. specialize (Hm w).
  destruct (m w) as [[e|a] w1]; cbn [snd] in *; [exact Hm|].
  specialize (Hf a w1). unfold same_world in *.
  destruct Hm as (H1 & H2 & H3 & H4), Hf as (H5 & H6 & H7 & H8).
  repeat split; congruence.
Qed.

Lemma readonly_write_outside env path bytes : readonly (write_outside env path bytes).
Proof. intros w. unfold write_outside. destruct (write_error env path); repeat split. Qed.

Lemma readonly_remove_outside path : readonly (remove_outside path).
Proof. intros w. repeat split. Qed.

Lemma readonly_makedirs env d : readonly (makedirs env d).
Proof.
  intros w. unfold makedirs. destruct (path_exists env d); [repeat split|].
  destruct (write_error env d); repeat split.
Qed.

Lemma readonly_for_each {A} (body : A -> Run unit) l :
  (forall x, readonly (body x)) -> readonly (for_each body l).
Proof.
  intros Hb. induction l as [|x l IH]; cbn [for_each]; [apply readonly_ret|].
  apply readonly_bind; [apply Hb | intros _; exact IH].
Qed.

Lemma readonly_zip_add zip_of env filename entries arcname bytes :
  readonly (zip_add zip_of env filename entries arcname bytes).
Proof.
  apply readonly_bind; [apply readonly_write_outside | intros _; apply readonly_ret].
Qed.

Lemma readonly_zip_add_all relpath zip_of env filename assets_dir files : forall entries,
  readonly (zip_add_all relpath zip_of env filename assets_dir files entries).
Proof.
  induction files as [|[file bytes] rest IH]; intros entries; cbn [zip_add_all].
  - apply readonly_ret.
  - apply readonly_bind; [apply readonly_zip_add | intros e; apply IH].
Qed.

Lemma ends_with_reports_bind {A B} rs (m : Run A) (f : A -> Run B) :
  readonly m -> (forall a, ends_with_reports rs (f a)) -> ends_with_reports rs (m ≫= f).
Proof.
  intros Hm Hf w. rewrite run_bind_eq. specialize (Hm w).
  destruct (m w) as [[e|a] w1]; cbn [fst snd] in *; destruct Hm as (H1 & H2 & H3 & H4).
  - rewrite app_nil_r. repeat split; assumption.
  - destruct (Hf a w1) as ((H5 & H6) & H7 & H8).
    unfold same_document. repeat split; congruence.
Qed.

Lemma ends_with_two_reports r1 r2 :
  ends_with_reports [r1; r2] (report r1 ≫= fun _ => report r2).
Proof. intros w. rewrite run_bind_eq. cbn. rewrite <- app_assoc. repeat split. Qed.

Lemma guarded_write (body : Run unit) (err : Exn -> Report) rs w :
  (forall e, is_error (err e) = true) ->
  ends_with_reports rs body ->
  fst (try_except body (fun e => report (err e)) w) = inr tt
  /\ write_outcome rs w (snd (try_except body (fun e => report (err e)) w)).
Proof.
  intros Herr Hb. unfold try_except. specialize (Hb w).
  destruct (body w) as [[e|[]] w1]; cbn [fst snd] in Hb;
    destruct Hb as ((H1 & H2) & H3 & H4); unfold write_outcome, same_document.
  - unfold report. cbn [fst snd sheet current_file reports store].
    rewrite H4, app_nil_r. repeat split; try assumption.
    exists [err e]. split; [reflexivity|]. left. exists (err e). split; [reflexivity | apply Herr].
  - cbn [fst snd]. repeat split; try assumption. exists rs. split; [exact H4 | right; reflexivity].
Qed.

Lemma readonly_get_world : readonly get_world.
Proof. intros w. repeat split. Qed.

Create HintDb effects.

#[local] Hint Resolve readonly_ret readonly_write_outside readonly_remove_outside
  readonly_makedirs readonly_zip_add readonly_zip_add_all readonly_get_world : effects.

(** One step of a guarded body: a read-only action, then the rest. *)
Ltac readonly_step :=
  apply ends_with_reports_bind; [solve [eauto with effects] | intros ?].

Section SavingOutcome.

Variable relpath : str -> str.
Variable xlsx_of : list str -> list (list cell) -> list (nat * nat * list N * nat) -> list N.
Variable zip_of : list (list N * list N) -> list N.
Variable image_ok : list N -> bool.

Lemma readonly_save_excel_sync env filename :
  readonly (_save_excel_sync xlsx_of env filename).
Proof. apply readonly_bind; eauto with effects. Qed.

Lemma readonly_copy_store_out env dir (files : list (list N * list N)) :
  readonly (for_each (fun '(file, bytes) => write_outside env (Posix.join dir file) bytes) files).
Proof. apply readonly_for_each. intros [file bytes]. eauto with effects. Qed.

Lemma save_to_excel_file_outcome env assets_dir filename w :
  let run := _save_to_excel_file xlsx_of image_ok env assets_dir filename in
  let excel_assets_dir :=
    Posix.join (Posix.dirname filename)
      (fst (Posix.splitext (Posix.basename filename)) ++ lit "_assets") in
  fst (run w) = inr tt
  /\ write_outcome [StatusSaved filename; InfoSaved excel_assets_dir] w (snd (run w)).
Proof.
  cbv zeta. unfold _save_to_excel_file.
  destruct (negb (xlsxwriter_available env)).
  { split; [reflexivity|]. unfold write_outcome, same_document. cbn.
    repeat split. exists [ErrMissingLibraries]. split; [reflexivity|].
    left. exists ErrMissingLibraries. split; reflexivity. }
  apply guarded_write; [reflexivity|].
  do 2 readonly_step.
  apply ends_with_reports_bind; [apply readonly_copy_store_out | intros _].
  do 2 readonly_step.
  apply ends_with_two_reports.
Qed.

Lemma export_package_outcome env assets_dir filename w :
  let run := export_package relpath xlsx_of zip_of env assets_dir filename in
  fst (run w) = inr tt
  /\ write_outcome [InfoExported; StatusExported] w (snd (run w)).
Proof.
  cbv zeta. unfold export_package. apply guarded_write; [reflexivity|].
  do 3 readonly_step.
  apply ends_with_reports_bind; [apply readonly_save_excel_sync | intros _].
  do 5 readonly_step.
  apply ends_with_two_reports.
Qed.

End SavingOutcome.


(** [save_as_excel_file] binds the path also when the save failed. *)
Example save_as_binds_after_failure :
  let env := {| stat := fun _ => None; listdir := fun _ => [];
                read_excel := fun _ => None;
                write_error := fun p => Some (PermissionDenied p);
                pandas_available := true; openpyxl_available := true;
                xlsxwriter_available := true |} in
  let w' := snd (save_as_excel_file (fun _ _ _ => []) (fun _ => true) env
                   (lit "assets") (lit "/ro/book.xlsx") empty_world) in
  reports w' = [ErrSaveFailed (PermissionDenied (lit "/ro/book_assets"))]
  /\ current_file w' = Some (lit "/ro/book.xlsx").
Proof. vm_compute. split; reflexivity. Qed.


(** * Further properties *)

(** ** Column names *)

Lemma column_header_inj i j : column_header i = column_header j -> i = j.
Proof.
  intros H. pose proof (proj1 (column_header_number i)) as Hi.
  pose proof (proj1 (column_header_number j)) as Hj.
  rewrite H in Hi. lia.
Qed.

Lemma generate_column_headers_NoDup count : NoDup (generate_column_headers count).
Proof.
  rewrite generate_column_headers_map.
  assert (Hinj : Inj (=) (=) (fun i : nat => column_header (N.of_nat i))).
  { intros i j H. apply column_header_inj in H. lia. }
  apply (NoDup_fmap_2 (fun i : nat => column_header (N.of_nat i))), NoDup_seq.
Qed.

(** X1: the generated column names are pairwise different: no name occurs
    twice in [generate_column_headers(n)], and two indices with the same
    name are the same index. *)
Theorem column_names_unique (count : Z) :
  NoDup (generate_column_headers count)
  /\ forall i j, column_header i = column_header j -> i = j.
Proof. split; [apply generate_column_headers_NoDup | apply column_header_inj]. Qed.

Lemma generate_column_headers_take (n : Z) (k : nat) :
  generate_column_headers n = take (Z.to_nat n) (generate_column_headers (n + Z.of_nat k)).
Proof.
  rewrite !generate_column_headers_map.
  destruct (Z.le_gt_cases n 0) as [Hn|Hn].
  - replace (Z.to_nat n) with 0%nat by lia. reflexivity.
  - replace (Z.to_nat (n + Z.of_nat k)) with (Z.to_nat n + k)%nat by lia.
    rewrite seq_app, map_app, take_app_length'; [reflexivity|].
    rewrite length_map, length_seq. reflexivity.
Qed.

(** X2: a count of zero or less gives no header, and asking for more
    columns only appends names: the headers for [n] columns are the first
    [n] of the headers for [n + k] columns. *)
Theorem generate_column_headers_grows (n : Z) (k : nat) (p : positive) :
  generate_column_headers 0 = []
  /\ generate_column_headers (Z.neg p) = []
  /\ generate_column_headers n = take (Z.to_nat n) (generate_column_headers (n + Z.of_nat k)).
Proof. split; [reflexivity|]. split; [reflexivity | apply generate_column_headers_take]. Qed.

(** ** The decoded text *)

Lemma starts_with_app p s t : starts_with p s = true -> starts_with p (s ++ t) = true.
Proof.
  unfold starts_with. revert s. induction p as [|a p IH]; intros s H; [reflexivity|].
  destruct s as [|c s]; [discriminate H|]. cbn [strip_prefix app] in *.
  destruct (a =? c); [apply IH, H | discriminate H].
Qed.

Lemma contains_app_l p s t : contains p (s ++ t) = false -> contains p s = false.
Proof.
  induction s as [|c s IH]; intros H.
  - destruct p; [destruct t; discriminate H | reflexivity].
  - cbn [contains app] in *. apply orb_false_iff in H. destruct H as [H1 H2].
    rewrite (IH H2), orb_false_r.
    destruct (starts_with p (c :: s)) eqn:E; [|reflexivity].
    apply (starts_with_app _ _ t) in E. cbn [app] in E. congruence.
Qed.

Lemma contains_app_r p s t : contains p (s ++ t) = false -> contains p t = false.
Proof.
  induction s as [|c s IH]; intros H; [exact H|].
  cbn [contains app] in H. apply orb_false_iff in H. apply IH, H.
Qed.

Lemma strip_infix s : exists a b, s = a ++ strip s ++ b.
Proof.
  exists (take_while is_space s), (rev (take_while is_space (rev (lstrip s)))).
  unfold strip. rewrite <- rstrip_split. symmetry. apply take_drop_while.
Qed.

Lemma strip_no_blank_line s : has_blank_line s = false -> has_blank_line (strip s) = false.
Proof.
  intros H. destruct (strip_infix s) as (a & b & E). rewrite E in H.
  unfold has_blank_line in *. apply contains_app_r in H. apply contains_app_l in H. exact H.
Qed.

Lemma sub_newlines_head c s :
  c <> LF -> exists r, Re.sub Re.newlines [LF] (c :: s) = c :: r.
Proof.
  intros Hc. rewrite sub_newlines_unfold. unfold Re.newlines.
  destruct (N.eqb_spec c LF); [contradiction|]. eexists. reflexivity.
Qed.

Lemma sub_newlines_no_blank_line s : has_blank_line (Re.sub Re.newlines [LF] s) = false.
Proof.
  remember (length s) as n eqn:Hn. revert s Hn.
  induction n as [n IH] using lt_wf_ind. intros s Hn.
  destruct s as [|c s]; [reflexivity|].
  rewrite sub_newlines_unfold. unfold Re.newlines at 1.
  destruct (N.eqb_spec c LF) as [->|Hc].
  - pose proof (drop_while_length (N.eqb LF) s) as Hlen.
    pose proof (drop_while_start (N.eqb LF) s) as Hstart.
    specialize (IH (length (drop_while (N.eqb LF) s)) ltac:(simpl in Hn; lia) _ eq_refl).
    cbn [app]. unfold has_blank_line in *. cbn [contains]. rewrite IH, orb_false_r.
    destruct (drop_while (N.eqb LF) s) as [|d r]; [reflexivity|].
    apply N.eqb_neq in Hstart. assert (Hd : d <> LF) by congruence.
    destruct (sub_newlines_head d r Hd) as [r' ->].
    unfold starts_with. cbn [strip_prefix]. rewrite N.eqb_refl.
    destruct (N.eqb_spec LF d); [congruence | reflexivity].
  - specialize (IH (length s) ltac:(simpl in Hn; lia) _ eq_refl).
    unfold has_blank_line in *. cbn [contains]. rewrite IH, orb_false_r.
    unfold starts_with. cbn [strip_prefix].
    destruct (N.eqb_spec LF c); [congruence | reflexivity].
Qed.

Lemma clean_text_content_normal (cell_value : cell) :
  starts_with_space (clean_text_content cell_value) = false
  /\ ends_with_space (clean_text_content cell_value) = false
  /\ has_blank_line (clean_text_content cell_value) = false.
Proof.
  unfold clean_text_content. destruct (negb (truthy cell_value)); [repeat split|].
  split; [apply strip_start|]. split; [apply strip_end|].
  apply strip_no_blank_line, sub_newlines_no_blank_line.
Qed.

(** X3: whatever the cell holds, the text [clean_text_content] returns has
    no whitespace at either end and no two newlines in a row. *)
Theorem clean_text_content_is_normal (cell_value : cell) :
  starts_with_space (clean_text_content cell_value) = false
  /\ ends_with_space (clean_text_content cell_value) = false
  /\ has_blank_line (clean_text_content cell_value) = false.
Proof. apply clean_text_content_normal. Qed.

(** ** What follows a tag *)

Lemma tag_head_bracket_sep c u v :
  Re.tag_head (c :: u) = None -> Re.tag_head ((c :: u) ++ LBRACK :: v) = None.
Proof.
  unfold Re.tag_head.
  change (lit "[IMG") with [91; 73; 77; 71]. change RBRACK with 93. change LBRACK with 91.
  destruct u as [|c1 [|c2 [|c3 [|c4 [|c5 r]]]]]; cbn [strip_prefix app];
    repeat match goal with
    | |- context [N.eqb ?a ?b] =>
        destruct (N.eqb_spec a b); try subst; cbn [strip_prefix app]; try congruence
    end.
Qed.

Lemma sub_before_bracket T v :
  has_tag_syntax T = false ->
  Re.sub Re.tag_any [] (T ++ LBRACK :: v) = T ++ Re.sub Re.tag_any [] (LBRACK :: v).
Proof.
  induction T as [|c T IH]; intros H; [reflexivity|].
  apply has_tag_syntax_cons in H. destruct H as [H1 H2].
  rewrite sub_tags_unfold. unfold Re.tag_any at 1.
  rewrite (tag_head_bracket_sep c T v H1). cbn [app]. f_equal. apply IH, H2.
Qed.

Lemma findall_before_bracket T v :
  has_tag_syntax T = false ->
  Re.findall Re.tag_with_paths (T ++ LBRACK :: v) = Re.findall Re.tag_with_paths (LBRACK :: v).
Proof.
  induction T as [|c T IH]; intros H; [reflexivity|].
  apply has_tag_syntax_cons in H. destruct H as [H1 H2].
  rewrite findall_paths_unfold. unfold Re.tag_with_paths at 1.
  rewrite (tag_head_bracket_sep c T v H1). apply IH, H2.
Qed.

Lemma split_cons_piece sep s : exists p ps, split sep s = p :: ps.
Proof.
  induction s as [|c s (p & ps & IH)]; cbn [split]; [eauto|].
  destruct (c =? sep); [eauto|]. rewrite IH. eauto.
Qed.

Lemma lstrip_space_app ws s :
  Forall (fun c => is_space c = true) ws -> lstrip (ws ++ s) = lstrip s.
Proof.
  induction 1 as [|c ws Hc _ IH]; [reflexivity|].
  unfold lstrip in *. cbn [app drop_while]. rewrite Hc. exact IH.
Qed.

Lemma space_not_semi c : is_space c = true -> c <> SEMI.
Proof. intros H ->. discriminate H. Qed.

Lemma split_space_app ws s :
  Forall (fun c => is_space c = true) ws ->
  exists p ps, split SEMI s = p :: ps /\ split SEMI (ws ++ s) = (ws ++ p) :: ps.
Proof.
  intros Hws. destruct (split_cons_piece SEMI s) as (p & ps & E).
  exists p, ps. split; [exact E|].
  induction Hws as [|c ws Hc _ IH]; [exact E|].
  cbn [app split]. destruct (N.eqb_spec c SEMI) as [->|_]; [discriminate Hc|].
  rewrite IH. reflexivity.
Qed.

Lemma paths_of_group_space_app ws s :
  Forall (fun c => is_space c = true) ws -> paths_of_group (ws ++ s) = paths_of_group s.
Proof.
  intros Hws. destruct (split_space_app ws s Hws) as (p & ps & E1 & E2).
  unfold paths_of_group. rewrite E1, E2. cbn [List.filter].
  assert (E : strip (ws ++ p) = strip p).
  { unfold strip. rewrite (lstrip_space_app ws p Hws). reflexivity. }
  rewrite E. destruct (nonempty (strip p)); cbn [List.map]; [rewrite E|]; reflexivity.
Qed.

Lemma paths_of_group_lstrip b : paths_of_group (lstrip b) = paths_of_group b.
Proof.
  rewrite <- (take_drop_while is_space b) at 2.
  symmetry. apply paths_of_group_space_app, take_while_all.
Qed.

(** The paths read from a text that is a tag head followed by [b], when
    [b] has no bracket: the pieces of all of [b]. *)
Lemma extract_tag_rest (tag b : str) :
  tag = lit "[IMG]" \/ tag = lit "[IMGS]" ->
  Forall (fun c => Re.not_bracket c = true) b ->
  List.concat (List.map paths_of_group (Re.findall Re.tag_with_paths (tag ++ b)))
  = paths_of_group b.
Proof.
  intros Htag Hb.
  assert (Hh : Re.tag_head (tag ++ b) = Some b) by (destruct Htag as [-> | ->]; reflexivity).
  assert (Hr : Forall (fun c => Re.not_bracket c = true) (drop_while is_space b))
    by (apply drop_while_Forall, Hb).
  rewrite findall_paths_unfold. unfold Re.tag_with_paths at 1. rewrite Hh.
  rewrite (take_while_id _ _ Hr), (drop_while_nil _ _ Hr).
  rewrite <- (paths_of_group_lstrip b). unfold lstrip.
  destruct (drop_while is_space b) as [|c r] eqn:Ed.
  - destruct (rev (take_while is_space b)) as [|w ws] eqn:Ew.
    + assert (Hw : take_while is_space b = []).
      { apply (f_equal (@rev N)) in Ew. rewrite rev_involutive in Ew. exact Ew. }
      assert (E : b = []).
      { rewrite <- (take_drop_while is_space b), Hw, Ed. reflexivity. }
      subst b. destruct Htag as [-> | ->]; vm_compute; reflexivity.
    + pose proof (take_while_all is_space b) as Hw. apply Forall_rev' in Hw.
      rewrite Ew in Hw. inversion Hw as [|? ? Hw1 _]; subst.
      change (Re.findall Re.tag_with_paths []) with (@nil (list N)).
      cbn [List.map List.concat]. rewrite app_nil_r.
      change [w] with ([w] ++ []).
      apply paths_of_group_space_app. repeat constructor. exact Hw1.
  - change (Re.findall Re.tag_with_paths []) with (@nil (list N)).
    cbn [List.map List.concat]. apply app_nil_r.
Qed.

Lemma decode_text_then_tag (T tag b : str) :
  tag = lit "[IMG]" \/ tag = lit "[IMGS]" ->
  has_tag_syntax T = false ->
  Forall (fun c => Re.not_bracket c = true) b ->
  decode (Some (T ++ tag ++ b)) = (clean_text_content (Some T), paths_of_group b).
Proof.
  intros Htag HT Hb.
  assert (Ht : exists v, tag ++ b = LBRACK :: v /\ nonempty (T ++ tag ++ b) = true).
  { destruct Htag as [-> | ->]; eexists; (split; [reflexivity|]); destruct T; reflexivity. }
  destruct Ht as (v & Ev & Hne).
  unfold decode. rewrite (extract_image_paths_eq _ Hne). f_equal.
  - unfold clean_text_content. cbn [truthy str_of]. rewrite Hne. cbn [negb].
    rewrite Ev, (sub_before_bracket T v HT), <- Ev.
    assert (E : Re.sub Re.tag_any [] (tag ++ b) = []).
    { rewrite sub_tags_unfold. unfold Re.tag_any at 1.
      assert (Hh : Re.tag_head (tag ++ b) = Some b) by (destruct Htag as [-> | ->]; reflexivity).
      rewrite Hh, (drop_while_nil _ _ Hb). reflexivity. }
    rewrite E, app_nil_r.
    destruct T as [|c T']; [reflexivity|].
    cbn [nonempty negb]. rewrite (sub_untagged _ HT). reflexivity.
  - rewrite Ev, (findall_before_bracket T v HT), <- Ev. apply extract_tag_rest; assumption.
Qed.

(** X4: in a text with one tag, everything after the tag up to the end
    that holds no bracket is read as the list of paths and none of it
    reaches the decoded text: for [T] without tag syntax and [b] without
    brackets, [T ++ "[IMG]" ++ b] and [T ++ "[IMGS]" ++ b] decode to the
    text of [T] and the pieces of [b] between ';', trimmed, empty ones
    dropped. *)
Theorem text_after_tag_is_paths (T b : str) :
  has_tag_syntax T = false ->
  Forall (fun c => Re.not_bracket c = true) b ->
  decode (Some (T ++ lit "[IMG]" ++ b)) = (clean_text_content (Some T), paths_of_group b)
  /\ decode (Some (T ++ lit "[IMGS]" ++ b)) = (clean_text_content (Some T), paths_of_group b).
Proof.
  intros HT Hb. split; apply decode_text_then_tag; auto.
Qed.

Lemma text_after_tag_is_paths_witness :
  decode (Some (lit "see" ++ lit "[IMG]" ++ (lit " a.png" ++ [LF] ++ lit "more text; b.png")))
  = (lit "see", [lit "a.png" ++ [LF] ++ lit "more text"; lit "b.png"]).
Proof.
  destruct (text_after_tag_is_paths (lit "see") (lit " a.png" ++ [LF] ++ lit "more text; b.png"))
    as [H _].
  - reflexivity.
  - vm_compute. repeat constructor.
  - rewrite H. vm_compute. reflexivity.
Defined.

(** ** Merging and decoding again *)

Lemma decode_format_cell isabs relpath (T : str) (I : list str) :
  I <> [] ->
  Forall clean_path I ->
  Forall (fun p => isabs p = false) I ->
  has_tag_syntax (strip T) = false ->
  has_blank_line (strip T) = false ->
  decode (Some (format_cell_with_images isabs relpath T I)) = (strip T, I).
Proof.
  intros Hne Hclean Hrel Htag Hblank.
  destruct I as [|p ps]; [contradiction|]. clear Hne.
  rewrite (format_cell_relative isabs relpath T p ps Hrel). cbv zeta.
  pose proof (join_tag_body p ps Hclean) as Hbody.
  pose proof (paths_of_group_join p ps Hclean) as Hpaths.
  set (b := join (lit "; ") (p :: ps)) in *.
  unfold decode. destruct (nonempty (strip T)) eqn:Hn.
  - assert (Hv : nonempty (strip T ++ LF :: marker ps ++ b) = true).
    { destruct (strip T); [discriminate Hn | reflexivity]. }
    rewrite (extract_image_paths_eq _ Hv).
    rewrite (findall_after_text _ _ Htag), (findall_tag ps b Hbody).
    cbn [List.map List.concat]. rewrite app_nil_r, Hpaths. f_equal.
    unfold clean_text_content. cbn [truthy str_of]. rewrite Hv. cbn [negb].
    rewrite (sub_after_text _ _ Htag), (sub_tag ps b Hbody).
    rewrite sub_newlines_id.
    + apply strip_after_text; [exact Hn | apply strip_start | apply strip_end].
    + apply blank_line_after_text; [exact Hblank | apply strip_end].
  - assert (Hv : nonempty (marker ps ++ b) = true) by (destruct ps; reflexivity).
    rewrite (extract_image_paths_eq _ Hv), (findall_tag ps b Hbody).
    cbn [List.map List.concat]. rewrite app_nil_r, Hpaths.
    unfold clean_text_content. cbn [truthy str_of]. rewrite Hv. cbn [negb].
    rewrite (sub_tag ps b Hbody). destruct (strip T); [reflexivity | discriminate Hn].
Qed.

Lemma extracted_paths_clean (cell_value : cell) :
  Forall clean_path (extract_image_paths cell_value).
Proof.
  destruct cell_value as [s|]; [|constructor].
  destruct (nonempty s) eqn:E.
  - rewrite (extract_image_paths_eq _ E).
    apply Forall_concat, Forall_map.
    apply findall_loop_Forall. intros s0 g rest H.
    eapply paths_of_group_clean, tag_with_paths_group, H.
  - destruct s; [constructor | discriminate].
Qed.

Lemma merged_cell_eq isabs relpath (V : cell) n N' :
  merged_cell isabs relpath V (n :: N') =
  Some (format_cell_with_images isabs relpath (clean_text_content V)
          (keep_first [] (extract_image_paths V ++ n :: N'))).
Proof.
  unfold merged_cell. rewrite unique_loop_keep_first. cbn [app].
  destruct (truthy V) eqn:E; [reflexivity|].
  pose proof (decode_falsy V E) as H. unfold decode in H.
  injection H as -> ->. reflexivity.
Qed.

Lemma keep_first_app l1 : forall seen l2,
  keep_first seen (l1 ++ l2) =
  keep_first seen l1 ++ keep_first (seen ++ keep_first seen l1) l2.
Proof.
  induction l1 as [|x l1 IH]; intros seen l2; cbn [keep_first app].
  - rewrite app_nil_r. reflexivity.
  - destruct (bool_decide (x ∈ seen)); [apply IH|].
    rewrite IH. cbn [app]. rewrite <- app_assoc. reflexivity.
Qed.

Lemma keep_first_seen seen l : (forall x, x ∈ l -> x ∈ seen) -> keep_first seen l = [].
Proof.
  induction l as [|x l IH]; intros H; [reflexivity|]. cbn [keep_first].
  rewrite bool_decide_eq_true_2 by (apply H; left).
  apply IH. intros y Hy. apply H. right. exact Hy.
Qed.

Lemma keep_first_fresh l : forall seen,
  NoDup l -> (forall x, x ∈ l -> x ∉ seen) -> keep_first seen l = l.
Proof.
  induction l as [|x l IH]; intros seen Hnd H; [reflexivity|]. cbn [keep_first].
  apply NoDup_cons in Hnd. destruct Hnd as [Hx Hnd].
  rewrite bool_decide_eq_false_2 by (apply H; left). f_equal.
  apply IH; [exact Hnd|]. intros y Hy Hin.
  apply elem_of_app in Hin. destruct Hin as [Hin|Hin].
  - apply (H y); [right; exact Hy | exact Hin].
  - apply list_elem_of_singleton in Hin. subst. contradiction.
Qed.

Lemma keep_first_again (l new : list str) :
  (forall x, x ∈ new -> x ∈ l) ->
  keep_first [] (keep_first [] l ++ new) = keep_first [] l.
Proof.
  intros H. rewrite keep_first_app. cbn [app].
  rewrite (keep_first_fresh (keep_first [] l) []).
  - rewrite (keep_first_seen (keep_first [] l) new); [apply app_nil_r|].
    intros x Hx. apply keep_first_elems. split; [apply H, Hx | apply not_elem_of_nil].
  - apply keep_first_NoDup.
  - intros x _. apply not_elem_of_nil.
Qed.

Lemma keep_first_Forall (P : str -> Prop) seen l : Forall P l -> Forall P (keep_first seen l).
Proof.
  rewrite !Forall_forall. intros H x Hx. apply keep_first_elems in Hx. apply H, Hx.
Qed.

Lemma merged_cell_decode isabs relpath (V : cell) n N' :
  has_tag_syntax (clean_text_content V) = false ->
  Forall (fun p => isabs p = false) (extract_image_paths V ++ n :: N') ->
  Forall clean_path (n :: N') ->
  decode (merged_cell isabs relpath V (n :: N'))
  = (clean_text_content V, keep_first [] (extract_image_paths V ++ n :: N')).
Proof.
  intros Htag Hrel Hclean. rewrite merged_cell_eq.
  destruct (clean_text_content_normal V) as (H1 & H2 & H3).
  assert (Hs : strip (clean_text_content V) = clean_text_content V) by (apply strip_id; assumption).
  rewrite <- Hs at 2. apply decode_format_cell.
  - intros E. assert (Hn : n ∈ keep_first [] (extract_image_paths V ++ n :: N')).
    { apply keep_first_elems. split; [|apply not_elem_of_nil].
      apply elem_of_app. right. left. }
    rewrite E in Hn. apply elem_of_nil in Hn. exact Hn.
  - apply keep_first_Forall, Forall_app. split; [apply extracted_paths_clean | exact Hclean].
  - apply keep_first_Forall, Hrel.
  - rewrite Hs. exact Htag.
  - rewrite Hs. exact H3.
Qed.



(** ** The rest of the sheet *)

Lemma set_cell_data_other sh row col v r c :
  (r, c) <> (row, col) ->
  get_cell_data (set_cell_data sh row col v) r c = get_cell_data sh r c.
Proof.
  intros Hne. unfold get_cell_data, set_cell_data. cbn [sheet_data].
  destruct (decide (r = row)) as [->|Hr].
  - rewrite list_lookup_alter_eq. destruct (sheet_data sh !! row) as [rw|]; [|reflexivity].
    cbn. apply list_lookup_insert_ne. congruence.
  - rewrite list_lookup_alter_ne by congruence. reflexivity.
Qed.

Lemma set_cell_data_shape sh row col v r :
  length (sheet_data (set_cell_data sh row col v)) = length (sheet_data sh)
  /\ length <$> (sheet_data (set_cell_data sh row col v) !! r)
     = length <$> (sheet_data sh !! r).
Proof.
  unfold set_cell_data. cbn [sheet_data]. split; [apply length_alter|].
  destruct (decide (r = row)) as [->|Hr].
  - rewrite list_lookup_alter_eq. destruct (sheet_data sh !! row) as [rw|]; [|reflexivity].
    cbn. rewrite length_insert. reflexivity.
  - rewrite list_lookup_alter_ne by congruence. reflexivity.
Qed.

(** X6: adding images to a cell changes that cell only: headers, number of
    rows, length of every row and every other cell are as before. *)
Theorem add_images_changes_one_cell isabs relpath sh row col (N : list str) sh' :
  add_images_to_cell_incremental isabs relpath sh row col N = Some sh' ->
  sheet_headers sh' = sheet_headers sh
  /\ length (sheet_data sh') = length (sheet_data sh)
  /\ (forall r, length <$> (sheet_data sh' !! r) = length <$> (sheet_data sh !! r))
  /\ (forall r c, (r, c) <> (row, col) -> get_cell_data sh' r c = get_cell_data sh r c).
Proof.
  unfold add_images_to_cell_incremental. destruct N as [|n N'].
  - intros [= <-]. repeat split.
  - destruct (get_cell_data sh row col) as [v|]; [|discriminate].
    cbn [mbind option_bind]. intros [= <-].
    split; [reflexivity|]. split; [apply set_cell_data_shape; exact 0%nat|].
    split; [intros r; apply set_cell_data_shape | intros r c; apply set_cell_data_other].
Qed.

Lemma add_images_changes_one_cell_witness :
  let sh := {| sheet_data := [[Some (lit "a"); None]; [Some (lit "b"); Some []]];
               sheet_headers := [lit "A"; lit "B"] |} in
  match add_images_to_cell_incremental Posix.isabs (fun p => p) sh 0 1 [lit "assets/p.png"] with
  | Some sh' => get_cell_data sh' 1 0 = get_cell_data sh 1 0
  | None => False
  end.
Proof.
  cbv zeta.
  destruct (add_images_to_cell_incremental Posix.isabs (fun p => p)
              {| sheet_data := [[Some (lit "a"); None]; [Some (lit "b"); Some []]];
                 sheet_headers := [lit "A"; lit "B"] |} 0 1 [lit "assets/p.png"])
    as [sh'|] eqn:E.
  - apply (add_images_changes_one_cell _ _ _ _ _ _ _ E). discriminate.
  - vm_compute in E. discriminate E.
Defined.

(** ** Row heights *)

Lemma max_lines_fold (row_data : list cell) : forall acc,
  let m := List.fold_left
             (fun max_lines cell_value =>
                if truthy cell_value then Nat.max max_lines (cell_lines cell_value)
                else max_lines) row_data acc in
  (acc <= m)%nat
  /\ (forall v, v ∈ row_data -> truthy v = true -> (cell_lines v <= m)%nat)
  /\ (m = acc \/ exists v, v ∈ row_data /\ truthy v = true /\ m = cell_lines v).
Proof.
  induction row_data as [|x row IH]; intros acc; cbv zeta; cbn [List.fold_left].
  - split; [lia|]. split; [|left; reflexivity].
    intros v Hv. apply elem_of_nil in Hv. contradiction.
  - specialize (IH (if truthy x then Nat.max acc (cell_lines x) else acc)).
    cbv zeta in IH. destruct IH as (H1 & H2 & H3).
    set (m := List.fold_left _ row _) in *.
    destruct (truthy x) eqn:Ex.
    + split; [lia|]. split.
      * intros v Hv Ht. apply elem_of_cons in Hv. destruct Hv as [->|Hv]; [lia | auto].
      * destruct H3 as [H3|(v & Hv & Ht & H3)].
        -- destruct (Nat.max_spec acc (cell_lines x)) as [[_ E]|[_ E]]; rewrite E in H3.
           ++ right. exists x. split; [left|]. split; assumption.
           ++ left. exact H3.
        -- right. exists v. split; [right; exact Hv|]. split; assumption.
    + split; [exact H1|]. split.
      * intros v Hv Ht. apply elem_of_cons in Hv. destruct Hv as [->|Hv]; [congruence | auto].
      * destruct H3 as [H3|(v & Hv & Ht & H3)]; [left; exact H3|].
        right. exists v. split; [right; exact Hv|]. split; assumption.
Qed.

Lemma adjusted_row_height_spec (row_data : list cell) :
  (25 <= adjusted_row_height row_data)%nat
  /\ (forall v, v ∈ row_data -> truthy v = true ->
        (cell_lines v * 20 <= adjusted_row_height row_data)%nat)
  /\ (adjusted_row_height row_data = 25%nat
      \/ exists v, v ∈ row_data /\ truthy v = true
                   /\ adjusted_row_height row_data = (cell_lines v * 20)%nat).
Proof.
  unfold adjusted_row_height. destruct (max_lines_fold row_data 1) as (H1 & H2 & H3).
  cbv zeta in *. set (m := List.fold_left _ row_data _) in *.
  split; [lia|]. split.
  - intros v Hv Ht. specialize (H2 v Hv Ht). lia.
  - destruct H3 as [H3|(v & Hv & Ht & H3)]; [left; lia|].
    destruct (Nat.le_gt_cases (m * 20) 25); [left; lia|].
    right. exists v. split; [exact Hv|]. split; [exact Ht|]. lia.
Qed.

Lemma auto_adjust_row_heights_map sh :
  auto_adjust_row_heights sh = adjusted_row_height <$> sheet_data sh.
Proof.
  unfold auto_adjust_row_heights.
  rewrite (fold_left_extend (fun row_data => [adjusted_row_height row_data])). cbn [app].
  induction (sheet_data sh) as [|r l IH]; cbn [List.map List.concat app fmap list_fmap];
    [reflexivity|]. f_equal. exact IH.
Qed.

(** X7: [auto_adjust_row_heights] sets one height per row; each is at
    least 25 and at least 20 for every line of every non-empty cell of the
    row, and it is either 25 or exactly 20 times the number of lines of
    one of those cells. *)
Theorem auto_adjust_row_heights_spec (sh : Sheet) :
  length (auto_adjust_row_heights sh) = length (sheet_data sh)
  /\ forall i row_data, sheet_data sh !! i = Some row_data ->
       exists h, auto_adjust_row_heights sh !! i = Some h
         /\ (25 <= h)%nat
         /\ (forall v, v ∈ row_data -> truthy v = true -> (cell_lines v * 20 <= h)%nat)
         /\ (h = 25%nat
             \/ exists v, v ∈ row_data /\ truthy v = true /\ h = (cell_lines v * 20)%nat).
Proof.
  rewrite auto_adjust_row_heights_map. split; [apply length_fmap|].
  intros i row_data Hi. exists (adjusted_row_height row_data).
  split; [rewrite list_lookup_fmap, Hi; reflexivity | apply adjusted_row_height_spec].
Qed.

(** ** Importing files into the store *)

Section CopyImages.

Variable clock : nat -> str.
Variable relpath : str -> str.
Variable env : Env.
Variable assets_dir : str.

Lemma copy_images_loop_app l1 : forall l2 acc w,
  copy_images_loop clock relpath env assets_dir (l1 ++ l2) acc w =
  match copy_images_loop clock relpath env assets_dir l1 acc w with
  | (inl e, w1) => (inl e, w1)
  | (inr acc1, w1) => copy_images_loop clock relpath env assets_dir l2 acc1 w1
  end.
Proof.
  induction l1 as [|x l1 IH]; intros l2 acc w; [reflexivity|].
  cbn [app copy_images_loop]. destruct (path_exists env x); [|apply IH].
  destruct (Posix.splitext (Posix.basename x)) as [name ext].
  rewrite !run_bind_eq. destruct (timestamp_now clock w) as [[e|ts] w1]; [reflexivity|].
  rewrite !run_bind_eq. destruct (copy_to_store env x _ w1) as [[e|[]] w2]; [reflexivity|].
  apply IH.
Qed.

Lemma copy_images_loop_existing l : forall acc w,
  copy_images_loop clock relpath env assets_dir l acc w =
  copy_images_loop clock relpath env assets_dir (List.filter (path_exists env) l) acc w.
Proof.
  induction l as [|x l IH]; intros acc w; [reflexivity|].
  cbn [List.filter copy_images_loop]. destruct (path_exists env x) eqn:E; [|apply IH].
  cbn [copy_images_loop]. rewrite E.
  destruct (Posix.splitext (Posix.basename x)) as [name ext].
  rewrite !run_bind_eq. destruct (timestamp_now clock w) as [[e|ts] w1]; [reflexivity|].
  rewrite !run_bind_eq. destruct (copy_to_store env x _ w1) as [[e|[]] w2]; [reflexivity|].
  apply IH.
Qed.

(** X8: paths that do not exist are skipped as if they had not been given:
    the result and the world after [copy_images_to_assets] are those for
    the existing paths alone; with no existing path the result is the
    empty list and nothing changes, not even the clock is read. *)
Theorem copy_images_skips_missing (image_paths : list str) (w : World) :
  copy_images_to_assets clock relpath env image_paths assets_dir w
  = copy_images_to_assets clock relpath env
      (List.filter (path_exists env) image_paths) assets_dir w
  /\ (List.filter (path_exists env) image_paths = [] ->
      copy_images_to_assets clock relpath env image_paths assets_dir w = (inr [], w)).
Proof.
  unfold copy_images_to_assets. split; [apply copy_images_loop_existing|].
  intros H. rewrite copy_images_loop_existing, H. reflexivity.
Qed.

Lemma copy_one_image x bytes acc w :
  stat env x = Some (File (Some bytes)) ->
  let '(name, ext) := Posix.splitext (Posix.basename x) in
  let dest_name := name ++ lit "_" ++ clock (ticks w) ++ ext in
  copy_images_loop clock relpath env assets_dir [x] acc w =
  (inr (acc ++ [relpath (Posix.join assets_dir dest_name)]),
   {| store := <[dest_name := bytes]> (store w); outside := outside w; sheet := sheet w;
      current_file := current_file w; reports := reports w; ticks := S (ticks w) |}).
Proof.
  intros H. cbn [copy_images_loop]. unfold path_exists. rewrite H.
  destruct (Posix.splitext (Posix.basename x)) as [name ext].
  rewrite run_bind_eq. unfold timestamp_now. rewrite run_bind_eq.
  unfold copy_to_store. rewrite H. reflexivity.
Qed.

(** X9: when the clock has moved on between the two copies, two files
    with the same base name are stored under two different names and both
    can be read back from the store. *)
Theorem copy_images_distinct_seconds (p1 p2 : str) (b1 b2 : list N) (w : World) :
  stat env p1 = Some (File (Some b1)) ->
  stat env p2 = Some (File (Some b2)) ->
  Posix.basename p1 = Posix.basename p2 ->
  clock (ticks w) <> clock (S (ticks w)) ->
  let n1 := fst (Posix.splitext (Posix.basename p1)) ++ lit "_" ++ clock (ticks w)
            ++ snd (Posix.splitext (Posix.basename p1)) in
  let n2 := fst (Posix.splitext (Posix.basename p1)) ++ lit "_" ++ clock (S (ticks w))
            ++ snd (Posix.splitext (Posix.basename p1)) in
  let run := copy_images_to_assets clock relpath env [p1; p2] assets_dir w in
  fst run = inr [relpath (Posix.join assets_dir n1); relpath (Posix.join assets_dir n2)]
  /\ n1 <> n2
  /\ store (snd run) !! n1 = Some b1
  /\ store (snd run) !! n2 = Some b2.
Proof.
  intros H1 H2 Hb Hc. cbv zeta. unfold copy_images_to_assets.
  change [p1; p2] with ([p1] ++ [p2]). rewrite copy_images_loop_app.
  pose proof (copy_one_image p1 b1 [] w H1) as E1.
  destruct (Posix.splitext (Posix.basename p1)) as [name ext] eqn:Es. cbv zeta in E1.
  rewrite E1. clear E1.
  match goal with |- context [copy_images_loop _ _ _ _ [p2] ?acc ?w1] =>
    pose proof (copy_one_image p2 b2 acc w1 H2) as E2 end.
  rewrite <- Hb, Es in E2. cbv zeta in E2. cbn [ticks] in E2. rewrite E2. clear E2.
  cbn [fst snd store app].
  assert (Hne : name ++ lit "_" ++ clock (ticks w) ++ ext
                <> name ++ lit "_" ++ clock (S (ticks w)) ++ ext).
  { intros E. apply app_inv_head in E. apply app_inv_head in E.
    apply app_inv_tail in E. contradiction. }
  split; [reflexivity|]. split; [exact Hne|]. split.
  - rewrite lookup_insert_ne by congruence. apply lookup_insert_eq.
  - apply lookup_insert_eq.
Qed.

End CopyImages.

Lemma copy_images_distinct_seconds_witness :
  let clock := fun n : nat =>
    if Nat.eqb n 0 then lit "20250101_120000" else lit "20250101_120001" in
  let run := copy_images_to_assets clock (fun p => p) two_pictures
               [lit "/a/pic.png"; lit "/b/pic.png"] (lit "assets") empty_world in
  stat two_pictures (lit "/a/pic.png") = Some (File (Some (lit "first")))
  /\ stat two_pictures (lit "/b/pic.png") = Some (File (Some (lit "second")))
  /\ clock (ticks empty_world) <> clock (S (ticks empty_world))
  /\ store (snd run) !! lit "pic_20250101_120000.png" = Some (lit "first")
  /\ store (snd run) !! lit "pic_20250101_120001.png" = Some (lit "second").
Proof.
  intros clock run.
  assert (H1 : stat two_pictures (lit "/a/pic.png") = Some (File (Some (lit "first"))))
    by (vm_compute; reflexivity).
  assert (H2 : stat two_pictures (lit "/b/pic.png") = Some (File (Some (lit "second"))))
    by (vm_compute; reflexivity).
  assert (Hb : Posix.basename (lit "/a/pic.png") = Posix.basename (lit "/b/pic.png"))
    by (vm_compute; reflexivity).
  assert (Hc : clock (ticks empty_world) <> clock (S (ticks empty_world)))
    by (vm_compute; discriminate).
  pose proof (copy_images_distinct_seconds clock (fun p => p) two_pictures (lit "assets")
                (lit "/a/pic.png") (lit "/b/pic.png") (lit "first") (lit "second")
                empty_world H1 H2 Hb Hc) as H.
  cbv zeta in H. destruct H as (_ & _ & Ha & Hb').
  exact (conj H1 (conj H2 (conj Hc (conj Ha Hb')))).
Defined.

(** ** The store only grows *)

Lemma keeps_names_refl w : keeps_names w w.
Proof. split; [intros name H; exact H|]. split; [reflexivity | lia]. Qed.

Lemma keeps_names_trans w1 w2 w3 :
  keeps_names w1 w2 -> keeps_names w2 w3 -> keeps_names w1 w3.
Proof.
  intros (Ha & Hb & Hc) (Ha' & Hb' & Hc'). split; [intros name H; apply Ha', Ha, H|].
  split; [congruence | lia].
Qed.

Lemma only_adds_ret {A} (a : A) : only_adds (mret a).
Proof. intros w. apply keeps_names_refl. Qed.

Lemma only_adds_raise {A} e : only_adds (@raise A e).
Proof. intros w. apply keeps_names_refl. Qed.

Lemma only_adds_bind {A B} (m : Run A) (f : A -> Run B) :
  only_adds m -> (forall a, only_adds (f a)) -> only_adds (m ≫= f).
Proof.
  intros Hm Hf w. rewrite run_bind_eq. specialize (Hm w).
  destruct (m w) as [[e|a] w1]; [exact Hm|].
  eapply keeps_names_trans; [exact Hm | apply Hf].
Qed.

Lemma only_adds_try_except body handler :
  only_adds body -> (forall e, only_adds (handler e)) -> only_adds (try_except body handler).
Proof.
  intros Hm Hf w. unfold try_except. specialize (Hm w).
  destruct (body w) as [[e|a] w1]; [|exact Hm].
  eapply keeps_names_trans; [exact Hm | apply Hf].
Qed.

Lemma only_adds_for_each {A} (body : A -> Run unit) l :
  (forall x, only_adds (body x)) -> only_adds (for_each body l).
Proof.
  intros Hb. induction l as [|x l IH]; cbn [for_each]; [apply only_adds_ret|].
  apply only_adds_bind; [apply Hb | intros _; exact IH].
Qed.

Lemma only_adds_report r : only_adds (report r).
Proof.
  intros w. split; [intros name H; exact H|]. split; [reflexivity | cbn; lia].
Qed.

Lemma only_adds_set_sheet data headers : only_adds (set_sheet data headers).
Proof.
  intros w. split; [intros name H; exact H|]. split; [reflexivity | cbn; lia].
Qed.

Lemma only_adds_set_current_file filename : only_adds (set_current_file filename).
Proof.
  intros w. split; [intros name H; exact H|]. split; [reflexivity | cbn; lia].
Qed.

Lemma only_adds_store_exists name : only_adds (store_exists name).
Proof. intros w. apply keeps_names_refl. Qed.

Lemma only_adds_timestamp_now clock : only_adds (timestamp_now clock).
Proof.
  intros w. split; [intros name H; exact H|]. split; [reflexivity | cbn; lia].
Qed.

Lemma only_adds_copy_to_store env src dst_name : only_adds (copy_to_store env src dst_name).
Proof.
  intros w. unfold copy_to_store.
  destruct (stat env src) as [[[bytes|]|]|]; try apply keeps_names_refl.
  split; [|split; [reflexivity | cbn; lia]]. intros name H. cbn [snd store].
  destruct (decide (name = dst_name)) as [->|Hne].
  - rewrite lookup_insert_eq. eauto.
  - rewrite lookup_insert_ne by congruence. exact H.
Qed.

Lemma only_adds_copy_images_loop clock relpath env assets_dir l :
  forall acc, only_adds (copy_images_loop clock relpath env assets_dir l acc).
Proof.
  induction l as [|x l IH]; intros acc; cbn [copy_images_loop]; [apply only_adds_ret|].
  destruct (path_exists env x); [|apply IH].
  destruct (Posix.splitext (Posix.basename x)) as [name ext].
  apply only_adds_bind; [apply only_adds_timestamp_now|]. intros ts.
  apply only_adds_bind; [apply only_adds_copy_to_store|]. intros _. apply IH.
Qed.

Lemma only_adds_sync_from clock env src_dir : only_adds (sync_from clock env src_dir).
Proof.
  apply only_adds_for_each. intros file. unfold sync_file.
  destruct (isfile env (Posix.join src_dir file)); [|apply only_adds_ret].
  apply only_adds_bind; [apply only_adds_store_exists|]. intros taken.
  apply only_adds_bind; [|intros dst; apply only_adds_copy_to_store].
  destruct taken; [|apply only_adds_ret].
  destruct (Posix.splitext file) as [name ext].
  apply only_adds_bind; [apply only_adds_timestamp_now | intros ts; apply only_adds_ret].
Qed.

Lemma only_adds_load clock env filename : only_adds (_load_from_excel_file clock env filename).
Proof.
  unfold _load_from_excel_file.
  destruct (negb (pandas_available env) || negb (openpyxl_available env));
    [apply only_adds_report|].
  apply only_adds_try_except; [|intros e; apply only_adds_report].
  apply only_adds_bind.
  { destruct (read_excel env filename); [apply only_adds_ret | apply only_adds_raise]. }
  intros df. destruct (load_grid (tbl_headers df) (tbl_rows df)) as [column_headers data].
  apply only_adds_bind.
  { destruct (path_exists env _); [|apply only_adds_ret].
    apply only_adds_bind; [apply only_adds_sync_from | intros _; apply only_adds_report]. }
  intros _. apply only_adds_bind; [apply only_adds_set_sheet|]. intros _.
  apply only_adds_bind; [apply only_adds_set_current_file|]. intros _.
  apply only_adds_bind; [apply only_adds_report | intros _; apply only_adds_report].
Qed.

Lemma only_adds_import clock filename archive :
  only_adds (import_package clock filename archive).
Proof.
  unfold import_package.
  apply only_adds_try_except; [|intros e; apply only_adds_report].
  destruct archive as [x|]; [|apply only_adds_raise].
  destruct (List.concat _) as [|excel_file ?]; [apply only_adds_report|].
  apply only_adds_bind.
  { destruct (List.concat _); [apply only_adds_ret | apply only_adds_sync_from]. }
  intros _. apply only_adds_bind; [apply only_adds_load|]. intros _.
  apply only_adds_bind; [apply only_adds_report | intros _; apply only_adds_report].
Qed.

(** X10: adding pictures to the store, opening a workbook and importing a
    package never remove a name from the store and never write a file
    outside it, whether they succeed or fail. *)
Theorem store_only_grows clock relpath env image_paths assets_dir filename archive :
  only_adds (copy_images_to_assets clock relpath env image_paths assets_dir)
  /\ only_adds (_load_from_excel_file clock env filename)
  /\ only_adds (import_package clock filename archive).
Proof.
  split; [unfold copy_images_to_assets; apply only_adds_copy_images_loop|].
  split; [apply only_adds_load | apply only_adds_import].
Qed.

(** ** A failing copy *)

Lemma copy_images_abort clock relpath env assets_dir bad rest acc w e :
  match stat env bad with
  | Some Dir => e = IsADirectory bad
  | Some (File None) => e = PermissionDenied bad
  | _ => False
  end ->
  copy_images_loop clock relpath env assets_dir (bad :: rest) acc w
  = (inl e, {| store := store w; outside := outside w; sheet := sheet w;
               current_file := current_file w; reports := reports w;
               ticks := S (ticks w) |}).
Proof.
  intros H. cbn [copy_images_loop]. unfold path_exists.
  destruct (stat env bad) as [[[bytes|]|]|] eqn:Es; try contradiction; subst e;
    destruct (Posix.splitext (Posix.basename bad)) as [name ext];
    rewrite run_bind_eq; unfold timestamp_now; rewrite run_bind_eq;
    unfold copy_to_store; rewrite Es; reflexivity.
Qed.

(** X11: a path that exists but cannot be copied (a directory, or a file
    that cannot be read) stops the whole batch: the exception leaves
    [copy_images_to_assets], the list of copied names is lost, the paths
    after it are not looked at, and the files copied before it stay in the
    store. *)
Theorem copy_images_failure_aborts clock relpath env assets_dir
    (done : list str) (bad : str) (rest : list str) (copied : list str) (w w1 : World) (e : Exn) :
  copy_images_to_assets clock relpath env done assets_dir w = (inr copied, w1) ->
  match stat env bad with
  | Some Dir => e = IsADirectory bad
  | Some (File None) => e = PermissionDenied bad
  | _ => False
  end ->
  copy_images_to_assets clock relpath env (done ++ bad :: rest) assets_dir w
  = (inl e, {| store := store w1; outside := outside w1; sheet := sheet w1;
               current_file := current_file w1; reports := reports w1;
               ticks := S (ticks w1) |}).
Proof.
  unfold copy_images_to_assets. intros Hd Hb.
  rewrite copy_images_loop_app, Hd. apply copy_images_abort, Hb.
Qed.

Lemma copy_images_failure_aborts_witness :
  let run := copy_images_to_assets (fun _ => lit "20250101_120000") (fun p => p)
               (x_tree broken_package)
               [lit "/tmp/x/assets/pic.png"; lit "/tmp/x/assets"; lit "/tmp/x/assets/pic.png"]
               (lit "assets") empty_world in
  fst run = inl (IsADirectory (lit "/tmp/x/assets"))
  /\ store (snd run) = {[ lit "pic_20250101_120000.png" := lit "bytes" ]}
  /\ ticks (snd run) = 2%nat.
Proof.
  cbv zeta.
  destruct (copy_images_to_assets (fun _ => lit "20250101_120000") (fun p => p)
              (x_tree broken_package) [lit "/tmp/x/assets/pic.png"] (lit "assets")
              empty_world) as [[e|copied] w1] eqn:Hd.
  - vm_compute in Hd. discriminate Hd.
  - assert (Hb : match stat (x_tree broken_package) (lit "/tmp/x/assets") with
                 | Some Dir => IsADirectory (lit "/tmp/x/assets") = IsADirectory (lit "/tmp/x/assets")
                 | Some (File None) =>
                   IsADirectory (lit "/tmp/x/assets") = PermissionDenied (lit "/tmp/x/assets")
                 | _ => False
                 end) by (vm_compute; reflexivity).
    change [lit "/tmp/x/assets/pic.png"; lit "/tmp/x/assets"; lit "/tmp/x/assets/pic.png"]
      with ([lit "/tmp/x/assets/pic.png"] ++ lit "/tmp/x/assets" :: [lit "/tmp/x/assets/pic.png"]).
    rewrite (copy_images_failure_aborts (fun _ => lit "20250101_120000") (fun p => p)
               (x_tree broken_package) (lit "assets") [lit "/tmp/x/assets/pic.png"]
               (lit "/tmp/x/assets") [lit "/tmp/x/assets/pic.png"] copied empty_world w1
               (IsADirectory (lit "/tmp/x/assets")) Hd Hb).
    cbn [fst snd store ticks].
    assert (Hw : w1 = snd (copy_images_to_assets (fun _ => lit "20250101_120000") (fun p => p)
              (x_tree broken_package) [lit "/tmp/x/assets/pic.png"] (lit "assets")
              empty_world)) by (rewrite Hd; reflexivity).
    rewrite Hw. split; [reflexivity|]. split; [|reflexivity].
    vm_compute. reflexivity.
Defined.

(** ** Copying a folder into the store *)

Lemma splitext_app p : fst (Posix.splitext p) ++ snd (Posix.splitext p) = p.
Proof.
  unfold Posix.splitext.
  pose proof (take_drop_while Posix.not_dot (rev p)) as Htd.
  pose proof (drop_while_start Posix.not_dot (rev p)) as Hs.
  destruct (drop_while Posix.not_dot (rev p)) as [|d stem] eqn:Ed; [apply app_nil_r|].
  destruct (_ && _); [|apply app_nil_r]. cbn [fst snd].
  assert (Hd : d = DOT).
  { unfold Posix.not_dot in Hs. apply negb_false_iff in Hs.
    apply N.eqb_eq in Hs. exact Hs. }
  subst d. remember (take_while Posix.not_dot (rev p)) as ext eqn:Ee. clear Ee.
  rewrite <- (rev_involutive p), <- Htd, rev_app_distr. cbn [rev].
  rewrite <- app_assoc. reflexivity.
Qed.

Lemma renamed_differs name ts ext : name ++ lit "_" ++ ts ++ ext <> name ++ ext.
Proof.
  intros E. apply app_inv_head in E. apply (f_equal (@length _)) in E.
  change (lit "_") with [95] in E. rewrite !length_app in E. cbn [length] in E. lia.
Qed.

Section Sync.

Variable clock : nat -> str.
Variable env : Env.
Variable src_dir : str.

Lemma sync_file_taken file old new w :
  store w !! file = Some old ->
  stat env (Posix.join src_dir file) = Some (File (Some new)) ->
  sync_file clock env src_dir file w
  = (inr tt,
     {| store := <[fst (Posix.splitext file) ++ lit "_" ++ clock (ticks w)
                   ++ snd (Posix.splitext file) := new]> (store w);
        outside := outside w; sheet := sheet w; current_file := current_file w;
        reports := reports w; ticks := S (ticks w) |}).
Proof.
  intros Hs Hf. unfold sync_file, isfile. rewrite Hf.
  rewrite run_bind_eq. unfold store_exists. rewrite Hs.
  rewrite bool_decide_eq_true_2 by eauto.
  destruct (Posix.splitext file) as [name ext]. cbn [fst snd].
  rewrite !run_bind_eq. unfold timestamp_now.
  change ((mret (name ++ lit "_" ++ clock (ticks w) ++ ext) : Run str)
            {| store := store w; outside := outside w; sheet := sheet w;
               current_file := current_file w; reports := reports w;
               ticks := S (ticks w) |})
    with (inr (A := Exn) (name ++ lit "_" ++ clock (ticks w) ++ ext),
          {| store := store w; outside := outside w; sheet := sheet w;
             current_file := current_file w; reports := reports w;
             ticks := S (ticks w) |}).
  unfold copy_to_store. rewrite Hf. reflexivity.
Qed.

(** X12: a file of the folder whose name is already used in the store
    does not replace the stored file: it is stored under the name with the
    time stamp added before the extension, which is a different name, and
    every other name of the store reads as before. *)
Theorem sync_file_keeps_same_name (file : str) (old new : list N) (w : World) :
  store w !! file = Some old ->
  stat env (Posix.join src_dir file) = Some (File (Some new)) ->
  let dst_name := fst (Posix.splitext file) ++ lit "_" ++ clock (ticks w)
                  ++ snd (Posix.splitext file) in
  let run := sync_file clock env src_dir file w in
  fst run = inr tt
  /\ dst_name <> file
  /\ store (snd run) !! file = Some old
  /\ store (snd run) !! dst_name = Some new
  /\ forall name, name <> dst_name -> store (snd run) !! name = store w !! name.
Proof.
  intros Hs Hf. cbv zeta. rewrite (sync_file_taken file old new w Hs Hf).
  cbn [fst snd store].
  assert (Hne : fst (Posix.splitext file) ++ lit "_" ++ clock (ticks w)
                ++ snd (Posix.splitext file) <> file).
  { rewrite <- (splitext_app file) at 3. apply renamed_differs. }
  split; [reflexivity|]. split; [exact Hne|].
  split; [rewrite lookup_insert_ne by exact Hne; exact Hs|].
  split; [apply lookup_insert_eq|].
  intros name Hn. apply lookup_insert_ne. congruence.
Qed.

Lemma sync_file_fresh file w :
  store w !! file = None ->
  stat env (Posix.join src_dir file) <> Some (File None) ->
  sync_file clock env src_dir file w
  = (inr tt,
     match stat env (Posix.join src_dir file) with
     | Some (File (Some bytes)) =>
       {| store := <[file := bytes]> (store w); outside := outside w; sheet := sheet w;
          current_file := current_file w; reports := reports w; ticks := ticks w |}
     | _ => w
     end).
Proof.
  intros Hs Hf. unfold sync_file, isfile.
  destruct (stat env (Posix.join src_dir file)) as [[[bytes|]|]|] eqn:Es;
    [|contradiction|reflexivity|reflexivity].
  rewrite run_bind_eq. unfold store_exists. rewrite Hs.
  rewrite bool_decide_eq_false_2 by (intros [? ?]; discriminate).
  rewrite run_bind_eq.
  change ((mret file : Run str) w) with (inr (A := Exn) file, w).
  unfold copy_to_store. rewrite Es. reflexivity.
Qed.

Lemma sync_fresh_loop l : forall w,
  NoDup l ->
  (forall file, file ∈ l -> store w !! file = None) ->
  (forall file, file ∈ l -> stat env (Posix.join src_dir file) <> Some (File None)) ->
  let run := for_each (sync_file clock env src_dir) l w in
  fst run = inr tt
  /\ same_document w (snd run)
  /\ reports (snd run) = reports w
  /\ outside (snd run) = outside w
  /\ ticks (snd run) = ticks w
  /\ forall name,
       store (snd run) !! name =
       if bool_decide (name ∈ l) then
         match stat env (Posix.join src_dir name) with
         | Some (File (Some bytes)) => Some bytes
         | _ => None
         end
       else store w !! name.
Proof.
  induction l as [|x l IH]; intros w Hnd Hs Hf; cbv zeta.
  - cbn [for_each]. split; [reflexivity|]. split; [split; reflexivity|].
    do 3 (split; [reflexivity|]). intros name.
    rewrite bool_decide_eq_false_2 by (apply not_elem_of_nil). reflexivity.
  - cbn [for_each]. rewrite run_bind_eq.
    rewrite (sync_file_fresh x w) by (first [apply Hs | apply Hf]; left).
    apply NoDup_cons in Hnd as [Hx Hnd].
    match goal with |- context [for_each _ l ?w1] => set (w' := w1) end.
    assert (Hw : sheet w' = sheet w /\ current_file w' = current_file w
                 /\ reports w' = reports w /\ outside w' = outside w
                 /\ ticks w' = ticks w
                 /\ forall name, store w' !! name =
                      if bool_decide (name = x) then
                        match stat env (Posix.join src_dir name) with
                        | Some (File (Some bytes)) => Some bytes
                        | _ => None
                        end
                      else store w !! name).
    { assert (Hsx : store w !! x = None) by (apply Hs; left).
      subst w'. destruct (stat env (Posix.join src_dir x)) as [[[bytes|]|]|] eqn:Es;
        (do 5 (split; [reflexivity|])); intros name; cbn [store];
        (destruct (decide (name = x)) as [->|Hn];
         [rewrite bool_decide_eq_true_2 by reflexivity; rewrite Es
         |rewrite bool_decide_eq_false_2 by exact Hn]);
        rewrite ?lookup_insert_eq; rewrite ?lookup_insert_ne by congruence;
        first [reflexivity | exact Hsx]. }
    destruct Hw as (Hw1 & Hw2 & Hw3 & Hw4 & Hw5 & Hw6).
    destruct (IH w' Hnd) as (Ha & [Hb Hb'] & Hc & Hd & He & Hg).
    { intros file Hin. rewrite Hw6.
      rewrite bool_decide_eq_false_2 by (intros ->; contradiction).
      apply Hs. right. exact Hin. }
    { intros file Hin. apply Hf. right. exact Hin. }
    split; [exact Ha|]. split; [split; congruence|].
    do 3 (split; [congruence|]). intros name. rewrite Hg, Hw6.
    destruct (decide (name = x)) as [->|Hn].
    + rewrite (bool_decide_eq_false_2 (x ∈ l)) by exact Hx.
      rewrite !bool_decide_eq_true_2 by (first [reflexivity | left]). reflexivity.
    + rewrite (bool_decide_eq_false_2 (name = x)) by exact Hn.
      destruct (decide (name ∈ l)) as [Hin|Hin].
      * rewrite !bool_decide_eq_true_2 by (first [exact Hin | right; exact Hin]).
        reflexivity.
      * rewrite !bool_decide_eq_false_2; [reflexivity| |exact Hin].
        intros Hc'. apply elem_of_cons in Hc' as [?|?]; contradiction.
Qed.

(** X13: copying a folder whose listing has no repeated name and no name
    used in the store, and in which every file can be read, succeeds
    without reading the clock: afterwards each file of the folder is in
    the store under its own name with its own bytes, sub-folders are left
    out, and every other name of the store reads as before. *)
Theorem sync_from_fresh_names (w : World) :
  NoDup (listdir env src_dir) ->
  (forall file, file ∈ listdir env src_dir -> store w !! file = None) ->
  (forall file, file ∈ listdir env src_dir ->
     stat env (Posix.join src_dir file) <> Some (File None)) ->
  let run := sync_from clock env src_dir w in
  fst run = inr tt
  /\ same_document w (snd run)
  /\ reports (snd run) = reports w
  /\ outside (snd run) = outside w
  /\ ticks (snd run) = ticks w
  /\ forall name,
       store (snd run) !! name =
       if bool_decide (name ∈ listdir env src_dir) then
         match stat env (Posix.join src_dir name) with
         | Some (File (Some bytes)) => Some bytes
         | _ => None
         end
       else store w !! name.
Proof. unfold sync_from. apply sync_fresh_loop. Qed.

End Sync.

Lemma sync_file_keeps_same_name_witness :
  let w := {| store := {[ lit "pic.png" := lit "old" ]}; outside := ∅;
              sheet := {| sheet_data := []; sheet_headers := [] |};
              current_file := None; reports := []; ticks := 0 |} in
  let run := sync_file (fun _ => lit "20250101_120000") two_pictures (lit "/a")
               (lit "pic.png") w in
  store (snd run) !! lit "pic.png" = Some (lit "old")
  /\ store (snd run) !! lit "pic_20250101_120000.png" = Some (lit "first").
Proof.
  intros w run.
  assert (Hs : store w !! lit "pic.png" = Some (lit "old")) by (vm_compute; reflexivity).
  assert (Hf : stat two_pictures (Posix.join (lit "/a") (lit "pic.png"))
               = Some (File (Some (lit "first")))) by (vm_compute; reflexivity).
  pose proof (sync_file_keeps_same_name (fun _ => lit "20250101_120000") two_pictures
                (lit "/a") (lit "pic.png") (lit "old") (lit "first") w Hs Hf) as H.
  cbv zeta in H. destruct H as (_ & _ & Ha & Hb & _).
  exact (conj Ha Hb).
Defined.

Lemma sync_from_fresh_names_witness :
  let run := sync_from (fun _ => lit "20250101_120000") (x_tree broken_package)
               (lit "/tmp/x/assets") empty_world in
  fst run = inr tt
  /\ store (snd run) !! lit "pic.png" = Some (lit "bytes")
  /\ ticks (snd run) = 0%nat.
Proof.
  intros run.
  assert (Hl : listdir (x_tree broken_package) (lit "/tmp/x/assets") = [lit "pic.png"])
    by (vm_compute; reflexivity).
  assert (H1 : NoDup (listdir (x_tree broken_package) (lit "/tmp/x/assets"))).
  { rewrite Hl. apply NoDup_singleton. }
  assert (H2 : forall file, file ∈ listdir (x_tree broken_package) (lit "/tmp/x/assets") ->
                 store empty_world !! file = None).
  { intros file _. apply lookup_empty. }
  assert (H3 : forall file, file ∈ listdir (x_tree broken_package) (lit "/tmp/x/assets") ->
                 stat (x_tree broken_package) (Posix.join (lit "/tmp/x/assets") file)
                 <> Some (File None)).
  { intros file Hin. rewrite Hl in Hin. apply list_elem_of_singleton in Hin. subst file.
    vm_compute. discriminate. }
  destruct (sync_from_fresh_names (fun _ => lit "20250101_120000") (x_tree broken_package)
              (lit "/tmp/x/assets") empty_world H1 H2 H3) as (Ha & _ & _ & _ & He & Hg).
  split; [exact Ha|]. split; [|exact He].
  fold run in Hg. rewrite Hg, Hl.
  rewrite bool_decide_eq_true_2 by (apply list_elem_of_singleton; reflexivity).
  vm_compute. reflexivity.
Defined.

(** ** The two wiki texts *)

Section WikiTexts.

Variable file_exists : str -> bool.
Variable basename : str -> str.

Lemma image_refs_none (l : list str) : forall acc : list str,
  (forall p, p ∈ l -> file_exists p = false) ->
  List.fold_left
    (fun image_refs image_path =>
       if file_exists image_path
       then image_refs ++ [lit "!" ++ basename image_path ++ lit "!"]
       else image_refs) l acc = acc.
Proof.
  induction l as [|p l IH]; intros acc H; cbn [List.fold_left]; [reflexivity|].
  rewrite (H p) by left. apply IH. intros q Hq. apply H. right. exact Hq.
Qed.

Lemma cell_markup_no_image cell_value :
  (forall p, p ∈ extract_image_paths cell_value -> file_exists p = false) ->
  cell_markup file_exists basename cell_value = cell_text cell_value.
Proof.
  intros H. unfold cell_markup, cell_text. destruct (truthy cell_value); [|reflexivity].
  destruct (extract_image_paths cell_value) as [|p l] eqn:E; [reflexivity|].
  rewrite image_refs_none by exact H. reflexivity.
Qed.

Lemma map_agree {A B} (f g : A -> B) (l : list A) :
  (forall x, x ∈ l -> f x = g x) -> List.map f l = List.map g l.
Proof.
  induction l as [|x l IH]; intros H; cbn [List.map]; [reflexivity|].
  rewrite (H x) by left. rewrite IH; [reflexivity|]. intros y Hy. apply H. right. exact Hy.
Qed.

Lemma elem_of_filter_list {A} (f : A -> bool) (l : list A) x :
  x ∈ List.filter f l -> x ∈ l.
Proof.
  induction l as [|y l IH]; cbn [List.filter]; [intros H; exact H|].
  destruct (f y); [|intros H; right; apply IH, H].
  intros H. apply elem_of_cons in H as [->|H]; [left | right; apply IH, H].
Qed.

Lemma wiki_no_image (sh : Sheet) :
  (forall row_data cell_value image_path,
     row_data ∈ sheet_data sh -> cell_value ∈ row_data ->
     image_path ∈ extract_image_paths cell_value -> file_exists image_path = false) ->
  get_wiki_content file_exists basename sh
  = _export_wiki_sync sh
    ++ ([LF] ++ lit "h3. 图片文件" ++ [LF])
    ++ (lit "请将以下图片文件上传到Confluence页面的附件中：" ++ [LF; LF]).
Proof.
  intros H. rewrite get_wiki_content_eq, export_wiki_sync_eq.
  assert (Hc : collect_image_files file_exists basename (sheet_data sh) = ∅).
  { apply elem_of_equiv_empty_L. intros f Hf.
    apply collect_image_files_spec in Hf. destruct Hf as (r & v & p & Hr & Hv & Hp & He & _).
    rewrite (H r v p Hr Hv Hp) in He. discriminate He. }
  rewrite Hc. unfold sorted. rewrite elements_empty. cbn [merge_sort List.map List.concat].
  assert (Hm : List.map (table_row (cell_markup file_exists basename))
                 (List.filter (existsb truthy) (sheet_data sh))
               = List.map (table_row cell_text)
                   (List.filter (existsb truthy) (sheet_data sh))).
  { apply map_agree. intros r Hr. apply elem_of_filter_list in Hr.
    rewrite !table_row_cells. do 3 f_equal. apply map_agree.
    intros v Hv. apply cell_markup_no_image. intros p Hp. exact (H r v p Hr Hv Hp). }
  rewrite Hm, app_nil_r, <- !app_assoc. reflexivity.
Qed.

(** X14: when no image path written in the grid names an existing file,
    the rendered wiki text is the packaged wiki text followed by the two
    fixed lines about attachments, with no file listed after them. *)
Theorem wiki_texts_agree_without_images (sh : Sheet) :
  (forall row_data cell_value image_path,
     row_data ∈ sheet_data sh -> cell_value ∈ row_data ->
     image_path ∈ extract_image_paths cell_value -> file_exists image_path = false) ->
  get_wiki_content file_exists basename sh
  = _export_wiki_sync sh
    ++ ([LF] ++ lit "h3. 图片文件" ++ [LF])
    ++ (lit "请将以下图片文件上传到Confluence页面的附件中：" ++ [LF; LF]).
Proof. apply wiki_no_image. Qed.

End WikiTexts.

Lemma wiki_texts_agree_without_images_witness :
  let sh := {| sheet_data := [[Some (lit "seen [IMG] assets/gone.png"); None]];
               sheet_headers := [lit "A"; lit "B"] |} in
  get_wiki_content (fun p => bool_decide (p = lit "assets/kept.png")) Posix.basename sh
  = _export_wiki_sync sh
    ++ ([LF] ++ lit "h3. 图片文件" ++ [LF])
    ++ (lit "请将以下图片文件上传到Confluence页面的附件中：" ++ [LF; LF]).
Proof.
  intros sh.
  apply (wiki_texts_agree_without_images
           (fun p => bool_decide (p = lit "assets/kept.png")) Posix.basename sh).
  intros row_data cell_value image_path Hr Hv Hp.
  apply list_elem_of_singleton in Hr. subst row_data.
  apply elem_of_cons in Hv as [->|Hv].
  - vm_compute in Hp. apply list_elem_of_singleton in Hp. subst image_path.
    vm_compute. reflexivity.
  - apply list_elem_of_singleton in Hv. subst cell_value.
    vm_compute in Hp. apply elem_of_nil in Hp. contradiction.
Defined.

(** ** Lines of the packaged table *)

Lemma replace_free old new s : old ∉ new -> old ∉ replace old new s.
Proof.
  intros Hn. induction s as [|c r IH]; cbn [replace]; [apply not_elem_of_nil|].
  destruct (N.eqb_spec c old) as [->|Hne].
  - rewrite elem_of_app. tauto.
  - rewrite elem_of_cons. intros [E|E]; [congruence | contradiction].
Qed.

Lemma cell_text_one_line cell_value : LF ∉ cell_text cell_value.
Proof.
  unfold cell_text. destruct (truthy cell_value); [|apply not_elem_of_nil].
  destruct (nonempty _); [|apply not_elem_of_nil].
  apply replace_free. intros H.
  apply elem_of_cons in H as [H|H]; [discriminate H|].
  apply list_elem_of_singleton in H. discriminate H.
Qed.

Lemma join_free (c : char) sep pieces :
  c ∉ sep -> Forall (fun p => c ∉ p) pieces -> c ∉ join sep pieces.
Proof.
  intros Hs H. induction H as [|p ps Hp Hps IH]; [apply not_elem_of_nil|].
  cbn [join]. destruct ps as [|q ps]; [exact Hp|].
  rewrite !elem_of_app. tauto.
Qed.

(** X15: in the packaged wiki text no cell contains a line break, as
    every line break of the cleaned cell text is written as two
    backslashes; so each data row is one line, ended by its only line
    break. *)
Theorem packaged_row_is_one_line (row_data : list cell) :
  (forall cell_value, LF ∉ cell_text cell_value)
  /\ exists line, table_row cell_text row_data = line ++ [LF] /\ LF ∉ line.
Proof.
  split; [apply cell_text_one_line|].
  exists (lit "|" ++ join (lit "|") (List.map cell_text row_data) ++ lit "|").
  rewrite table_row_cells, <- !app_assoc. split; [reflexivity|].
  assert (Hbar : LF ∉ lit "|").
  { change (lit "|") with [124]. intros H. apply list_elem_of_singleton in H.
    discriminate H. }
  rewrite !elem_of_app. intros [H|[H|H]]; [exact (Hbar H)| |exact (Hbar H)].
  revert H. apply join_free; [exact Hbar|].
  apply Forall_forall. intros p Hp. apply list_elem_of_fmap in Hp as (v & -> & _).
  apply cell_text_one_line.
Qed.

(** ** The exported package *)

Ltac world_fields := cbn [store outside sheet current_file reports ticks].

Section ExportContent.

Variable relpath : str -> str.
Variable xlsx_of : list str -> list (list cell) -> list (nat * nat * list N * nat) -> list N.
Variable zip_of : list (list N * list N) -> list N.
Variable env : Env.
Variable assets_dir filename : str.

Lemma write_outside_ok path bytes w :
  write_error env path = None ->
  write_outside env path bytes w
  = (inr tt, {| store := store w; outside := <[path := bytes]> (outside w); sheet := sheet w;
                current_file := current_file w; reports := reports w; ticks := ticks w |}).
Proof. intros H. unfold write_outside. rewrite H. reflexivity. Qed.

Lemma zip_add_ok entries arcname bytes w :
  write_error env filename = None ->
  zip_add zip_of env filename entries arcname bytes w
  = (inr (entries ++ [(arcname, bytes)]),
     {| store := store w;
        outside := <[filename := zip_of (entries ++ [(arcname, bytes)])]> (outside w);
        sheet := sheet w; current_file := current_file w; reports := reports w;
        ticks := ticks w |}).
Proof.
  intros H. unfold zip_add. rewrite run_bind_eq, write_outside_ok by exact H. reflexivity.
Qed.

Lemma zip_add_all_ok files : forall entries w,
  write_error env filename = None ->
  outside w !! filename = Some (zip_of entries) ->
  exists w1,
    zip_add_all relpath zip_of env filename assets_dir files entries w
    = (inr (entries ++ List.map (fun '(file, bytes) =>
                                   (relpath (Posix.join assets_dir file), bytes)) files), w1)
    /\ same_world w w1 /\ ticks w1 = ticks w
    /\ outside w1 !! filename
       = Some (zip_of (entries ++ List.map (fun '(file, bytes) =>
                                   (relpath (Posix.join assets_dir file), bytes)) files))
    /\ forall p, p <> filename -> outside w1 !! p = outside w !! p.
Proof.
  induction files as [|[file bytes] files IH]; intros entries w Hw Ho.
  - exists w. cbn [zip_add_all List.map]. rewrite app_nil_r.
    split; [reflexivity|]. split; [repeat split|]. split; [reflexivity|].
    split; [exact Ho | reflexivity].
  - cbn [zip_add_all List.map]. rewrite run_bind_eq, zip_add_ok by exact Hw.
    match goal with |- context [zip_add_all _ _ _ _ _ files ?es ?w0] =>
      destruct (IH es w0 Hw) as (w1 & E & (Ha & Hb & Hc & Hd) & Ht & Hf & Hp) end.
    { cbn [outside]. apply lookup_insert_eq. }
    exists w1. rewrite E, <- app_assoc. cbn [app].
    split; [reflexivity|]. split; [repeat split; assumption|]. split; [exact Ht|].
    split; [rewrite Hf, <- app_assoc; reflexivity|].
    intros p Hne. rewrite Hp by exact Hne. cbn [outside].
    apply lookup_insert_ne. congruence.
Qed.

Lemma get_world_eq w : get_world w = (inr w, w).
Proof. reflexivity. Qed.

Lemma remove_outside_eq path w :
  remove_outside path w
  = (inr tt, {| store := store w; outside := delete path (outside w); sheet := sheet w;
                current_file := current_file w; reports := reports w; ticks := ticks w |}).
Proof. reflexivity. Qed.

Lemma report_eq r w :
  report r w
  = (inr tt, {| store := store w; outside := outside w; sheet := sheet w;
                current_file := current_file w; reports := reports w ++ [r];
                ticks := ticks w |}).
Proof. reflexivity. Qed.

Lemma export_package_run (w : World) :
  write_error env filename = None ->
  write_error env (lit "temp_export.xlsx") = None ->
  write_error env (lit "temp_export.txt") = None ->
  exists w1,
    same_world w w1
    /\ outside w1 !! filename
       = Some (zip_of (List.map (fun '(file, bytes) =>
                                   (relpath (Posix.join assets_dir file), bytes))
                         (map_to_list (store w))))
    /\ (forall p, p <> filename -> outside w1 !! p = outside w !! p)
    /\ export_package relpath xlsx_of zip_of env assets_dir filename w
       = (inr tt,
          {| store := store w1;
             outside :=
               delete (lit "temp_export.txt")
                 (<[filename :=
                      zip_of (List.map (fun '(file, bytes) =>
                                          (relpath (Posix.join assets_dir file), bytes))
                                (map_to_list (store w))
                              ++ [(lit "表格数据.xlsx",
                                   xlsx_of (sheet_headers (sheet w)) (sheet_data (sheet w)) []);
                                  (lit "表格数据_wiki.txt", _export_wiki_sync (sheet w))])]>
                    (<[lit "temp_export.txt" := _export_wiki_sync (sheet w)]>
                       (delete (lit "temp_export.xlsx")
                          (<[filename :=
                               zip_of (List.map (fun '(file, bytes) =>
                                          (relpath (Posix.join assets_dir file), bytes))
                                         (map_to_list (store w))
                                       ++ [(lit "表格数据.xlsx",
                                            xlsx_of (sheet_headers (sheet w))
                                              (sheet_data (sheet w)) [])])]>
                             (<[lit "temp_export.xlsx" :=
                                  xlsx_of (sheet_headers (sheet w)) (sheet_data (sheet w)) []]>
                                (outside w1))))));
             sheet := sheet w1; current_file := current_file w1;
             reports := (reports w1 ++ [InfoExported]) ++ [StatusExported];
             ticks := ticks w1 |}).
Proof.
  intros Hf Hx Ht.
  destruct (zip_add_all_ok (map_to_list (store w)) []
              {| store := store w; outside := <[filename := zip_of []]> (outside w);
                 sheet := sheet w; current_file := current_file w; reports := reports w;
                 ticks := ticks w |} Hf)
    as (w1 & E & (Ha & Hb & Hc & Hd) & Hk & Hz & Hp).
  { cbn [outside]. apply lookup_insert_eq. }
  cbn [app sheet current_file reports store outside] in *.
  exists w1. split; [repeat split; assumption|]. split; [exact Hz|].
  split.
  { intros p Hne. rewrite Hp by exact Hne. apply lookup_insert_ne. congruence. }
  unfold export_package, try_except.
  rewrite run_bind_eq, write_outside_ok by exact Hf. cbv beta iota.
  rewrite run_bind_eq, get_world_eq. cbv beta iota. world_fields.
  rewrite run_bind_eq, E. cbv beta iota.
  unfold _save_excel_sync.
  rewrite run_bind_eq, run_bind_eq, get_world_eq. cbv beta iota.
  rewrite write_outside_ok by exact Hx. cbv beta iota. world_fields.
  rewrite run_bind_eq, zip_add_ok by exact Hf. cbv beta iota. world_fields.
  rewrite run_bind_eq, remove_outside_eq. cbv beta iota. world_fields.
  rewrite run_bind_eq, write_outside_ok by exact Ht. cbv beta iota. world_fields.
  rewrite run_bind_eq, zip_add_ok by exact Hf. cbv beta iota. world_fields.
  rewrite run_bind_eq, remove_outside_eq. cbv beta iota. world_fields.
  rewrite run_bind_eq, report_eq. cbv beta iota. world_fields.
  rewrite report_eq. world_fields.
  rewrite Ha, <- !app_assoc. reflexivity.
Qed.

Lemma export_package_ok (w : World) :
  write_error env filename = None ->
  write_error env (lit "temp_export.xlsx") = None ->
  write_error env (lit "temp_export.txt") = None ->
  filename <> lit "temp_export.xlsx" ->
  filename <> lit "temp_export.txt" ->
  let run := export_package relpath xlsx_of zip_of env assets_dir filename w in
  fst run = inr tt
  /\ reports (snd run) = reports w ++ [InfoExported; StatusExported]
  /\ outside (snd run) !! filename
     = Some (zip_of (List.map (fun '(file, bytes) =>
                                 (relpath (Posix.join assets_dir file), bytes))
                       (map_to_list (store w))
                     ++ [(lit "表格数据.xlsx",
                          xlsx_of (sheet_headers (sheet w)) (sheet_data (sheet w)) []);
                         (lit "表格数据_wiki.txt", _export_wiki_sync (sheet w))]))
  /\ outside (snd run) !! lit "temp_export.xlsx" = None
  /\ outside (snd run) !! lit "temp_export.txt" = None
  /\ forall p, p <> filename -> p <> lit "temp_export.xlsx" -> p <> lit "temp_export.txt" ->
       outside (snd run) !! p = outside w !! p.
Proof.
  intros Hf Hx Ht Hnx Hnt.
  destruct (export_package_run w Hf Hx Ht) as (w1 & (Ha & Hb & Hc & Hd) & Hz & Hp & E).
  assert (Hxt : lit "temp_export.txt" <> lit "temp_export.xlsx")
    by (vm_compute; discriminate).
  cbv zeta. rewrite E. clear E. cbn [fst snd reports outside].
  split; [reflexivity|].
  split; [rewrite Hc, <- app_assoc; reflexivity|].
  split; [rewrite lookup_delete_ne by congruence; apply lookup_insert_eq|].
  split.
  { rewrite lookup_delete_ne by exact Hxt.
    rewrite lookup_insert_ne by exact Hnx.
    rewrite lookup_insert_ne by exact Hxt.
    apply lookup_delete_eq. }
  split; [apply lookup_delete_eq|].
  intros p H1 H2 H3.
  rewrite lookup_delete_ne by congruence. rewrite lookup_insert_ne by congruence.
  rewrite lookup_insert_ne by congruence. rewrite lookup_delete_ne by congruence.
  rewrite lookup_insert_ne by congruence. rewrite lookup_insert_ne by congruence.
  apply Hp, H1.
Qed.


End ExportContent.


(** ** The column named in a status message *)

(** X17: the expression [generate_column_headers(column + 1)[column]],
    by which the status messages name a column, is always in range, and
    for a column of the grid it is the header shown for that column. *)
Theorem status_column_name (column : nat) (total_columns : Z) :
  (Z.of_nat column < total_columns)%Z ->
  exists name,
    generate_column_headers (Z.of_nat column + 1) !! column = Some name
    /\ generate_column_headers total_columns !! column = Some name.
Proof.
  intros H. exists (column_header (N.of_nat column)).
  rewrite !generate_column_headers_map.
  split; apply list_lookup_fmap_Some; exists column; (split; [reflexivity|]);
    apply lookup_seq; (split; [reflexivity | lia]).
Qed.

Lemma status_column_name_witness :
  generate_column_headers 27 !! 26%nat = Some (lit "AA")
  /\ generate_column_headers 30 !! 26%nat = Some (lit "AA").
Proof.
  assert (H : (Z.of_nat 26 < 30)%Z) by lia.
  destruct (status_column_name 26 30 H) as (name & H1 & H2).
  assert (E : name = lit "AA").
  { change (Z.of_nat 26 + 1)%Z with 27%Z in H1.
    assert (E' : generate_column_headers 27 !! 26%nat = Some (lit "AA"))
      by (vm_compute; reflexivity).
    congruence. }
  subst name. exact (conj H1 H2).
Defined.

(** ** Importing a package *)

Section ImportPackage.

Variable clock : nat -> str.
Variable filename : str.

Lemma import_package_eq archive :
  import_package clock filename archive =
  try_except
    (match archive with
     | None => raise (BadArchive filename)
     | Some x =>
       match excel_files x with
       | [] => report ErrNoExcelInArchive
       | excel_file :: _ =>
         (match assets_dirs x with
          | assets_src_dir :: _ => sync_from clock (x_tree x) assets_src_dir
          | [] => mret tt
          end) ≫= fun _ =>
         _load_from_excel_file clock (x_tree x) excel_file ≫= fun _ =>
         report InfoImported ≫= fun _ =>
         report StatusImported
       end
     end)
    (fun e => report (ErrImportFailed e)).
Proof. reflexivity. Qed.

(** X18: an archive that cannot be unpacked, or that holds no file named
    [.xlsx] or [.xls], is refused with one error report; nothing else
    changes: the store, the document, the files outside and the clock are
    as before. *)
Theorem import_package_refused (archive : option Extracted) (w : World) :
  match archive with
  | None => True
  | Some x => excel_files x = []
  end ->
  import_package clock filename archive w
  = (inr tt,
     {| store := store w; outside := outside w; sheet := sheet w;
        current_file := current_file w;
        reports := reports w ++ [match archive with
                                 | None => ErrImportFailed (BadArchive filename)
                                 | Some _ => ErrNoExcelInArchive
                                 end];
        ticks := ticks w |}).
Proof.
  intros H. rewrite import_package_eq. unfold try_except.
  destruct archive as [x|]; [rewrite H|]; reflexivity.
Qed.

Lemma load_fails env excel_file w :
  negb (pandas_available env) || negb (openpyxl_available env) = true
  \/ read_excel env excel_file = None ->
  exists err,
    is_error err = true
    /\ _load_from_excel_file clock env excel_file w
       = (inr tt,
          {| store := store w; outside := outside w; sheet := sheet w;
             current_file := current_file w; reports := reports w ++ [err];
             ticks := ticks w |}).
Proof.
  intros H. unfold _load_from_excel_file.
  destruct (negb (pandas_available env) || negb (openpyxl_available env)) eqn:El.
  { exists ErrMissingLibraries. split; reflexivity. }
  destruct H as [H|H]; [discriminate H|].
  unfold try_except. rewrite run_bind_eq, H.
  eexists. split; [|reflexivity]. reflexivity.
Qed.

Lemma import_after_failed_load x excel_file rest w w1 :
  excel_files x = excel_file :: rest ->
  match assets_dirs x with
  | assets_src_dir :: _ => sync_from clock (x_tree x) assets_src_dir w
  | [] => (inr tt, w)
  end = (inr tt, w1) ->
  negb (pandas_available (x_tree x)) || negb (openpyxl_available (x_tree x)) = true
  \/ read_excel (x_tree x) excel_file = None ->
  exists err,
    is_error err = true
    /\ import_package clock filename (Some x) w
       = (inr tt,
          {| store := store w1; outside := outside w1; sheet := sheet w1;
             current_file := current_file w1;
             reports := reports w1 ++ [err; InfoImported; StatusImported];
             ticks := ticks w1 |}).
Proof.
  intros He Hs Hl. destruct (load_fails (x_tree x) excel_file w1 Hl) as (err & Herr & E).
  exists err. split; [exact Herr|].
  rewrite import_package_eq. unfold try_except. rewrite He, run_bind_eq.
  replace ((match assets_dirs x with
            | [] => mret ()
            | assets_src_dir :: _ => sync_from clock (x_tree x) assets_src_dir
            end) w) with (inr (A := Exn) tt, w1)
    by (rewrite <- Hs; destruct (assets_dirs x); reflexivity).
  cbv beta iota. rewrite run_bind_eq, E. cbv beta iota.
  rewrite run_bind_eq, !report_eq.
  cbn [store outside sheet current_file reports ticks].
  rewrite <- !app_assoc. reflexivity.
Qed.

(** X19: when the workbook of an unpacked archive cannot be loaded (a
    library is missing or the file cannot be read as a workbook) after
    the assets were copied, [import_package] reports the error of the
    load and then reports success all the same; the document is not
    replaced, and the copied assets stay in the store. *)
Theorem import_reports_success_after_failed_load
    (x : Extracted) (excel_file : str) (rest : list str) (w w1 : World) :
  excel_files x = excel_file :: rest ->
  match assets_dirs x with
  | assets_src_dir :: _ => sync_from clock (x_tree x) assets_src_dir w
  | [] => (inr tt, w)
  end = (inr tt, w1) ->
  negb (pandas_available (x_tree x)) || negb (openpyxl_available (x_tree x)) = true
  \/ read_excel (x_tree x) excel_file = None ->
  let run := import_package clock filename (Some x) w in
  fst run = inr tt
  /\ (exists err, is_error err = true
        /\ reports (snd run) = reports w ++ [err; InfoImported; StatusImported])
  /\ same_document w (snd run)
  /\ store (snd run) = store w1.
Proof.
  intros He Hs Hl. cbv zeta.
  destruct (import_after_failed_load x excel_file rest w w1 He Hs Hl) as (err & Herr & E).
  rewrite E. cbn [fst snd reports store].
  assert (Hq : same_document w w1 /\ reports w1 = reports w).
  { destruct (assets_dirs x) as [|d ?].
    - injection Hs as <-. repeat split.
    - pose proof (quiet_sync_from clock (x_tree x) d w) as Hq. rewrite Hs in Hq. exact Hq. }
  destruct Hq as (Hd & Hr).
  split; [reflexivity|]. split; [exists err; rewrite Hr; split; [exact Herr | reflexivity]|].
  split; [exact Hd | reflexivity].
Qed.

End ImportPackage.

Lemma import_package_refused_witness :
  let x := {| x_tree := two_pictures;
              x_walk := [(lit "/tmp/x", [lit "assets"], [lit "readme.txt"]);
                         (lit "/tmp/x/assets", [], [lit "pic.png"])] |} in
  reports (snd (import_package (fun _ => lit "20250101_120000") (lit "/in/pack.zip")
                  (Some x) empty_world))
  = [ErrNoExcelInArchive].
Proof.
  intros x.
  assert (H : excel_files x = []) by (vm_compute; reflexivity).
  rewrite (import_package_refused (fun _ => lit "20250101_120000") (lit "/in/pack.zip")
             (Some x) empty_world H).
  reflexivity.
Defined.

Lemma import_reports_success_after_failed_load_witness :
  let run := import_package (fun _ => lit "20250101_120000") (lit "/in/pack.zip")
               (Some broken_package) empty_world in
  reports (snd run)
  = [ErrOpenFailed (BadSpreadsheet (lit "/tmp/x/book.xlsx")); InfoImported; StatusImported]
  /\ store (snd run) = {[ lit "pic.png" := lit "bytes" ]}.
Proof.
  intros run.
  assert (He : excel_files broken_package = [lit "/tmp/x/book.xlsx"])
    by (vm_compute; reflexivity).
  assert (Hs : match assets_dirs broken_package with
               | assets_src_dir :: _ =>
                 sync_from (fun _ => lit "20250101_120000") (x_tree broken_package)
                   assets_src_dir empty_world
               | [] => (inr tt, empty_world)
               end
               = (inr tt, snd (sync_from (fun _ => lit "20250101_120000")
                                 (x_tree broken_package) (lit "/tmp/x/assets") empty_world)))
    by (vm_compute; reflexivity).
  assert (Hl : negb (pandas_available (x_tree broken_package))
               || negb (openpyxl_available (x_tree broken_package)) = true
               \/ read_excel (x_tree broken_package) (lit "/tmp/x/book.xlsx") = None)
    by (right; reflexivity).
  destruct (import_reports_success_after_failed_load (fun _ => lit "20250101_120000")
              (lit "/in/pack.zip") broken_package (lit "/tmp/x/book.xlsx") [] empty_world _
              He Hs Hl) as (_ & _ & _ & Hst).
  split; [vm_compute; reflexivity|].
  fold run in Hst. rewrite Hst. vm_compute. reflexivity.
Defined.

(** ** Saving again *)

Section SaveAgain.

Variable xlsx_of : list str -> list (list cell) -> list (nat * nat * list N * nat) -> list N.
Variable image_ok : list N -> bool.
Variable env : Env.
Variable assets_dir : str.

Lemma save_as_run filename w :
  exists w1,
    _save_to_excel_file xlsx_of image_ok env assets_dir filename w = (inr tt, w1)
    /\ save_as_excel_file xlsx_of image_ok env assets_dir filename w
       = (inr tt, {| store := store w1; outside := outside w1; sheet := sheet w1;
                     current_file := Some filename; reports := reports w1;
                     ticks := ticks w1 |}).
Proof.
  pose proof (save_to_excel_file_outcome xlsx_of image_ok env assets_dir filename w)
    as [Hf _].
  unfold save_as_excel_file. rewrite run_bind_eq.
  destruct (_save_to_excel_file xlsx_of image_ok env assets_dir filename w) as [[e|[]] w1];
    [discriminate Hf|].
  exists w1. split; reflexivity.
Qed.

(** X20: [save_as_excel_file] binds the document to the chosen file in
    every run, also when writing it failed; the next [save_excel_file]
    then does not ask for a name and saves to that file. *)
Theorem save_as_binds_path (filename asked : str) (w : World) :
  nonempty filename = true ->
  let run := save_as_excel_file xlsx_of image_ok env assets_dir filename w in
  fst run = inr tt
  /\ current_file (snd run) = Some filename
  /\ save_excel_file xlsx_of image_ok env assets_dir asked (snd run)
     = _save_to_excel_file xlsx_of image_ok env assets_dir filename (snd run).
Proof.
  intros Hn. cbv zeta. destruct (save_as_run filename w) as (w1 & _ & E). rewrite E.
  cbn [fst snd current_file]. split; [reflexivity|]. split; [reflexivity|].
  unfold save_excel_file. cbn [current_file truthy str_of]. rewrite Hn. reflexivity.
Qed.

End SaveAgain.

Lemma save_as_binds_path_witness :
  let env := {| stat := fun _ => None; listdir := fun _ => [];
                read_excel := fun _ => None;
                write_error := fun p => Some (PermissionDenied p);
                pandas_available := true; openpyxl_available := true;
                xlsxwriter_available := true |} in
  let run := save_as_excel_file (fun _ _ _ => []) (fun _ => true) env
               (lit "assets") (lit "/ro/book.xlsx") empty_world in
  current_file (snd run) = Some (lit "/ro/book.xlsx")
  /\ reports (snd (save_excel_file (fun _ _ _ => []) (fun _ => true) env
                     (lit "assets") (lit "/home/other.xlsx") (snd run)))
     = [ErrSaveFailed (PermissionDenied (lit "/ro/book_assets"));
        ErrSaveFailed (PermissionDenied (lit "/ro/book_assets"))].
Proof.
  intros env run.
  assert (Hn : nonempty (lit "/ro/book.xlsx") = true) by reflexivity.
  destruct (save_as_binds_path (fun _ _ _ => []) (fun _ => true) env (lit "assets")
              (lit "/ro/book.xlsx") (lit "/home/other.xlsx") empty_world Hn)
    as (_ & Hc & Hs).
  split; [exact Hc|].
  fold run in Hs. rewrite Hs. vm_compute. reflexivity.
Defined.

(** ** The folder written beside a workbook *)

Lemma drop_while_app_all p l1 l2 :
  Forall (fun c => p c = true) l1 -> drop_while p (l1 ++ l2) = drop_while p l2.
Proof.
  intros H. induction H as [|c l Hc Hl IH]; [reflexivity|].
  cbn [app drop_while]. rewrite Hc. exact IH.
Qed.

Lemma basename_plain p : Forall (fun c => Posix.not_sep c = true) (Posix.basename p).
Proof. unfold Posix.basename. apply Forall_rev', take_while_all. Qed.

Lemma splitext_stem_plain p :
  Forall (fun c => Posix.not_sep c = true) p ->
  Forall (fun c => Posix.not_sep c = true) (fst (Posix.splitext p)).
Proof.
  intros H. unfold Posix.splitext.
  pose proof (take_drop_while Posix.not_dot (rev p)) as Htd.
  destruct (drop_while Posix.not_dot (rev p)) as [|d stem]; [exact H|].
  destruct (_ && _); [|exact H]. cbn [fst].
  apply Forall_rev'. apply Forall_rev' in H. rewrite <- Htd in H.
  apply Forall_app in H as [_ H]. apply Forall_cons in H as [_ H]. exact H.
Qed.

Lemma plain_not_absolute s :
  Forall (fun c => Posix.not_sep c = true) s -> starts_with [SLASH] s = false.
Proof.
  intros H. destruct H as [|c s Hc _]; [reflexivity|].
  unfold starts_with. cbn [strip_prefix]. unfold Posix.not_sep in Hc.
  apply negb_true_iff in Hc. rewrite N.eqb_sym, Hc. reflexivity.
Qed.

Lemma sibling_shape filename :
  exists X,
    Posix.join (Posix.dirname filename)
      (fst (Posix.splitext (Posix.basename filename)) ++ lit "_assets")
    = X ++ lit "_assets"
    /\ (length (Posix.dirname filename) <= length X)%nat.
Proof.
  pose proof (splitext_stem_plain _ (basename_plain filename)) as Hb.
  set (base := fst (Posix.splitext (Posix.basename filename))) in *.
  unfold Posix.join.
  assert (Hs : starts_with [SLASH] (base ++ lit "_assets") = false).
  { destruct Hb as [|c s Hc Hs]; [reflexivity|].
    apply (plain_not_absolute (c :: s ++ lit "_assets")). constructor; [exact Hc|].
    apply Forall_app. split; [exact Hs|]. change (lit "_assets") with [95;97;115;115;101;116;115].
    repeat constructor. }
  rewrite Hs. destruct (_ || _).
  - exists (Posix.dirname filename ++ base). rewrite <- app_assoc. split; [reflexivity|].
    rewrite length_app. lia.
  - exists (Posix.dirname filename ++ [SLASH] ++ base). rewrite <- !app_assoc.
    split; [reflexivity|]. rewrite !length_app. lia.
Qed.

Lemma join_plain X file :
  Forall (fun c => Posix.not_sep c = true) file ->
  Posix.join (X ++ lit "_assets") file = (X ++ lit "_assets") ++ [SLASH] ++ file.
Proof.
  intros H. unfold Posix.join. rewrite (plain_not_absolute file H).
  change (lit "_assets") with [95;97;115;115;101;116;115].
  assert (Hn : nonempty (X ++ [95;97;115;115;101;116;115]) = true)
    by (destruct X; reflexivity).
  assert (He : Posix.ends_with [SLASH] (X ++ [95;97;115;115;101;116;115]) = false).
  { unfold Posix.ends_with. rewrite rev_app_distr. reflexivity. }
  rewrite Hn, He. reflexivity.
Qed.

Lemma dirname_join_plain X file :
  Forall (fun c => Posix.not_sep c = true) file ->
  Posix.dirname ((X ++ lit "_assets") ++ [SLASH] ++ file) = X ++ lit "_assets".
Proof.
  intros H. unfold Posix.dirname.
  change (lit "_assets") with [95;97;115;115;101;116;115].
  rewrite !rev_app_distr. cbn [rev app]. rewrite <- !app_assoc. cbn [app].
  rewrite drop_while_app_all by (apply Forall_rev', H).
  rewrite (drop_while_head Posix.not_sep SLASH) by reflexivity.
  cbn [forallb Posix.is_sep]. cbn [drop_while].
  change (Posix.is_sep SLASH) with true. change (Posix.is_sep 115) with false.
  cbv iota. cbn [andb]. cbv iota.
  change (115 :: 116 :: 101 :: 115 :: 115 :: 97 :: 95 :: rev X)
    with (rev [95;97;115;115;101;116;115] ++ rev X).
  rewrite <- rev_app_distr. apply rev_involutive.
Qed.

Lemma sibling_target_differs filename file :
  Forall (fun c => Posix.not_sep c = true) file ->
  Posix.join
    (Posix.join (Posix.dirname filename)
       (fst (Posix.splitext (Posix.basename filename)) ++ lit "_assets")) file
  <> filename.
Proof.
  intros H E. destruct (sibling_shape filename) as (X & Hx & Hl).
  rewrite Hx, join_plain in E by exact H.
  pose proof (dirname_join_plain X file H) as Hd. rewrite E in Hd.
  apply (f_equal (@length _)) in Hd. rewrite length_app in Hd.
  change (lit "_assets") with [95;97;115;115;101;116;115] in Hd. cbn [length] in Hd. lia.
Qed.

Section SaveContent.

Variable xlsx_of : list str -> list (list cell) -> list (nat * nat * list N * nat) -> list N.
Variable image_ok : list N -> bool.
Variable env : Env.
Variable assets_dir filename : str.

Lemma copy_out_loop (g : str -> str) (l : list (list N * list N)) : forall w,
  (forall p, write_error env p = None) ->
  NoDup l.*1 ->
  (forall f1 b1 f2 b2, (f1, b1) ∈ l -> (f2, b2) ∈ l -> g f1 = g f2 -> f1 = f2) ->
  exists w1,
    for_each (fun '(file, bytes) => write_outside env (g file) bytes) l w = (inr tt, w1)
    /\ same_world w w1 /\ ticks w1 = ticks w
    /\ (forall file bytes, (file, bytes) ∈ l -> outside w1 !! g file = Some bytes)
    /\ (forall p, (forall file bytes, (file, bytes) ∈ l -> p <> g file) ->
          outside w1 !! p = outside w !! p).
Proof.
  induction l as [|[f b] l IH]; intros w Hw Hnd Hinj.
  - exists w. split; [reflexivity|]. split; [repeat split|]. split; [reflexivity|].
    split; [intros file bytes H; apply elem_of_nil in H; contradiction | reflexivity].
  - cbn [for_each]. rewrite run_bind_eq, write_outside_ok by apply Hw. cbv beta iota.
    cbn [fmap list_fmap fst] in Hnd. apply NoDup_cons in Hnd as [Hf Hnd].
    match goal with |- context [for_each _ l ?w0] =>
      destruct (IH w0 Hw Hnd) as (w1 & E & (Ha & Hb & Hc & Hd) & Ht & Hin & Hout) end.
    { intros f1 b1 f2 b2 H1 H2. apply (Hinj f1 b1 f2 b2); right; assumption. }
    cbn [sheet current_file reports store outside ticks] in *.
    exists w1. split; [exact E|]. split; [repeat split; assumption|]. split; [exact Ht|].
    split.
    + intros file bytes H. apply elem_of_cons in H as [H|H].
      * injection H as -> ->. rewrite Hout; [apply lookup_insert_eq|].
        intros f2 b2 H2 Hg. apply Hf.
        assert (f = f2) by (apply (Hinj f b f2 b2); [left | right; exact H2 | exact Hg]).
        subst f2. apply list_elem_of_fmap. exists (f, b2). split; [reflexivity | exact H2].
      * apply (Hin file bytes H).
    + intros p Hp. rewrite Hout by (intros file bytes H; apply (Hp file bytes); right; exact H).
      apply lookup_insert_ne. intros Hg. apply (Hp f b); [left | symmetry; exact Hg].
Qed.

Lemma save_to_excel_file_run (w : World) :
  xlsxwriter_available env = true ->
  (forall p, write_error env p = None) ->
  (forall file, is_Some (store w !! file) ->
     Forall (fun c => Posix.not_sep c = true) file) ->
  let excel_assets_dir :=
    Posix.join (Posix.dirname filename)
      (fst (Posix.splitext (Posix.basename filename)) ++ lit "_assets") in
  exists w1,
    same_world w w1
    /\ (forall file bytes, store w !! file = Some bytes ->
          outside w1 !! Posix.join excel_assets_dir file = Some bytes)
    /\ (forall p, (forall file, is_Some (store w !! file) ->
                     p <> Posix.join excel_assets_dir file) ->
          outside w1 !! p = outside w !! p)
    /\ _save_to_excel_file xlsx_of image_ok env assets_dir filename w
       = (inr tt,
          {| store := store w1;
             outside :=
               <[filename :=
                   xlsx_of (sheet_headers (sheet w1)) (sheet_data (sheet w1))
                     (thumbnails image_ok
                        (fun p => bool_decide (is_Some (outside w1 !! p)) || path_exists env p)
                        excel_assets_dir (sheet_data (sheet w1)))]> (outside w1);
             sheet := sheet w1; current_file := current_file w1;
             reports := (reports w1 ++ [StatusSaved filename]) ++ [InfoSaved excel_assets_dir];
             ticks := ticks w1 |}).
Proof.
  intros Hx Hw Hplain. cbv zeta.
  destruct (sibling_shape filename) as (X & HX & _).
  set (dir := Posix.join (Posix.dirname filename)
                (fst (Posix.splitext (Posix.basename filename)) ++ lit "_assets")) in *.
  destruct (copy_out_loop (Posix.join dir) (map_to_list (store w)) w Hw)
    as (w1 & E & Hsame & Ht & Hin & Hout).
  { apply NoDup_fst_map_to_list. }
  { intros f1 b1 f2 b2 H1 H2 Hg.
    apply elem_of_map_to_list in H1, H2.
    rewrite HX, !join_plain in Hg by (apply Hplain; eauto).
    apply app_inv_head in Hg. apply app_inv_head in Hg. exact Hg. }
  exists w1. split; [exact Hsame|]. split.
  { intros file bytes H. apply Hin, elem_of_map_to_list, H. }
  split.
  { intros p Hp. apply Hout. intros file bytes H. apply Hp.
    apply elem_of_map_to_list in H. eauto. }
  unfold _save_to_excel_file. rewrite Hx. cbn [negb]. unfold try_except.
  fold dir. rewrite run_bind_eq.
  assert (Hm : makedirs env dir w = (inr tt, w)).
  { unfold makedirs. destruct (path_exists env dir); [reflexivity|]. rewrite Hw. reflexivity. }
  rewrite Hm. cbv beta iota.
  rewrite run_bind_eq, get_world_eq. cbv beta iota.
  rewrite run_bind_eq, E. cbv beta iota.
  rewrite run_bind_eq, get_world_eq. cbv beta iota.
  rewrite run_bind_eq, write_outside_ok by apply Hw. cbv beta iota.
  rewrite run_bind_eq, !report_eq.
  cbn [store outside sheet current_file reports ticks]. reflexivity.
Qed.

(** X21: when the writer library is there, no write fails and the names
    in the store contain no slash, [_save_to_excel_file] succeeds with its
    two success reports; the folder beside the workbook then holds every
    file of the store under its own name, the workbook is written from
    the headers, the grid and the thumbnails, for which every copied file
    counts as present, and no other file has changed. *)
Theorem save_writes_sibling_folder (w : World) :
  xlsxwriter_available env = true ->
  (forall p, write_error env p = None) ->
  (forall file, is_Some (store w !! file) ->
     Forall (fun c => Posix.not_sep c = true) file) ->
  let excel_assets_dir :=
    Posix.join (Posix.dirname filename)
      (fst (Posix.splitext (Posix.basename filename)) ++ lit "_assets") in
  let run := _save_to_excel_file xlsx_of image_ok env assets_dir filename w in
  fst run = inr tt
  /\ reports (snd run) = reports w ++ [StatusSaved filename; InfoSaved excel_assets_dir]
  /\ (forall file bytes, store w !! file = Some bytes ->
        outside (snd run) !! Posix.join excel_assets_dir file = Some bytes)
  /\ (exists present : str -> bool,
        (forall file, is_Some (store w !! file) ->
           present (Posix.join excel_assets_dir file) = true)
        /\ outside (snd run) !! filename
           = Some (xlsx_of (sheet_headers (sheet w)) (sheet_data (sheet w))
                     (thumbnails image_ok present excel_assets_dir (sheet_data (sheet w)))))
  /\ (forall p, p <> filename ->
        (forall file, is_Some (store w !! file) -> p <> Posix.join excel_assets_dir file) ->
        outside (snd run) !! p = outside w !! p).
Proof.
  intros Hx Hw Hplain. cbv zeta.
  destruct (save_to_excel_file_run w Hx Hw Hplain)
    as (w1 & (Ha & Hb & Hc & Hd) & Hin & Hout & E).
  rewrite E. clear E. cbn [fst snd reports outside].
  split; [reflexivity|].
  split; [rewrite Hc, <- app_assoc; reflexivity|].
  split.
  { intros file bytes H. rewrite lookup_insert_ne; [apply (Hin file bytes H)|].
    intros Hf. symmetry in Hf. revert Hf. apply sibling_target_differs, Hplain. eauto. }
  split.
  { eexists. split; [|rewrite lookup_insert_eq, Ha; reflexivity].
    intros file [bytes H]. cbv beta. rewrite (Hin file bytes H).
    rewrite bool_decide_eq_true_2 by eauto. reflexivity. }
  intros p Hp Hq. rewrite lookup_insert_ne by congruence. apply Hout, Hq.
Qed.

End SaveContent.

Lemma save_writes_sibling_folder_witness :
  let w := {| store := {[ lit "pic.png" := lit "bytes" ]}; outside := ∅;
              sheet := {| sheet_data := [[Some (lit "x [IMG] assets/pic.png")]];
                          sheet_headers := [lit "A"] |};
              current_file := None; reports := []; ticks := 0 |} in
  let run := _save_to_excel_file (fun _ _ pictures => List.concat (List.map (fun t => t.1.2) pictures))
               (fun _ => true) two_pictures (lit "assets") (lit "/home/book.xlsx") w in
  fst run = inr tt
  /\ outside (snd run) !! lit "/home/book_assets/pic.png" = Some (lit "bytes")
  /\ outside (snd run) !! lit "/home/book.xlsx" = Some (lit "/home/book_assets/pic.png").
Proof.
  intros w run.
  assert (Hx : xlsxwriter_available two_pictures = true) by reflexivity.
  assert (Hw : forall p, write_error two_pictures p = None) by reflexivity.
  assert (Hp : forall file, is_Some (store w !! file) ->
                 Forall (fun c => Posix.not_sep c = true) file).
  { intros file [b H]. subst w. cbn [store] in H.
    apply lookup_singleton_Some in H as [<- _].
    apply Forall_forall. intros c Hc. vm_compute in Hc.
    repeat (apply elem_of_cons in Hc as [->|Hc]; [reflexivity|]).
    apply elem_of_nil in Hc. contradiction. }
  destruct (save_writes_sibling_folder (fun _ _ pictures => List.concat (List.map (fun t => t.1.2) pictures))
              (fun _ => true) two_pictures (lit "assets") (lit "/home/book.xlsx") w Hx Hw Hp)
    as (Ha & _ & Hb & _ & _).
  split; [exact Ha|]. split.
  - apply (Hb (lit "pic.png") (lit "bytes")). vm_compute. reflexivity.
  - vm_compute. reflexivity.
Defined.

(** ** A successful load *)

Section LoadSuccess.

Variable clock : nat -> str.
Variable env : Env.
Variable filename : str.

Lemma load_grid_sizes headers data :
  length (snd (load_grid headers data)) = Nat.max 100 (length data)
  /\ length (fst (load_grid headers data)) = Nat.max 20 (length headers).
Proof.
  rewrite load_grid_eq. cbv zeta. cbn [fst snd]. split.
  - rewrite length_app, length_map, length_replicate. lia.
  - rewrite generate_column_headers_map, length_map, length_seq. lia.
Qed.

Lemma load_run df w w1 :
  negb (pandas_available env) || negb (openpyxl_available env) = false ->
  read_excel env filename = Some df ->
  let excel_assets_dir :=
    Posix.join (Posix.dirname filename)
      (fst (Posix.splitext (Posix.basename filename)) ++ lit "_assets") in
  (if path_exists env excel_assets_dir then sync_from clock env excel_assets_dir w
   else (inr tt, w)) = (inr tt, w1) ->
  _load_from_excel_file clock env filename w
  = (inr tt,
     {| store := store w1; outside := outside w1;
        sheet := {| sheet_data :=
                      List.map (List.map Some)
                        (snd (load_grid (tbl_headers df) (tbl_rows df)));
                    sheet_headers := fst (load_grid (tbl_headers df) (tbl_rows df)) |};
        current_file := Some filename;
        reports := reports w1
                   ++ (if path_exists env excel_assets_dir
                       then [StatusAssetsImported excel_assets_dir] else [])
                   ++ [StatusOpened filename;
                       InfoOpened (Nat.max 100 (length (tbl_rows df)))
                                  (Nat.max 20 (length (tbl_headers df)))];
        ticks := ticks w1 |}).
Proof.
  intros Hl Hr. cbv zeta. intros Hs.
  destruct (load_grid_sizes (tbl_headers df) (tbl_rows df)) as [Hrows Hcols].
  unfold _load_from_excel_file. rewrite Hl, Hr. unfold try_except.
  rewrite run_bind_eq. change ((mret df : Run Table) w) with (inr (A := Exn) df, w).
  cbv beta iota.
  destruct (load_grid (tbl_headers df) (tbl_rows df)) as [column_headers data].
  cbn [fst snd] in *. rewrite run_bind_eq.
  destruct (path_exists env _).
  - rewrite run_bind_eq, Hs. cbv beta iota. rewrite report_eq. cbv beta iota.
    unfold set_sheet, set_current_file. rewrite !run_bind_eq, !report_eq.
    cbn [store outside sheet current_file reports ticks].
    rewrite Hrows, Hcols, <- !app_assoc. reflexivity.
  - change ((mret tt : Run unit) w) with (inr (A := Exn) tt, w).
    injection Hs as <-. cbv beta iota.
    unfold set_sheet, set_current_file. rewrite !run_bind_eq, !report_eq.
    cbn [store outside sheet current_file reports ticks].
    rewrite Hrows, Hcols, <- !app_assoc. reflexivity.
Qed.

(** X22: a load that can read the workbook, and copy the folder beside
    it when there is one, replaces the document, binds the path, and
    reports the size of the padded grid: at least 100 rows and 20
    columns, whatever the workbook holds. *)
Theorem load_reports_padded_size (df : Table) (w w1 : World) :
  negb (pandas_available env) || negb (openpyxl_available env) = false ->
  read_excel env filename = Some df ->
  let excel_assets_dir :=
    Posix.join (Posix.dirname filename)
      (fst (Posix.splitext (Posix.basename filename)) ++ lit "_assets") in
  (if path_exists env excel_assets_dir then sync_from clock env excel_assets_dir w
   else (inr tt, w)) = (inr tt, w1) ->
  let run := _load_from_excel_file clock env filename w in
  fst run = inr tt
  /\ loaded env filename (snd run)
  /\ store (snd run) = store w1
  /\ reports (snd run)
     = reports w
       ++ (if path_exists env excel_assets_dir
           then [StatusAssetsImported excel_assets_dir] else [])
       ++ [StatusOpened filename;
           InfoOpened (Nat.max 100 (length (tbl_rows df)))
                      (Nat.max 20 (length (tbl_headers df)))].
Proof.
  intros Hl Hr. cbv zeta. intros Hs. rewrite (load_run df w w1 Hl Hr Hs).
  cbn [fst snd store reports]. split; [reflexivity|].
  split; [exists df; repeat split; assumption|]. split; [reflexivity|].
  f_equal. destruct (path_exists env _).
  - pose proof (quiet_sync_from clock env
      (Posix.join (Posix.dirname filename)
         (fst (Posix.splitext (Posix.basename filename)) ++ lit "_assets")) w) as Hq.
    rewrite Hs in Hq. apply Hq.
  - injection Hs as <-. reflexivity.
Qed.

End LoadSuccess.

Lemma load_reports_padded_size_witness :
  let df := {| tbl_headers := [lit "name"]; tbl_rows := [[lit "x"]; [lit "y"]] |} in
  let env := {| stat := fun _ => None; listdir := fun _ => [];
                read_excel := fun _ => Some df;
                write_error := fun _ => None;
                pandas_available := true; openpyxl_available := true;
                xlsxwriter_available := true |} in
  let run := _load_from_excel_file (fun _ => lit "20250101_120000") env
               (lit "/home/book.xlsx") empty_world in
  reports (snd run) = [StatusOpened (lit "/home/book.xlsx"); InfoOpened 100 20]
  /\ current_file (snd run) = Some (lit "/home/book.xlsx").
Proof.
  intros df env run.
  assert (Hl : negb (pandas_available env) || negb (openpyxl_available env) = false)
    by reflexivity.
  assert (Hr : read_excel env (lit "/home/book.xlsx") = Some df) by reflexivity.
  assert (Hs : (if path_exists env
                     (Posix.join (Posix.dirname (lit "/home/book.xlsx"))
                        (fst (Posix.splitext (Posix.basename (lit "/home/book.xlsx")))
                         ++ lit "_assets"))
                then sync_from (fun _ => lit "20250101_120000") env
                       (Posix.join (Posix.dirname (lit "/home/book.xlsx"))
                          (fst (Posix.splitext (Posix.basename (lit "/home/book.xlsx")))
                           ++ lit "_assets")) empty_world
                else (inr tt, empty_world)) = (inr tt, empty_world)) by reflexivity.
  destruct (load_reports_padded_size (fun _ => lit "20250101_120000") env
              (lit "/home/book.xlsx") df empty_world empty_world Hl Hr Hs)
    as (_ & (df' & _ & _ & Hc) & _ & Hrep).
  split; [|exact Hc].
  fold run in Hrep. rewrite Hrep. reflexivity.
Defined.

(** ** The pictures put into a workbook *)

Lemma elem_of_concat {A} (x : A) (ls : list (list A)) :
  x ∈ List.concat ls <-> exists l, x ∈ l /\ l ∈ ls.
Proof.
  induction ls as [|l ls IH]; cbn [List.concat].
  - split; [intros H; apply elem_of_nil in H; contradiction|].
    intros (l & _ & H). apply elem_of_nil in H. contradiction.
  - rewrite elem_of_app, IH. split.
    + intros [H|(l' & H1 & H2)]; [exists l; split; [exact H | left]|].
      exists l'. split; [exact H1 | right; exact H2].
    + intros (l' & H1 & H2). apply elem_of_cons in H2 as [->|H2]; [left; exact H1|].
      right. exists l'. split; assumption.
Qed.

Lemma elem_of_concat_imap {A B} (f : nat -> A -> list B) (l : list A) (x : B) :
  x ∈ List.concat (imap f l) <-> exists i y, l !! i = Some y /\ x ∈ f i y.
Proof.
  rewrite elem_of_concat. split.
  - intros (r & Hx & Hr). apply elem_of_lookup_imap in Hr as (i & y & -> & Hi). eauto.
  - intros (i & y & Hi & Hx). exists (f i y). split; [exact Hx|].
    apply elem_of_lookup_imap. eauto.
Qed.

(** X23: the pictures put into the workbook are exactly these: for the
    [i]-th image path of the cell in grid row [row] and column [col], when
    the file with the path's base name in the folder beside the workbook
    is present and accepted, one picture of that file at sheet row
    [row + 1], column [col], with vertical offset [5 + 50 i]; the offset
    counts the paths that were left out as well. *)
Theorem thumbnails_spec (image_ok present : str -> bool) (excel_assets_dir : str)
    (data : list (list cell)) (t : nat * nat * list N * nat) :
  t ∈ thumbnails image_ok present excel_assets_dir data
  <-> exists row col i row_data cell_value image_path,
        data !! row = Some row_data
        /\ row_data !! col = Some cell_value
        /\ extract_image_paths cell_value !! i = Some image_path
        /\ present (Posix.join excel_assets_dir (Posix.basename image_path)) = true
        /\ image_ok (Posix.join excel_assets_dir (Posix.basename image_path)) = true
        /\ t = (S row, col, Posix.join excel_assets_dir (Posix.basename image_path),
                5 + i * 50)%nat.
Proof.
  unfold thumbnails. rewrite elem_of_concat_imap. split.
  - intros (row & row_data & Hr & H). apply elem_of_concat_imap in H as (col & v & Hc & H).
    destruct (truthy v); [|apply elem_of_nil in H; contradiction].
    apply elem_of_concat_imap in H as (i & p & Hi & H).
    destruct (present _) eqn:Hp; [|apply elem_of_nil in H; contradiction].
    destruct (image_ok _) eqn:Ho; [|apply elem_of_nil in H; contradiction].
    apply list_elem_of_singleton in H. exists row, col, i, row_data, v, p.
    repeat split; assumption.
  - intros (row & col & i & row_data & v & p & Hr & Hc & Hi & Hp & Ho & ->).
    exists row, row_data. split; [exact Hr|]. apply elem_of_concat_imap.
    exists col, v. split; [exact Hc|].
    destruct (truthy v) eqn:Ht.
    + apply elem_of_concat_imap. exists i, p. split; [exact Hi|].
      rewrite Hp, Ho. apply list_elem_of_singleton. reflexivity.
    + unfold extract_image_paths in Hi. rewrite Ht in Hi. discriminate Hi.
Qed.

(** ** The check at start-up *)

Lemma never_refused_quiet {A} (m : Run A) : quiet m -> never_refused m.
Proof. intros Hq w H. destruct (Hq w) as [_ Hr]. rewrite Hr. exact H. Qed.

Lemma never_refused_readonly {A} (m : Run A) : readonly m -> never_refused m.
Proof. intros Hq w H. destruct (Hq w) as (_ & _ & Hr & _). rewrite Hr. exact H. Qed.

Lemma never_refused_bind {A B} (m : Run A) (f : A -> Run B) :
  never_refused m -> (forall a, never_refused (f a)) -> never_refused (m ≫= f).
Proof.
  intros Hm Hf w H. rewrite run_bind_eq. specialize (Hm w H).
  destruct (m w) as [[e|a] w1]; [exact Hm | apply Hf, Hm].
Qed.

Lemma never_refused_try_except body handler :
  never_refused body -> (forall e, never_refused (handler e)) ->
  never_refused (try_except body handler).
Proof.
  intros Hm Hf w H. unfold try_except. specialize (Hm w H).
  destruct (body w) as [[e|a] w1]; [apply Hf, Hm | exact Hm].
Qed.

Lemma never_refused_report r : r <> ErrMissingLibraries -> never_refused (report r).
Proof.
  intros Hr w H. rewrite report_eq. cbn [snd reports]. rewrite elem_of_app.
  intros [H'|H']; [exact (H H')|]. apply list_elem_of_singleton in H'. congruence.
Qed.

Lemma never_refused_unchanged {A} (m : Run A) :
  (forall w, reports (snd (m w)) = reports w) -> never_refused m.
Proof. intros Hm w H. rewrite Hm. exact H. Qed.

Lemma check_dependencies_flags tksheet_available env :
  check_dependencies tksheet_available env = true ->
  tksheet_available = true /\ pandas_available env = true
  /\ xlsxwriter_available env = true /\ openpyxl_available env = true.
Proof.
  unfold check_dependencies, missing_deps.
  destruct tksheet_available, (pandas_available env), (xlsxwriter_available env),
    (openpyxl_available env); cbn; intros H; try discriminate H; repeat split.
Qed.

Lemma never_refused_load clock env filename :
  pandas_available env = true -> openpyxl_available env = true ->
  never_refused (_load_from_excel_file clock env filename).
Proof.
  intros Hp Ho. unfold _load_from_excel_file. rewrite Hp, Ho. cbn [negb orb].
  apply never_refused_try_except; [|intros e; apply never_refused_report; discriminate].
  apply never_refused_bind.
  { apply never_refused_unchanged. intros w. destruct (read_excel env filename); reflexivity. }
  intros df. destruct (load_grid (tbl_headers df) (tbl_rows df)) as [column_headers data].
  apply never_refused_bind.
  { destruct (path_exists env _); [|apply never_refused_unchanged; reflexivity].
    apply never_refused_bind; [apply never_refused_quiet, quiet_sync_from|].
    intros _. apply never_refused_report. discriminate. }
  intros _. apply never_refused_bind; [apply never_refused_unchanged; reflexivity|].
  intros _. apply never_refused_bind; [apply never_refused_unchanged; reflexivity|].
  intros _. apply never_refused_bind; [apply never_refused_report; discriminate|].
  intros _. apply never_refused_report. discriminate.
Qed.

Lemma never_refused_save xlsx_of image_ok env assets_dir filename :
  xlsxwriter_available env = true ->
  never_refused (_save_to_excel_file xlsx_of image_ok env assets_dir filename).
Proof.
  intros Hx. unfold _save_to_excel_file. rewrite Hx. cbn [negb].
  apply never_refused_try_except; [|intros e; apply never_refused_report; discriminate].
  apply never_refused_bind; [apply never_refused_readonly, readonly_makedirs|].
  intros _. apply never_refused_bind; [apply never_refused_readonly, readonly_get_world|].
  intros w0. apply never_refused_bind.
  { apply never_refused_readonly. apply readonly_for_each. intros [file bytes].
    apply readonly_write_outside. }
  intros _. apply never_refused_bind; [apply never_refused_readonly, readonly_get_world|].
  intros w1. apply never_refused_bind; [apply never_refused_readonly, readonly_write_outside|].
  intros _. apply never_refused_bind; [apply never_refused_report; discriminate|].
  intros _. apply never_refused_report. discriminate.
Qed.

(** X24: [check_dependencies] passes exactly when no name is listed as
    missing, and then all four libraries are there; after that neither
    opening nor saving a workbook is ever refused for a missing library.
    The picture library is not part of the check. *)
Theorem startup_check_covers_file_operations
    (tksheet_available : bool) (env : Env) clock xlsx_of image_ok assets_dir filename :
  check_dependencies tksheet_available env = true ->
  missing_deps tksheet_available env = []
  /\ never_refused (_load_from_excel_file clock env filename)
  /\ never_refused (_save_to_excel_file xlsx_of image_ok env assets_dir filename).
Proof.
  intros H. pose proof (check_dependencies_flags _ _ H) as (Ht & Hp & Hx & Ho).
  split; [unfold missing_deps; rewrite Ht, Hp, Hx, Ho; reflexivity|].
  split; [apply never_refused_load; assumption | apply never_refused_save; assumption].
Qed.

Lemma startup_check_covers_file_operations_witness :
  check_dependencies true two_pictures = true
  /\ ErrMissingLibraries
       ∉ reports (snd (_load_from_excel_file (fun _ => lit "20250101_120000") two_pictures
                         (lit "/home/book.xlsx") empty_world)).
Proof.
  assert (H : check_dependencies true two_pictures = true) by reflexivity.
  destruct (startup_check_covers_file_operations true two_pictures
              (fun _ => lit "20250101_120000") (fun _ _ _ => []) (fun _ => true)
              (lit "assets") (lit "/home/book.xlsx") H) as (_ & Hl & _).
  split; [exact H|]. apply Hl. apply not_elem_of_nil.
Defined.

(** ** The names returned by a copy *)

Section CopyResult.

Variable clock : nat -> str.
Variable relpath : str -> str.
Variable env : Env.
Variable assets_dir : str.

Lemma copy_images_loop_ok l : forall acc w,
  (forall p, p ∈ l -> stat env p = None \/ exists bytes, stat env p = Some (File (Some bytes))) ->
  exists w1,
    copy_images_loop clock relpath env assets_dir l acc w
    = (inr (acc ++ imap (fun i image_path =>
                           relpath (Posix.join assets_dir
                             (fst (Posix.splitext (Posix.basename image_path)) ++ lit "_"
                              ++ clock (ticks w + i)
                              ++ snd (Posix.splitext (Posix.basename image_path)))))
                    (List.filter (path_exists env) l)), w1)
    /\ ticks w1 = (ticks w + length (List.filter (path_exists env) l))%nat
    /\ same_document w w1 /\ reports w1 = reports w /\ outside w1 = outside w.
Proof.
  induction l as [|x l IH]; intros acc w H.
  - exists w. cbn [copy_images_loop List.filter imap length]. rewrite app_nil_r, Nat.add_0_r.
    repeat split.
  - assert (Hl : forall p, p ∈ l ->
               stat env p = None \/ exists bytes, stat env p = Some (File (Some bytes)))
      by (intros p Hp; apply H; right; exact Hp).
    cbn [List.filter]. destruct (H x) as [Hx|[bytes Hx]]; [left| |].
    + assert (Hpe : path_exists env x = false) by (unfold path_exists; rewrite Hx; reflexivity).
      cbn [copy_images_loop]. rewrite Hpe. apply IH, Hl.
    + pose proof (copy_images_loop_app clock relpath env assets_dir [x] l acc w) as Ha.
      cbn [app] in Ha. rewrite Ha. clear Ha.
      pose proof (copy_one_image clock relpath env assets_dir x bytes acc w Hx) as E.
      destruct (Posix.splitext (Posix.basename x)) as [name ext] eqn:Es. cbv zeta in E.
      assert (Hpe : path_exists env x = true) by (unfold path_exists; rewrite Hx; reflexivity).
      rewrite E, Hpe. clear E.
      match goal with |- context [copy_images_loop _ _ _ _ l ?acc1 ?w0] =>
        destruct (IH acc1 w0 Hl) as (w1 & E & Ht & (Hd1 & Hd2) & Hr & Ho) end.
      cbn [ticks sheet current_file reports outside] in *.
      exists w1. rewrite E. split.
      { f_equal. rewrite <- app_assoc. cbn [app imap]. rewrite Es, Nat.add_0_r. cbn [fst snd].
        do 3 f_equal. apply imap_ext. intros i p _. cbn.
        replace (ticks w + S i)%nat with (S (ticks w + i)) by lia. reflexivity. }
      split; [cbn [length]; lia|]. split; [split; assumption|]. split; assumption.
Qed.

(** X25: when every given path that exists is a readable file,
    [copy_images_to_assets] succeeds and returns one path for each
    existing file, in the order given: the relative path of the stored
    copy, named by the base name with the time stamp of its own clock
    reading before the extension; the clock is read once per existing
    file, and the document, the reports and the files outside the store
    are left alone. *)
Theorem copy_images_returns_stored_names (image_paths : list str) (w : World) :
  (forall p, p ∈ image_paths ->
     stat env p = None \/ exists bytes, stat env p = Some (File (Some bytes))) ->
  let existing := List.filter (path_exists env) image_paths in
  let run := copy_images_to_assets clock relpath env image_paths assets_dir w in
  fst run
  = inr (imap (fun i image_path =>
                 relpath (Posix.join assets_dir
                   (fst (Posix.splitext (Posix.basename image_path)) ++ lit "_"
                    ++ clock (ticks w + i)
                    ++ snd (Posix.splitext (Posix.basename image_path)))))
           existing)
  /\ ticks (snd run) = (ticks w + length existing)%nat
  /\ same_document w (snd run)
  /\ reports (snd run) = reports w
  /\ outside (snd run) = outside w.
Proof.
  intros H. cbv zeta. unfold copy_images_to_assets.
  destruct (copy_images_loop_ok image_paths [] w H) as (w1 & E & Ht & Hd & Hr & Ho).
  rewrite E. cbn [fst snd app]. repeat split; try assumption; apply Hd.
Qed.

End CopyResult.

Lemma copy_images_returns_stored_names_witness :
  fst (copy_images_to_assets
         (fun n => if Nat.eqb n 0 then lit "20250101_120000" else lit "20250101_120001")
         (fun p => p) two_pictures
         [lit "/a/pic.png"; lit "/gone.png"; lit "/b/pic.png"] (lit "assets") empty_world)
  = inr [lit "assets/pic_20250101_120000.png"; lit "assets/pic_20250101_120001.png"].
Proof.
  assert (H : forall p, p ∈ [lit "/a/pic.png"; lit "/gone.png"; lit "/b/pic.png"] ->
                stat two_pictures p = None
                \/ exists bytes, stat two_pictures p = Some (File (Some bytes))).
  { intros p Hp. repeat (apply elem_of_cons in Hp as [->|Hp]).
    - right. eexists. vm_compute. reflexivity.
    - left. vm_compute. reflexivity.
    - right. eexists. vm_compute. reflexivity.
    - apply elem_of_nil in Hp. contradiction. }
  destruct (copy_images_returns_stored_names
              (fun n => if Nat.eqb n 0 then lit "20250101_120000" else lit "20250101_120001")
              (fun p => p) two_pictures (lit "assets")
              [lit "/a/pic.png"; lit "/gone.png"; lit "/b/pic.png"] empty_world H)
    as (E & _).
  rewrite E. vm_compute. reflexivity.
Defined.

(** ** Cleaning twice *)

Lemma clean_text_content_again (cell_value : cell) :
  has_tag_syntax (clean_text_content cell_value) = false ->
  clean_text_content (Some (clean_text_content cell_value)) = clean_text_content cell_value.
Proof.
  intros H. destruct (clean_text_content_normal cell_value) as (H1 & H2 & H3).
  remember (clean_text_content cell_value) as t eqn:Et. clear Et.
  unfold clean_text_content. cbn [truthy str_of].
  destruct t as [|c t]; [reflexivity|]. cbn [nonempty negb].
  rewrite (sub_untagged _ H), (sub_newlines_id _ H3). apply strip_id; assumption.
Qed.

(** X26: cleaning a cleaned text changes nothing, as long as the cleaned
    text holds no tag; removing a tag can join the pieces of a new one,
    and then the second cleaning removes more. *)
Theorem clean_text_content_idempotent (cell_value : cell) :
  has_tag_syntax (clean_text_content cell_value) = false ->
  clean_text_content (Some (clean_text_content cell_value)) = clean_text_content cell_value
  /\ clean_text_content (Some (lit "[IMG[IMG]x]abc")) = lit "[IMG]abc"
  /\ clean_text_content (Some (clean_text_content (Some (lit "[IMG[IMG]x]abc")))) = [].
Proof.
  intros H. split; [apply clean_text_content_again, H|].
  split; vm_compute; reflexivity.
Qed.

Lemma clean_text_content_idempotent_witness :
  clean_text_content (Some (lit "  two" ++ [LF; LF; LF] ++ lit "lines [IMG] a.png"))
  = lit "two" ++ [LF] ++ lit "lines"
  /\ clean_text_content
       (Some (clean_text_content
                (Some (lit "  two" ++ [LF; LF; LF] ++ lit "lines [IMG] a.png"))))
     = lit "two" ++ [LF] ++ lit "lines".
Proof.
  assert (H : has_tag_syntax
                (clean_text_content
                   (Some (lit "  two" ++ [LF; LF; LF] ++ lit "lines [IMG] a.png"))) = false)
    by (vm_compute; reflexivity).
  destruct (clean_text_content_idempotent _ H) as (E & _).
  rewrite E. split; vm_compute; reflexivity.
Defined.

(** ** An export that fails half-way *)

Section ExportFailure.

Variable relpath : str -> str.
Variable xlsx_of : list str -> list (list cell) -> list (nat * nat * list N * nat) -> list N.
Variable zip_of : list (list N * list N) -> list N.
Variable env : Env.
Variable assets_dir filename : str.

Lemma export_package_stops (w : World) (e : Exn) :
  write_error env filename = None ->
  write_error env (lit "temp_export.xlsx") = Some e ->
  exists w1,
    same_world w w1
    /\ outside w1 !! filename
       = Some (zip_of (List.map (fun '(file, bytes) =>
                                   (relpath (Posix.join assets_dir file), bytes))
                         (map_to_list (store w))))
    /\ (forall p, p <> filename -> outside w1 !! p = outside w !! p)
    /\ export_package relpath xlsx_of zip_of env assets_dir filename w
       = (inr tt,
          {| store := store w1; outside := outside w1; sheet := sheet w1;
             current_file := current_file w1;
             reports := reports w1 ++ [ErrExportFailed e]; ticks := ticks w1 |}).
Proof.
  intros Hf Hx.
  destruct (zip_add_all_ok relpath zip_of env assets_dir filename (map_to_list (store w)) []
              {| store := store w; outside := <[filename := zip_of []]> (outside w);
                 sheet := sheet w; current_file := current_file w; reports := reports w;
                 ticks := ticks w |} Hf)
    as (w1 & E & (Ha & Hb & Hc & Hd) & Hk & Hz & Hp).
  { cbn [outside]. apply lookup_insert_eq. }
  cbn [app sheet current_file reports store outside] in *.
  exists w1. split; [repeat split; assumption|]. split; [exact Hz|].
  split.
  { intros p Hne. rewrite Hp by exact Hne. apply lookup_insert_ne. congruence. }
  unfold export_package, try_except.
  rewrite run_bind_eq, write_outside_ok by exact Hf. cbv beta iota.
  rewrite run_bind_eq, get_world_eq. cbv beta iota. world_fields.
  rewrite run_bind_eq, E. cbv beta iota.
  unfold _save_excel_sync.
  rewrite run_bind_eq, run_bind_eq, get_world_eq. cbv beta iota.
  unfold write_outside at 1. rewrite Hx. cbv beta iota.
  rewrite report_eq. reflexivity.
Qed.


End ExportFailure.


(** ** Several tags in one cell *)

Lemma take_while_app_stop p l c r :
  p c = false -> take_while p (l ++ c :: r) = take_while p l.
Proof.
  intros Hc. induction l as [|x l IH]; cbn [app take_while]; [rewrite Hc; reflexivity|].
  destruct (p x); [f_equal; exact IH | reflexivity].
Qed.

Lemma drop_while_app_stop p l c r :
  p c = false -> drop_while p (l ++ c :: r) = drop_while p l ++ c :: r.
Proof.
  intros Hc. induction l as [|x l IH]; cbn [app drop_while]; [rewrite Hc; reflexivity|].
  destruct (p x); [exact IH | reflexivity].
Qed.

(** One tag with its bracket-free body [b], in front of the next bracket. *)
Lemma tag_then_bracket (tag b v : str) :
  tag = lit "[IMG]" \/ tag = lit "[IMGS]" ->
  Forall (fun c => Re.not_bracket c = true) b ->
  List.concat (List.map paths_of_group
                 (Re.findall Re.tag_with_paths (tag ++ b ++ LBRACK :: v)))
  = paths_of_group b
    ++ List.concat (List.map paths_of_group (Re.findall Re.tag_with_paths (LBRACK :: v)))
  /\ Re.sub Re.tag_any [] (tag ++ b ++ LBRACK :: v) = Re.sub Re.tag_any [] (LBRACK :: v).
Proof.
  intros Htag Hb.
  assert (Hh : Re.tag_head (tag ++ b ++ LBRACK :: v) = Some (b ++ LBRACK :: v))
    by (destruct Htag as [-> | ->]; reflexivity).
  assert (Hsp : is_space LBRACK = false) by reflexivity.
  assert (Hnb : Re.not_bracket LBRACK = false) by reflexivity.
  assert (Hr : Forall (fun c => Re.not_bracket c = true) (drop_while is_space b))
    by (apply drop_while_Forall, Hb).
  split.
  - rewrite findall_paths_unfold. unfold Re.tag_with_paths at 1. rewrite Hh.
    rewrite (take_while_app_stop is_space b LBRACK v Hsp).
    rewrite (drop_while_app_stop is_space b LBRACK v Hsp).
    rewrite (take_while_app_stop Re.not_bracket _ LBRACK v Hnb).
    rewrite (drop_while_app_stop Re.not_bracket _ LBRACK v Hnb).
    rewrite (take_while_id _ _ Hr), (drop_while_nil _ _ Hr). cbn [app].
    rewrite <- (paths_of_group_lstrip b). unfold lstrip.
    destruct (drop_while is_space b) as [|c r] eqn:Ed.
    + destruct (rev (take_while is_space b)) as [|w ws] eqn:Ew.
      * assert (Hw : take_while is_space b = []).
        { apply (f_equal (@rev N)) in Ew. rewrite rev_involutive in Ew. exact Ew. }
        assert (E : b = []).
        { rewrite <- (take_drop_while is_space b), Hw, Ed. reflexivity. }
        subst b. cbn [app].
        destruct Htag as [-> | ->].
        -- change (lit "[IMG]" ++ LBRACK :: v) with (LBRACK :: lit "IMG]" ++ LBRACK :: v).
           cbv iota. rewrite (findall_before_bracket (lit "IMG]") v) by reflexivity.
           reflexivity.
        -- change (lit "[IMGS]" ++ LBRACK :: v) with (LBRACK :: lit "IMGS]" ++ LBRACK :: v).
           cbv iota. rewrite (findall_before_bracket (lit "IMGS]") v) by reflexivity.
           reflexivity.
      * pose proof (take_while_all is_space b) as Hw. apply Forall_rev' in Hw.
        rewrite Ew in Hw. inversion Hw as [|? ? Hw1 _]; subst.
        cbn [List.map List.concat app]. f_equal.
        change [w] with ([w] ++ []).
        apply paths_of_group_space_app. repeat constructor. exact Hw1.
    + cbn [List.map List.concat]. reflexivity.
  - rewrite sub_tags_unfold. unfold Re.tag_any at 1. rewrite Hh.
    rewrite (drop_while_app_stop Re.not_bracket b LBRACK v Hnb).
    rewrite (drop_while_nil _ _ Hb). reflexivity.
Qed.

Lemma tagged_groups (groups : list (str * str)) :
  Forall (fun g => (fst g = lit "[IMG]" \/ fst g = lit "[IMGS]")
                   /\ Forall (fun c => Re.not_bracket c = true) (snd g)) groups ->
  let tagged := List.concat (List.map (fun g => fst g ++ snd g) groups) in
  List.concat (List.map paths_of_group (Re.findall Re.tag_with_paths tagged))
  = List.concat (List.map (fun g => paths_of_group (snd g)) groups)
  /\ Re.sub Re.tag_any [] tagged = []
  /\ (tagged = [] \/ exists v, tagged = LBRACK :: v).
Proof.
  cbv zeta. induction 1 as [|[tag b] gs [Htag Hb] Hgs (IH1 & IH2 & IH3)].
  - repeat split. left. reflexivity.
  - cbn [List.map List.concat fst snd] in *. rewrite <- app_assoc.
    remember (List.concat (List.map (fun g => fst g ++ snd g) gs)) as rest eqn:Er. clear Er.
    split; [|split].
    + destruct IH3 as [-> | [v ->]].
      * rewrite app_nil_r, (extract_tag_rest tag b Htag Hb).
        rewrite <- IH1. change (Re.findall Re.tag_with_paths []) with (@nil (list N)).
        cbn [List.map List.concat]. rewrite app_nil_r. reflexivity.
      * destruct (tag_then_bracket tag b v Htag Hb) as [E _]. rewrite E, IH1. reflexivity.
    + destruct IH3 as [-> | [v ->]].
      * rewrite app_nil_r, sub_tags_unfold. unfold Re.tag_any at 1.
        assert (Hh : Re.tag_head (tag ++ b) = Some b)
          by (destruct Htag as [-> | ->]; reflexivity).
        rewrite Hh, (drop_while_nil _ _ Hb). reflexivity.
      * destruct (tag_then_bracket tag b v Htag Hb) as [_ E]. rewrite E. exact IH2.
    + right. destruct Htag as [-> | ->]; eexists; reflexivity.
Qed.

Lemma decode_tagged_groups (T : str) (groups : list (str * str)) :
  has_tag_syntax T = false ->
  Forall (fun g => (fst g = lit "[IMG]" \/ fst g = lit "[IMGS]")
                   /\ Forall (fun c => Re.not_bracket c = true) (snd g)) groups ->
  decode (Some (T ++ List.concat (List.map (fun g => fst g ++ snd g) groups)))
  = (clean_text_content (Some T),
     List.concat (List.map (fun g => paths_of_group (snd g)) groups)).
Proof.
  intros HT Hg. destruct (tagged_groups groups Hg) as (E1 & E2 & E3). cbv zeta in *.
  remember (List.concat (List.map (fun g => fst g ++ snd g) groups)) as tagged eqn:Et.
  clear Et. rewrite <- E1. clear E1.
  assert (Hc : clean_text_content (Some T) = strip (Re.sub Re.newlines [LF] T)).
  { unfold clean_text_content. cbn [truthy str_of]. destruct T as [|c T']; [reflexivity|].
    cbn [nonempty negb]. rewrite (sub_untagged _ HT). reflexivity. }
  destruct E3 as [-> | [v ->]].
  - rewrite app_nil_r. unfold decode. f_equal.
    destruct T as [|c T']; [reflexivity|].
    rewrite extract_image_paths_eq by reflexivity.
    rewrite (findall_untagged _ HT). reflexivity.
  - assert (Hne : nonempty (T ++ LBRACK :: v) = true) by (destruct T; reflexivity).
    unfold decode. f_equal.
    + rewrite Hc. unfold clean_text_content. cbn [truthy str_of]. rewrite Hne. cbn [negb].
      rewrite (sub_before_bracket T v HT), E2, app_nil_r. reflexivity.
    + rewrite (extract_image_paths_eq _ Hne), (findall_before_bracket T v HT). reflexivity.
Qed.

(** X28: a cell made of a text without tag syntax followed by any number
    of tags, each with a bracket-free body, decodes to the cleaned text
    and to the paths of all bodies in the order written: every tag is
    read, and nothing of the bodies reaches the text. *)
Theorem several_tags_are_all_read (T : str) (groups : list (str * str)) :
  has_tag_syntax T = false ->
  Forall (fun g => (fst g = lit "[IMG]" \/ fst g = lit "[IMGS]")
                   /\ Forall (fun c => Re.not_bracket c = true) (snd g)) groups ->
  decode (Some (T ++ List.concat (List.map (fun g => fst g ++ snd g) groups)))
  = (clean_text_content (Some T),
     List.concat (List.map (fun g => paths_of_group (snd g)) groups)).
Proof. apply decode_tagged_groups. Qed.

Lemma several_tags_are_all_read_witness :
  decode (Some (lit "note [IMG] a.png [IMGS]b.png; c.png" ++ [LF] ++ lit "[IMG][IMG] d.png"))
  = (lit "note", [lit "a.png"; lit "b.png"; lit "c.png"; lit "d.png"]).
Proof.
  assert (HT : has_tag_syntax (lit "note ") = false) by reflexivity.
  assert (Hg : Forall (fun g => (fst g = lit "[IMG]" \/ fst g = lit "[IMGS]")
                        /\ Forall (fun c => Re.not_bracket c = true) (snd g))
                 [(lit "[IMG]", lit " a.png "); (lit "[IMGS]", lit "b.png; c.png" ++ [LF]);
                  (lit "[IMG]", []); (lit "[IMG]", lit " d.png")]).
  { repeat (constructor; [split; [first [left; reflexivity | right; reflexivity]|]|]);
      try (apply Forall_forall; intros c Hc; vm_compute in Hc;
           repeat (apply elem_of_cons in Hc as [->|Hc]; [reflexivity|]);
           apply elem_of_nil in Hc; contradiction). }
  pose proof (several_tags_are_all_read (lit "note ") _ HT Hg) as E.
  etransitivity; [|etransitivity; [exact E|]]; vm_compute; reflexivity.
Defined.

(** ** The fields of a rendered row *)

Section WikiFields.

Variable file_exists : str -> bool.
Variable basename : str -> str.

Lemma image_refs_eq (l : list str) : forall acc : list str,
  List.fold_left
    (fun image_refs image_path =>
       if file_exists image_path
       then image_refs ++ [lit "!" ++ basename image_path ++ lit "!"]
       else image_refs) l acc
  = acc ++ List.map (fun image_path => lit "!" ++ basename image_path ++ lit "!")
             (List.filter file_exists l).
Proof.
  induction l as [|p l IH]; intros acc; cbn [List.fold_left List.filter];
    [rewrite app_nil_r; reflexivity|].
  rewrite IH. destruct (file_exists p); [|reflexivity].
  cbn [List.map]. rewrite <- app_assoc. reflexivity.
Qed.

Lemma cell_markup_fields cell_value :
  cell_markup file_exists basename cell_value
  = join (lit "|") (cell_fields file_exists basename cell_value).
Proof.
  unfold cell_markup, cell_fields, cell_text.
  destruct (truthy cell_value) eqn:Ht.
  2:{ unfold extract_image_paths. rewrite Ht. reflexivity. }
  set (text := if nonempty (clean_text_content cell_value)
               then replace LF [BACKSLASH; BACKSLASH] (clean_text_content cell_value)
               else []).
  destruct (extract_image_paths cell_value) as [|p l] eqn:Ep.
  { cbn [List.filter List.map]. rewrite app_nil_r. destruct text; reflexivity. }
  rewrite image_refs_eq. cbn [app].
  destruct (List.map _ (List.filter file_exists (p :: l))) as [|r rs].
  { rewrite app_nil_r. destruct text; reflexivity. }
  destruct text as [|c text]; reflexivity.
Qed.

Lemma join_concat sep (ls : list (list str)) :
  Forall (fun l => l <> []) ls ->
  join sep (List.map (join sep) ls) = join sep (List.concat ls).
Proof.
  induction 1 as [|l ls Hl Hls IH]; [reflexivity|].
  cbn [List.map List.concat].
  destruct ls as [|l' ls'].
  { cbn [List.map List.concat join]. rewrite app_nil_r. reflexivity. }
  assert (Hc : List.concat (l' :: ls') <> []).
  { apply Forall_cons in Hls as [Hl' _]. cbn [List.concat].
    destruct l'; [contradiction | discriminate]. }
  change (join sep (join sep l :: List.map (join sep) (l' :: ls')))
    with (join sep l ++ sep ++ join sep (List.map (join sep) (l' :: ls'))).
  rewrite IH. clear IH Hls.
  remember (List.concat (l' :: ls')) as rest eqn:Er. clear Er.
  induction l as [|x l IHl]; [contradiction|].
  destruct l as [|y l].
  - cbn [app join]. destruct rest; [contradiction | reflexivity].
  - change (join sep (x :: y :: l)) with (x ++ sep ++ join sep (y :: l)).
    change ((x :: y :: l) ++ rest) with (x :: (y :: l) ++ rest).
    change (join sep (x :: (y :: l) ++ rest))
      with (x ++ sep ++ join sep ((y :: l) ++ rest)).
    rewrite <- !app_assoc. do 2 f_equal. apply IHl. discriminate.
Qed.

Lemma cell_fields_nonempty cell_value : cell_fields file_exists basename cell_value <> [].
Proof. unfold cell_fields. destruct (_ ++ _); discriminate. Qed.

(** X29: a row of the rendered table is the flat list of the fields of
    its cells between bars: each cell gives its text, when it has one,
    and then one field of its own for every image whose file exists, so a
    cell with images takes more than one column of the row. *)
Theorem wiki_row_fields (row_data : list cell) :
  table_row (cell_markup file_exists basename) row_data
  = lit "|"
    ++ join (lit "|") (List.concat (List.map (cell_fields file_exists basename) row_data))
    ++ lit "|" ++ [LF]
  /\ forall cell_value,
       length (cell_fields file_exists basename cell_value)
       = Nat.max 1
           ((if nonempty (cell_text cell_value) then 1 else 0)
            + length (List.filter file_exists (extract_image_paths cell_value))).
Proof.
  split.
  - rewrite table_row_cells. do 2 f_equal.
    rewrite <- join_concat.
    + rewrite List.map_map. f_equal. apply map_agree. intros v _. apply cell_markup_fields.
    + apply Forall_forall. intros l Hl. apply list_elem_of_fmap in Hl as (v & -> & _).
      apply cell_fields_nonempty.
  - intros v. unfold cell_fields.
    destruct (nonempty (cell_text v)); cbn [app].
    + cbn [length]. rewrite length_map. lia.
    + destruct (List.filter file_exists (extract_image_paths v)) as [|p l]; [reflexivity|].
      cbn [List.map length]. rewrite length_map. lia.
Qed.

End WikiFields.

(** ** The document after an import *)

Section ImportSuccess.

Variable clock : nat -> str.
Variable xlsx_of : list str -> list (list cell) -> list (nat * nat * list N * nat) -> list N.
Variable image_ok : list N -> bool.
Variable filename : str.

Lemma import_package_run x excel_file rest df w w1 w2 :
  excel_files x = excel_file :: rest ->
  match assets_dirs x with
  | assets_src_dir :: _ => sync_from clock (x_tree x) assets_src_dir w
  | [] => (inr tt, w)
  end = (inr tt, w1) ->
  negb (pandas_available (x_tree x)) || negb (openpyxl_available (x_tree x)) = false ->
  read_excel (x_tree x) excel_file = Some df ->
  (let excel_assets_dir :=
     Posix.join (Posix.dirname excel_file)
       (fst (Posix.splitext (Posix.basename excel_file)) ++ lit "_assets") in
   if path_exists (x_tree x) excel_assets_dir
   then sync_from clock (x_tree x) excel_assets_dir w1
   else (inr tt, w1)) = (inr tt, w2) ->
  exists w3,
    _load_from_excel_file clock (x_tree x) excel_file w1 = (inr tt, w3)
    /\ import_package clock filename (Some x) w
       = (inr tt,
          {| store := store w3; outside := outside w3; sheet := sheet w3;
             current_file := current_file w3;
             reports := reports w3 ++ [InfoImported; StatusImported];
             ticks := ticks w3 |}).
Proof.
  intros He Hs Hl Hr Hs2. cbv zeta in Hs2.
  pose proof (load_run clock (x_tree x) excel_file df w1 w2 Hl Hr Hs2) as E.
  eexists. split; [exact E|].
  rewrite import_package_eq. unfold try_except. rewrite He, run_bind_eq.
  replace ((match assets_dirs x with
            | [] => mret ()
            | assets_src_dir :: _ => sync_from clock (x_tree x) assets_src_dir
            end) w) with (inr (A := Exn) tt, w1)
    by (rewrite <- Hs; destruct (assets_dirs x); reflexivity).
  cbv beta iota. rewrite run_bind_eq, E. cbv beta iota.
  rewrite run_bind_eq, !report_eq.
  cbn [store outside sheet current_file reports ticks].
  rewrite <- !app_assoc. reflexivity.
Qed.

(** X30: after an import whose copies and load succeed, the document is
    the first workbook found in the unpacked archive and is bound to the
    path of that extracted file, not to the archive; the reports end with
    the two success reports, and the next [save_excel_file] saves to the
    extracted path without asking for a name. *)
Theorem import_binds_extracted_workbook
    (env : Env) (assets_dir asked : str)
    (x : Extracted) (excel_file : str) (rest : list str) (df : Table) (w w1 w2 : World) :
  excel_files x = excel_file :: rest ->
  match assets_dirs x with
  | assets_src_dir :: _ => sync_from clock (x_tree x) assets_src_dir w
  | [] => (inr tt, w)
  end = (inr tt, w1) ->
  negb (pandas_available (x_tree x)) || negb (openpyxl_available (x_tree x)) = false ->
  read_excel (x_tree x) excel_file = Some df ->
  (let excel_assets_dir :=
     Posix.join (Posix.dirname excel_file)
       (fst (Posix.splitext (Posix.basename excel_file)) ++ lit "_assets") in
   if path_exists (x_tree x) excel_assets_dir
   then sync_from clock (x_tree x) excel_assets_dir w1
   else (inr tt, w1)) = (inr tt, w2) ->
  nonempty excel_file = true ->
  let run := import_package clock filename (Some x) w in
  fst run = inr tt
  /\ loaded (x_tree x) excel_file (snd run)
  /\ current_file (snd run) = Some excel_file
  /\ (exists before, reports (snd run) = before ++ [InfoImported; StatusImported])
  /\ save_excel_file xlsx_of image_ok env assets_dir asked (snd run)
     = _save_to_excel_file xlsx_of image_ok env assets_dir excel_file (snd run).
Proof.
  intros He Hs Hl Hr Hs2 Hn. cbv zeta.
  destruct (import_package_run x excel_file rest df w w1 w2 He Hs Hl Hr Hs2)
    as (w3 & E3 & E).
  rewrite E. clear E.
  pose proof (load_run clock (x_tree x) excel_file df w1 w2 Hl Hr Hs2) as E.
  rewrite E in E3. injection E3 as <-. clear E.
  cbn [fst snd current_file reports sheet].
  split; [reflexivity|]. split; [exists df; repeat split; assumption|].
  split; [reflexivity|]. split; [eexists; reflexivity|].
  unfold save_excel_file. cbn [current_file truthy str_of]. rewrite Hn. reflexivity.
Qed.

End ImportSuccess.

Lemma import_binds_extracted_workbook_witness :
  let df := {| tbl_headers := [lit "name"]; tbl_rows := [[lit "x"]] |} in
  let x := {| x_tree := {| stat := fun _ => None; listdir := fun _ => [];
                           read_excel := fun _ => Some df;
                           write_error := fun _ => None;
                           pandas_available := true; openpyxl_available := true;
                           xlsxwriter_available := true |};
              x_walk := [(lit "/tmp/x", [], [lit "notes.txt"; lit "book.xlsx"])] |} in
  let run := import_package (fun _ => lit "20250101_120000") (lit "/in/pack.zip")
               (Some x) empty_world in
  current_file (snd run) = Some (lit "/tmp/x/book.xlsx")
  /\ reports (snd run)
     = [StatusOpened (lit "/tmp/x/book.xlsx"); InfoOpened 100 20; InfoImported; StatusImported].
Proof.
  intros df x run.
  assert (He : excel_files x = [lit "/tmp/x/book.xlsx"]) by (vm_compute; reflexivity).
  assert (Hs : match assets_dirs x with
               | assets_src_dir :: _ =>
                 sync_from (fun _ => lit "20250101_120000") (x_tree x) assets_src_dir
                   empty_world
               | [] => (inr tt, empty_world)
               end = (inr tt, empty_world)) by reflexivity.
  assert (Hl : negb (pandas_available (x_tree x)) || negb (openpyxl_available (x_tree x))
               = false) by reflexivity.
  assert (Hr : read_excel (x_tree x) (lit "/tmp/x/book.xlsx") = Some df) by reflexivity.
  assert (Hs2 : (let excel_assets_dir :=
                   Posix.join (Posix.dirname (lit "/tmp/x/book.xlsx"))
                     (fst (Posix.splitext (Posix.basename (lit "/tmp/x/book.xlsx")))
                      ++ lit "_assets") in
                 if path_exists (x_tree x) excel_assets_dir
                 then sync_from (fun _ => lit "20250101_120000") (x_tree x)
                        excel_assets_dir empty_world
                 else (inr tt, empty_world)) = (inr tt, empty_world)) by reflexivity.
  assert (Hn : nonempty (lit "/tmp/x/book.xlsx") = true) by reflexivity.
  destruct (import_binds_extracted_workbook (fun _ => lit "20250101_120000")
              (fun _ _ _ => []) (fun _ => true) (lit "/in/pack.zip")
              two_pictures (lit "assets") (lit "") x (lit "/tmp/x/book.xlsx") [] df
              empty_world empty_world empty_world He Hs Hl Hr Hs2 Hn)
    as (_ & _ & Hc & _ & _).
  split; [exact Hc|]. vm_compute. reflexivity.
Defined.
